(** * Data Vision Pro: the dashboard builder's data-shape analysis and the
      API-history mutation

    Shallow embedding of
      - [src/components/DashboardBuilder.tsx]: [findArrays], [analyzeFields],
        [flattenData], [detectFieldType], [suggestChartConfig] and
        [processDataForChart];
      - [convex/apiHistory.ts]: [saveApiRequest], and with stable document
        ids also [deleteApiRequest], [getUserApiHistory] and [clearAll];
      - the rest of the builder: [generateSuggestions], [getFieldsByType],
        the option lists of the form and the state updates of its effects;
      - [src/components/ApiTester.tsx]: [addHeader], [updateHeader],
        [removeHeader], [handleSaveRequest] and [handleLoadHistory].

    The data the builder receives is a JSON value, an inductive type whose
    objects list their own properties in enumeration order.  The objects
    the code itself creates with [{}] are records of their own properties
    and their prototype: a read that finds no own property gives the
    member inherited from [Object.prototype] ([constructor], [toString],
    ...), an assignment to [__proto__] goes through the accessor of
    [Object.prototype], and [obj.hasOwnProperty(key)] on a record that has
    a property of that name throws a TypeError.  [Object.prototype] is
    taken as the language defines it (no member added or removed).
    The number primitive and the built-ins the code calls ([Number],
    [Date.parse], [JSON.stringify], [localeCompare]) are the fields of two
    interfaces, so that every general theorem holds for any implementation
    of them, IEEE doubles included. *)

From Stdlib Require Import List String Ascii ZArith Bool Lia Permutation.
From Stdlib Require Import DecimalString Sorted.
Import ListNotations.
Local Open Scope string_scope.
Local Open Scope list_scope.

(** ** The number primitive and its built-ins *)

Class JSNumber : Type := {
  num : Type;
  num_zero : num;                         (* the literal 0 *)
  num_one : num;                          (* the literal 1 *)
  num_nan : num;                          (* NaN *)
  num_add : num -> num -> num;            (* + on two numbers *)
  num_isNaN : num -> bool;                (* isNaN(x) *)
  num_toString : num -> string;           (* String(x) *)
  Number_of_string : string -> num;       (* Number(s) *)
  Date_parse : string -> num              (* Date.parse(s) *)
}.

(** ** Values *)

Section Values.
Context {N : JSNumber}.

#[local] Unset Elimination Schemes.

(** The data: a JSON value (and [undefined]).  [JObj props] lists the own
    enumerable properties of an object in the order [for ... in] visits
    them, each name once, paired with the value [obj[key]]. *)
Inductive JSValue : Type :=
| JUndefined
| JNull
| JBool (b : bool)
| JNum (n : num)
| JStr (s : string)
| JArr (elems : list JSValue)
| JObj (props : list (string * JSValue)).

#[local] Set Elimination Schemes.

(** What the code computes with: a value of the data, or what a read of
    a plain object finds on [Object.prototype]: one of its methods, or,
    for [__proto__], the prototype itself. *)
Inductive Value : Type :=
| Plain (v : JSValue)
| Builtin (name : string)     (* the function [Object.prototype[name]] *)
| ObjectPrototype.            (* [Object.prototype] *)

Coercion Plain : JSValue >-> Value.

Inductive JSType : Type :=
| TyUndefined | TyObject | TyBoolean | TyNumber | TyString | TyFunction.

Definition typeof (v : Value) : JSType :=
  match v with
  | Plain JUndefined => TyUndefined
  | Plain JNull => TyObject
  | Plain (JBool _) => TyBoolean
  | Plain (JNum _) => TyNumber
  | Plain (JStr _) => TyString
  | Plain (JArr _) => TyObject
  | Plain (JObj _) => TyObject
  | Builtin _ => TyFunction
  | ObjectPrototype => TyObject
  end.

Definition JSType_eqb (a b : JSType) : bool :=
  match a, b with
  | TyUndefined, TyUndefined | TyObject, TyObject | TyBoolean, TyBoolean
  | TyNumber, TyNumber | TyString, TyString | TyFunction, TyFunction => true
  | _, _ => false
  end.

Definition Array_isArray (v : Value) : bool :=
  match v with Plain (JArr _) => true | _ => false end.

Definition is_undefined (v : Value) : bool :=
  match v with Plain JUndefined => true | _ => false end.

Definition is_null (v : Value) : bool :=
  match v with Plain JNull => true | _ => false end.

(** Truthiness of a string: only the empty string is falsy. *)
Definition truthy_string (s : string) : bool :=
  match s with EmptyString => false | _ => true end.

(** Truthiness of an optional string ([config.groupBy]). *)
Definition truthy_opt (o : option string) : bool :=
  match o with Some s => truthy_string s | None => false end.
End Values.

Arguments JSValue {N}.
Arguments Value {N}.

(** Induction on values, with the property available for every element of
    an array and every property value of an object. *)
Section ValueInduction.
Context {N : JSNumber}.
Variable P : JSValue -> Prop.
Hypothesis P_undefined : P JUndefined.
Hypothesis P_null : P JNull.
Hypothesis P_bool : forall b, P (JBool b).
Hypothesis P_num : forall n, P (JNum n).
Hypothesis P_str : forall s, P (JStr s).
Hypothesis P_arr : forall elems, Forall P elems -> P (JArr elems).
Hypothesis P_obj :
  forall props, Forall (fun kv => P (snd kv)) props -> P (JObj props).

Fixpoint JSValue_ind' (v : JSValue) : P v :=
  match v with
  | JUndefined => P_undefined
  | JNull => P_null
  | JBool b => P_bool b
  | JNum n => P_num n
  | JStr s => P_str s
  | JArr elems =>
      P_arr elems
        ((fix all (es : list JSValue) : Forall P es :=
            match es with
            | [] => Forall_nil P
            | e :: rest => Forall_cons e (JSValue_ind' e) (all rest)
            end) elems)
  | JObj props =>
      P_obj props
        ((fix all (ps : list (string * JSValue))
            : Forall (fun kv => P (snd kv)) ps :=
            match ps with
            | [] => Forall_nil _
            | kv :: rest =>
                Forall_cons (P := fun kv => P (snd kv)) kv
                            (JSValue_ind' (snd kv)) (all rest)
            end) props)
  end.
End ValueInduction.

(** ** The other built-ins the code calls *)

Class JSHost {N : JSNumber} : Type := {
  JSON_stringify : JSValue -> string;              (* JSON.stringify(v), v an array *)
  localeCompare : string -> string -> comparison;  (* sign of a.localeCompare(b) *)
  function_source : string -> string;              (* String(Object.prototype[name]) *)
  member_of : Value -> string -> Value             (* v[k], v an array, a record or a function *)
}.

(** ** Property names and ordered objects *)

Definition is_digit (c : ascii) : bool :=
  let n := nat_of_ascii c in (48 <=? n)%nat && (n <=? 57)%nat.

Definition digit_val (c : ascii) : N := N.of_nat (nat_of_ascii c - 48).

Fixpoint digits_value (acc : N) (cs : list ascii) : option N :=
  match cs with
  | [] => Some acc
  | c :: cs' =>
      if is_digit c then digits_value (acc * 10 + digit_val c)%N cs' else None
  end.

(** The array index a property name denotes, when it is a canonical numeric
    string below 2^32 - 1; such names are enumerated first, ascending. *)
Definition array_index (k : string) : option N :=
  match list_ascii_of_string k with
  | [] => None
  | c :: cs =>
      if (Ascii.eqb c "0" && negb (match cs with [] => true | _ => false end))%bool
      then None
      else match digits_value 0%N (c :: cs) with
           | Some n => if (n <? 4294967295)%N then Some n else None
           | None => None
           end
  end.

(** The name of the [i]-th element of an array or character of a string. *)
Definition index_key (i : nat) : string :=
  NilEmpty.string_of_uint (Nat.to_uint i).

Section Objects.
Context {A : Type}.

(** [o[k]] on an own property; [None] when there is none. *)
Fixpoint obj_lookup (k : string) (o : list (string * A)) : option A :=
  match o with
  | [] => None
  | (k', v) :: rest => if String.eqb k k' then Some v else obj_lookup k rest
  end.

Definition obj_has (k : string) (o : list (string * A)) : bool :=
  match obj_lookup k o with Some _ => true | None => false end.

Fixpoint obj_replace (k : string) (v : A) (o : list (string * A)) : list (string * A) :=
  match o with
  | [] => []
  | (k', v') :: rest =>
      if String.eqb k k' then (k', v) :: rest else (k', v') :: obj_replace k v rest
  end.

(** Where a new array-index name goes: before the first property that is
    not an array index or has a larger one. *)
Fixpoint obj_insert_index (n : N) (k : string) (v : A) (o : list (string * A))
  : list (string * A) :=
  match o with
  | [] => [(k, v)]
  | (k', v') :: rest =>
      match array_index k' with
      | Some m =>
          if (m <? n)%N then (k', v') :: obj_insert_index n k v rest
          else (k, v) :: (k', v') :: rest
      | None => (k, v) :: (k', v') :: rest
      end
  end.

(** Defining the own property [k]: an existing property keeps its place, a
    new one is enumerated after the older ones (array indices first,
    ascending). *)
Definition obj_set (k : string) (v : A) (o : list (string * A)) : list (string * A) :=
  if obj_has k o then obj_replace k v o
  else match array_index k with
       | Some n => obj_insert_index n k v o
       | None => o ++ [(k, v)]
       end.

Definition Object_keys (o : list (string * A)) : list string := map fst o.
Definition Object_values (o : list (string * A)) : list A := map snd o.
End Objects.

(** ** The objects the code creates

    An object made with [{}] has its own properties and a prototype,
    [Object.prototype] unless an assignment to [__proto__] changed it. *)

(** The functions [Object.prototype] holds, by property name. *)
Definition Object_prototype_methods : list string :=
  [ "constructor"; "hasOwnProperty"; "isPrototypeOf"; "propertyIsEnumerable";
    "toLocaleString"; "toString"; "valueOf";
    "__defineGetter__"; "__defineSetter__"; "__lookupGetter__"; "__lookupSetter__" ].

(** Whether a plain object inherits a member named [k]; each of them is
    an object (a function, or the prototype itself), hence truthy. *)
Definition inherits_member (k : string) : bool :=
  String.eqb k "__proto__" || existsb (String.eqb k) Object_prototype_methods.

Section PlainObjects.
Context {N : JSNumber} {H : JSHost}.

(** The prototype of such an object.  The code assigns under [__proto__]
    only what it has read under that name from a flattened record: a
    primitive, [null] or [Object.prototype]; so [ProtoOther] is never
    reached on JSON data (lemmas [flattenData_tidy] and [chart_row_proto]),
    and what a read finds through it is left to the host. *)
Inductive Proto : Type :=
| ProtoObject               (* [Object.prototype], as for every [{}] *)
| ProtoNull                 (* [null], after [o.__proto__ = null] *)
| ProtoOther (v : Value).   (* an array, a record or a function *)

Record Obj : Type := {
  own : list (string * Value);     (* the own properties, in enumeration order *)
  proto : Proto
}.

(** [{}] *)
Definition empty_object : Obj := {| own := []; proto := ProtoObject |}.

(** [Object.prototype[k]] *)
Definition inherited (k : string) : Value :=
  if String.eqb k "__proto__" then ObjectPrototype
  else if existsb (String.eqb k) Object_prototype_methods then Builtin k
  else JUndefined.

(** [o[k]]: the own property, else what the prototype chain holds. *)
Definition obj_get (k : string) (o : Obj) : Value :=
  match obj_lookup k (own o) with
  | Some v => v
  | None =>
      match proto o with
      | ProtoObject => inherited k
      | ProtoNull => JUndefined
      | ProtoOther p => member_of p k
      end
  end.

(** Whether an assignment to [o.__proto__] reaches the accessor of
    [Object.prototype]: [o] has no own property of that name, and neither
    has a record serving as its prototype. *)
Definition reaches_accessor (o : Obj) : bool :=
  negb (obj_has "__proto__" (own o))
  && match proto o with
     | ProtoObject => true
     | ProtoNull => false
     | ProtoOther (Plain (JObj props)) => negb (obj_has "__proto__" props)
     | ProtoOther _ => true
     end.

(** The setter of [__proto__]: an object or [null] becomes the prototype,
    any other value is ignored. *)
Definition set_prototype (v : Value) (o : Obj) : Obj :=
  match v with
  | Plain JNull => {| own := own o; proto := ProtoNull |}
  | ObjectPrototype => {| own := own o; proto := ProtoObject |}
  | Plain (JArr _) | Plain (JObj _) | Builtin _ =>
      {| own := own o; proto := ProtoOther v |}
  | _ => o
  end.

(** [o[k] = v] *)
Definition obj_put (k : string) (v : Value) (o : Obj) : Obj :=
  if String.eqb k "__proto__" && reaches_accessor o
  then set_prototype v o
  else {| own := obj_set k v (own o); proto := proto o |}.

(** [Object.assign(o, src)] *)
Definition Object_assign (o src : Obj) : Obj :=
  fold_left (fun acc kv => obj_put (fst kv) (snd kv) acc) (own src) o.

(** The own enumerable properties a [for ... in] loop over an array or a
    string visits, each with the value [v[key]]. *)
Fixpoint indexed {A : Type} (i : nat) (l : list A) : list (string * A) :=
  match l with
  | [] => []
  | x :: rest => (index_key i, x) :: indexed (S i) rest
  end.

Definition chars (s : string) : list JSValue :=
  map (fun c => JStr (String c EmptyString)) (list_ascii_of_string s).
End PlainObjects.

Arguments Proto {N}.
Arguments Obj {N}.

(** ** Loops that may throw

    [None] stands for a thrown TypeError, which ends the loop and the
    function around it. *)
Section Loops.
Context {A B S : Type}.

(** [l.forEach(a => ...)] (or [for ... in]) updating the state [s]. *)
Fixpoint for_each (body : S -> A -> option S) (l : list A) (s : S) : option S :=
  match l with
  | [] => Some s
  | a :: rest =>
      match body s a with
      | Some s' => for_each body rest s'
      | None => None
      end
  end.

(** [l.map(f)] *)
Fixpoint map_all (f : A -> option B) (l : list A) : option (list B) :=
  match l with
  | [] => Some []
  | a :: rest =>
      match f a with
      | Some b => option_map (cons b) (map_all f rest)
      | None => None
      end
  end.
End Loops.

(** ** Array discovery: [findArrays] *)

Section FindArrays.
Context {N : JSNumber}.

(** [prefix ? `${prefix}.${key}` : key] *)
Definition extend_path (prefix key : string) : string :=
  if truthy_string prefix then prefix ++ "." ++ key else key.

(** [prefix || "root"] *)
Definition path_or_root (prefix : string) : string :=
  if truthy_string prefix then prefix else "root".

Fixpoint findArrays (obj : JSValue) (prefix : string) {struct obj}
  : list (string * list JSValue) :=
  match obj with
  | JArr arr => [(path_or_root prefix, arr)]
  | JObj props =>
      (fix each (ps : list (string * JSValue)) : list (string * list JSValue) :=
         match ps with
         | [] => []
         | (key, val) :: rest =>
             findArrays val (extend_path prefix key) ++ each rest
         end) props
  | _ => []
  end.
End FindArrays.

(** ** Field inference: [flattenData], [detectFieldType], [analyzeFields] *)

Inductive FieldType : Type :=
| FString | FNumber | FDate | FBoolean | FArray | FObject.

Definition FieldType_eqb (a b : FieldType) : bool :=
  match a, b with
  | FString, FString | FNumber, FNumber | FDate, FDate
  | FBoolean, FBoolean | FArray, FArray | FObject, FObject => true
  | _, _ => false
  end.

(** *** The date regular expression

    [/^\d{4}-\d{2}-\d{2}|^\d{2}\/\d{2}\/\d{4}|\d{4}-\d{2}-\d{2}T\d{2}:\d{2}:\d{2}/] *)

Inductive Atom : Type :=
| Digit              (* \d *)
| Lit (c : ascii).   (* a literal character *)

Definition atom_matches (a : Atom) (c : ascii) : bool :=
  match a with
  | Digit => is_digit c
  | Lit c' => Ascii.eqb c c'
  end.

(** The pattern matches at the start of the text. *)
Fixpoint matches_at (pat : list Atom) (text : list ascii) : bool :=
  match pat, text with
  | [], _ => true
  | _ :: _, [] => false
  | a :: pat', c :: text' => atom_matches a c && matches_at pat' text'
  end.

(** The pattern matches at some position of the text. *)
Fixpoint matches_somewhere (pat : list Atom) (text : list ascii) : bool :=
  matches_at pat text ||
  match text with
  | [] => false
  | _ :: text' => matches_somewhere pat text'
  end.

Definition d2 : list Atom := [Digit; Digit].
Definition d4 : list Atom := [Digit; Digit; Digit; Digit].

Definition re_iso_date : list Atom :=        (* \d{4}-\d{2}-\d{2} *)
  d4 ++ [Lit "-"] ++ d2 ++ [Lit "-"] ++ d2.
Definition re_slash_date : list Atom :=      (* \d{2}\/\d{2}\/\d{4} *)
  d2 ++ [Lit "/"] ++ d2 ++ [Lit "/"] ++ d4.
Definition re_iso_datetime : list Atom :=    (* \d{4}-\d{2}-\d{2}T\d{2}:\d{2}:\d{2} *)
  re_iso_date ++ [Lit "T"] ++ d2 ++ [Lit ":"] ++ d2 ++ [Lit ":"] ++ d2.

Definition dateRegex_test (s : string) : bool :=
  let text := list_ascii_of_string s in
  matches_at re_iso_date text
  || matches_at re_slash_date text
  || matches_somewhere re_iso_datetime text.

Section Inference.
Context {N : JSNumber} {H : JSHost}.

Record FieldInfo : Type := {
  name : string;
  type : FieldType;
  sampleValue : Value
}.

(** [obj.hasOwnProperty(key)] for a key the loop visits.  The method is
    the inherited one unless the record has a property of that name; its
    value comes from JSON and cannot be called: [None] is the TypeError.
    The inherited method answers [true] for the keys of the loop. *)
Definition hasOwnProperty_call (obj : JSValue) (key : string) : option bool :=
  match obj with
  | JObj props => if obj_has "hasOwnProperty" props then None else Some true
  | _ => Some true
  end.

(** The body of the [if] in the loop of [flattenData], the recursive call
    on [obj[key]] being [sub]. *)
Definition flatten_step (prefix : string) (sub : string -> option Obj)
    (key : string) (val : JSValue) (flattened : Obj) : option Obj :=
  let newKey := extend_path prefix key in
  if is_null val || is_undefined val then Some (obj_put newKey val flattened)
  else if Array_isArray val
  then Some (obj_put newKey (JStr (JSON_stringify val)) flattened)
  else if JSType_eqb (typeof val) TyObject
  then option_map (Object_assign flattened) (sub newKey)
  else Some (obj_put newKey val flattened).

(** One turn of the [for ... in] loop over [obj]. *)
Definition flatten_turn (obj : JSValue) (prefix : string)
    (sub : string -> option Obj) (key : string) (val : JSValue)
    (flattened : Obj) : option Obj :=
  match hasOwnProperty_call obj key with
  | Some true => flatten_step prefix sub key val flattened
  | Some false => Some flattened
  | None => None
  end.

Fixpoint flattenData (obj : JSValue) (prefix : string) {struct obj} : option Obj :=
  match obj with
  | JObj props =>
      (fix each (ps : list (string * JSValue)) (flattened : Obj) : option Obj :=
         match ps with
         | [] => Some flattened
         | (key, val) :: rest =>
             match flatten_turn obj prefix (flattenData val) key val flattened with
             | Some flattened' => each rest flattened'
             | None => None
             end
         end) props empty_object
  | JArr elems =>
      (fix each (i : nat) (es : list JSValue) (flattened : Obj) : option Obj :=
         match es with
         | [] => Some flattened
         | val :: rest =>
             match flatten_turn obj prefix (flattenData val) (index_key i) val
                                flattened with
             | Some flattened' => each (S i) rest flattened'
             | None => None
             end
         end) 0%nat elems empty_object
  | JStr s =>
      for_each
        (fun flattened kv =>
           flatten_turn obj prefix (fun _ => Some empty_object) (fst kv) (snd kv)
                        flattened)
        (indexed 0 (chars s)) empty_object
  | _ => Some empty_object
  end.

Definition detectFieldType (values : list Value) : FieldType :=
  let firstValue := nth 0 values (Plain JUndefined) in
  if Array_isArray firstValue then FArray
  else if JSType_eqb (typeof firstValue) TyBoolean then FBoolean
  else if JSType_eqb (typeof firstValue) TyObject then FObject
  else
    match firstValue with
    | Plain (JNum _) => FNumber
    | Plain (JStr s) =>
        if negb (num_isNaN (Number_of_string s)) then FNumber
        else if dateRegex_test s || negb (num_isNaN (Date_parse s)) then FDate
        else FString
    | _ => FString
    end.

(** [allKeys.add(key)] on a [Set], which keeps insertion order. *)
Definition set_add (k : string) (s : list string) : list string :=
  if existsb (String.eqb k) s then s else s ++ [k].

(** Stable sort by [a.name.localeCompare(b.name)]. *)
Fixpoint insert_field (f : FieldInfo) (l : list FieldInfo) : list FieldInfo :=
  match l with
  | [] => [f]
  | g :: rest =>
      match localeCompare (name g) (name f) with
      | Gt => f :: g :: rest
      | _ => g :: insert_field f rest
      end
  end.

Definition sort_fields (l : list FieldInfo) : list FieldInfo :=
  fold_left (fun sorted f => insert_field f sorted) l [].

Definition defined (val : Value) : bool :=
  negb (is_undefined val) && negb (is_null val).

(** [Array.isArray(data) ? data.slice(0, 5) : [data]] *)
Definition sampleData_of (data : JSValue) : list JSValue :=
  match data with
  | JArr elems => firstn 5 elems
  | _ => [data]
  end.

(** [typeof item === 'object' && item !== null] *)
Definition is_record (item : JSValue) : bool :=
  JSType_eqb (typeof item) TyObject && negb (is_null item).

(** The body of the first [forEach]. *)
Definition add_keys (allKeys : list string) (item : JSValue) : option (list string) :=
  if is_record item
  then option_map
         (fun flattened =>
            fold_left (fun s key => set_add key s) (Object_keys (own flattened))
                      allKeys)
         (flattenData item EmptyString)
  else Some allKeys.

(** The first [forEach]: the dotted keys of the sampled objects. *)
Definition allKeys_of (sampleData : list JSValue) : option (list string) :=
  for_each add_keys sampleData [].

(** [sampleData.map(item => flattenData(item)[key])] *)
Definition column (sampleData : list JSValue) (key : string) : option (list Value) :=
  map_all (fun item => option_map (obj_get key) (flattenData item EmptyString))
          sampleData.

(** The body of the second [forEach]. *)
Definition push_field (sampleData : list JSValue)
    (fields : list FieldInfo) (key : string) : option (list FieldInfo) :=
  match column sampleData key with
  | Some values =>
      let sampleValues := filter defined values in
      Some (if (0 <? List.length sampleValues)%nat
            then fields ++ [ {| name := key;
                                type := detectFieldType sampleValues;
                                sampleValue := nth 0 sampleValues (Plain JUndefined) |} ]
            else fields)
  | None => None
  end.

Definition analyzeFields (data : JSValue) : option (list FieldInfo) :=
  let sampleData := sampleData_of data in
  match allKeys_of sampleData with
  | Some allKeys =>
      option_map sort_fields (for_each (push_field sampleData) allKeys [])
  | None => None
  end.
End Inference.

Arguments FieldInfo {N}.
Arguments flatten_turn : simpl never.

(** ** Chart auto-configuration: [suggestChartConfig] *)

Inductive ChartType : Type := Bar | Line | Pie | Table.

Definition ChartType_eqb (a b : ChartType) : bool :=
  match a, b with
  | Bar, Bar | Line, Line | Pie, Pie | Table, Table => true
  | _, _ => false
  end.

Record ChartConfig : Type := {
  chartType : ChartType;          (* [type] *)
  xAxis : string;
  yAxis : string;
  groupBy : option string;        (* [groupBy?: string] *)
  title : string
}.

Section Suggest.
Context {N : JSNumber}.

Definition fields_of (t : FieldType) (fields : list FieldInfo) : list FieldInfo :=
  filter (fun f => FieldType_eqb (type f) t) fields.

(** [l[i].name], read only where the code has checked the length. *)
Definition name_at (l : list FieldInfo) (i : nat) : string :=
  match nth_error l i with Some f => name f | None => EmptyString end.

Definition suggestChartConfig (fields : list FieldInfo) : option ChartConfig :=
  let stringFields := fields_of FString fields in
  let numberFields := fields_of FNumber fields in
  let dateFields := fields_of FDate fields in
  if (List.length numberFields =? 0)%nat && (List.length stringFields =? 0)%nat
  then None
  else
    let yAxis := if (0 <? List.length numberFields)%nat
                 then name_at numberFields 0 else EmptyString in
    let type0 := if (0 <? List.length numberFields)%nat then Bar else Table in
    let '(xAxis, type1) :=
      if (0 <? List.length dateFields)%nat then
        (name_at dateFields 0,
         if (0 <? List.length numberFields)%nat then Line else type0)
      else if (0 <? List.length stringFields)%nat then
        (name_at stringFields 0, type0)
      else if (1 <? List.length numberFields)%nat then
        (name_at numberFields 1, type0)
      else if (0 <? List.length numberFields)%nat then
        (name_at numberFields 0, type0)
      else (EmptyString, type0) in
    Some {| chartType := type1;
            xAxis := xAxis;
            yAxis := yAxis;
            groupBy := None;
            title := if truthy_string yAxis
                     then (yAxis ++ " by " ++ xAxis)%string
                     else ("Data Analysis: " ++ xAxis)%string |}.
End Suggest.

(** ** Aggregation: [processDataForChart] *)

Section Coercions.
Context {N : JSNumber} {H : JSHost}.

(** [String(v)] on a value of the data. *)
Fixpoint js_toString (v : JSValue) : string :=
  match v with
  | JUndefined => "undefined"
  | JNull => "null"
  | JBool true => "true"
  | JBool false => "false"
  | JNum n => num_toString n
  | JStr s => s
  | JArr elems =>
      (fix join (es : list JSValue) : string :=
         match es with
         | [] => EmptyString
         | e :: rest =>
             ((if is_null e || is_undefined e then EmptyString else js_toString e)
              ++ match rest with [] => EmptyString | _ => "," ++ join rest end)%string
         end) elems
  | JObj _ => "[object Object]"
  end.

(** [String(v)], as template literals and property keys apply it. *)
Definition value_toString (v : Value) : string :=
  match v with
  | Plain p => js_toString p
  | Builtin f => function_source f
  | ObjectPrototype => "[object Object]"
  end.

(** [Number(v)] *)
Definition js_toNumber (v : Value) : num :=
  match v with
  | Plain JUndefined => num_nan
  | Plain JNull => num_zero
  | Plain (JBool true) => num_one
  | Plain (JBool false) => num_zero
  | Plain (JNum n) => n
  | Plain (JStr s) => Number_of_string s
  | _ => Number_of_string (value_toString v)
  end.

(** The [+] operator: concatenation as soon as one operand is (or
    converts to) a string, numeric addition otherwise. *)
Definition js_plus (a b : Value) : Value :=
  let stringish v :=
    match v with
    | Plain (JStr _) | Plain (JArr _) | Plain (JObj _)
    | Builtin _ | ObjectPrototype => true
    | _ => false
    end in
  if stringish a || stringish b
  then JStr (value_toString a ++ value_toString b)%string
  else JNum (num_add (js_toNumber a) (js_toNumber b)).
End Coercions.

Section Process.
Context {N : JSNumber} {H : JSHost}.

(** The group-by field, when [config.groupBy] is truthy. *)
Definition groupBy_field (config : ChartConfig) : option string :=
  match groupBy config with
  | Some g => if truthy_string g then Some g else None
  | None => None
  end.

(** The body of [data.map(...)]. *)
Definition chart_row (config : ChartConfig) (item : JSValue) : option Obj :=
  match flattenData item EmptyString with
  | Some flattened =>
      let result := obj_put (xAxis config) (obj_get (xAxis config) flattened)
                            empty_object in
      let yValue := obj_get (yAxis config) flattened in
      let yValue :=
        match yValue with
        | Plain (JStr s) => if negb (num_isNaN (Number_of_string s))
                            then Plain (JNum (Number_of_string s)) else yValue
        | _ => yValue
        end in
      let result := obj_put (yAxis config) yValue result in
      Some match groupBy_field config with
           | Some g => obj_put g (obj_get g flattened) result
           | None => result
           end
  | None => None
  end.

(** The predicate of [.filter(...)]. *)
Definition chart_keep (config : ChartConfig) (item : Obj) : bool :=
  negb (is_undefined (obj_get (xAxis config) item))
  && negb (is_undefined (obj_get (yAxis config) item))
  && JSType_eqb (typeof (obj_get (yAxis config) item)) TyNumber.

(** [if (!Array.isArray(data)) data = [data]] *)
Definition as_array (data : JSValue) : list JSValue :=
  match data with JArr elems => elems | _ => [data] end.

Definition processed_rows (config : ChartConfig) (data : JSValue)
  : option (list Obj) :=
  option_map (filter (chart_keep config))
             (map_all (chart_row config) (as_array data)).

(** The accumulator [acc] of the two reducers is a [{}] whose own
    properties are the entries; its prototype stays [Object.prototype].

    [acc[key]] is truthy: an entry, or an inherited member. *)
Definition acc_has (key : string) (acc : list (string * Obj)) : bool :=
  obj_has key acc || inherits_member key.

(** [row[f] += v] on an entry. *)
Definition add_to (f : string) (v : Value) (row : Obj) : Obj :=
  obj_put f (js_plus (obj_get f row) v) row.

(** The properties of a built-in function that [f[p] += v] cannot
    assign: [name] and [length] are read-only, and [caller] and
    [arguments] are accessors that throw.  The component is a module,
    hence strict code, and the assignment is a TypeError. *)
Definition function_rejects (p : string) : bool :=
  existsb (String.eqb p) ["name"; "length"; "caller"; "arguments"].

(** The same for the method [Object.prototype[m]]: the member
    [constructor] is [Object], whose [prototype] is read-only as well. *)
Definition member_rejects (m p : string) : bool :=
  function_rejects p || (String.eqb m "constructor" && String.eqb p "prototype").

(** [acc[key][f] += v].  When [acc[key]] is not an entry it is what
    [acc] inherits under [key]: the assignment then changes that member
    ([Object.prototype] itself, or one of its methods), not [acc], or
    throws; on no member at all ([undefined]) it throws.  The members
    are read as the language defines them, also after such a change: the
    reducers meet the difference only when the Y field itself names a
    member of [Object.prototype]. *)
Definition entry_add (key f : string) (v : Value) (acc : list (string * Obj))
  : option (list (string * Obj)) :=
  match obj_lookup key acc with
  | Some row => Some (obj_replace key (add_to f v row) acc)
  | None =>
      match inherited key with
      | ObjectPrototype => Some acc
      | Builtin m => if member_rejects m f then None else Some acc
      | Plain _ => None
      end
  end.

(** The reducer of the group-by branch. *)
Definition group_step (config : ChartConfig) (acc : list (string * Obj)) (item : Obj)
  : option (list (string * Obj)) :=
  let groupByValue :=
    match groupBy_field config with
    | Some g => obj_get g item
    | None => Plain (JStr EmptyString)
    end in
  let key := (value_toString (obj_get (xAxis config) item) ++ "_"
              ++ value_toString groupByValue)%string in
  let acc :=
    if negb (acc_has key acc) then
      let resultItem :=
        {| own := obj_set "count" (Plain (JNum num_zero))
                    (obj_set (yAxis config) (Plain (JNum num_zero))
                       (obj_set (xAxis config) (obj_get (xAxis config) item) []));
           proto := ProtoObject |} in
      let resultItem :=
        match groupBy_field config with
        | Some g => obj_put g groupByValue resultItem
        | None => resultItem
        end in
      obj_set key resultItem acc
    else acc in
  match entry_add key (yAxis config) (obj_get (yAxis config) item) acc with
  | Some acc => entry_add key "count" (JNum num_one) acc
  | None => None
  end.

(** The reducer of the pie branch. *)
Definition pie_step (config : ChartConfig) (acc : list (string * Obj)) (item : Obj)
  : option (list (string * Obj)) :=
  let key := obj_get (xAxis config) item in
  let acc :=
    if negb (acc_has (value_toString key) acc)
    then obj_set (value_toString key)
                 {| own := [("name", key); ("value", Plain (JNum num_zero))];
                    proto := ProtoObject |}
                 acc
    else acc in
  entry_add (value_toString key) "value" (obj_get (yAxis config) item) acc.

Definition processDataForChart (data : JSValue) (config : ChartConfig)
  : option (list Obj) :=
  match processed_rows config data with
  | Some processed =>
      if truthy_opt (groupBy config) then
        option_map Object_values (for_each (group_step config) processed [])
      else if ChartType_eqb (chartType config) Pie then
        option_map Object_values (for_each (pie_step config) processed [])
      else Some processed
  | None => None
  end.
End Process.

(** ** A runtime on the integers

    An implementation of the two interfaces in which the numbers are the
    integers and NaN.  [Number] reads optional white space around an
    optionally signed decimal integer (the empty string is 0) and
    [Date.parse] reads the date-only forms YYYY, YYYY-MM and YYYY-MM-DD of
    the ECMAScript date-time string format; on these inputs they agree
    with ECMAScript, on every other input they answer NaN.  It is used to
    run the code on concrete data. *)

Module IntRuntime.

Definition to_string (n : option Z) : string :=
  match n with
  | None => "NaN"
  | Some z => NilZero.string_of_int (Z.to_int z)
  end.

Definition is_space (c : ascii) : bool :=
  let n := nat_of_ascii c in
  (n =? 32)%nat || ((9 <=? n)%nat && (n <=? 13)%nat).

Fixpoint drop_spaces (cs : list ascii) : list ascii :=
  match cs with
  | c :: cs' => if is_space c then drop_spaces cs' else cs
  | [] => []
  end.

Definition trim (cs : list ascii) : list ascii :=
  rev (drop_spaces (rev (drop_spaces cs))).

Definition unsigned_digits (cs : list ascii) : option Z :=
  match cs with
  | [] => None
  | _ => option_map Z.of_N (digits_value 0%N cs)
  end.

Definition of_string (s : string) : option Z :=
  match trim (list_ascii_of_string s) with
  | [] => Some 0%Z
  | c :: cs =>
      if Ascii.eqb c "-" then option_map Z.opp (unsigned_digits cs)
      else if Ascii.eqb c "+" then unsigned_digits cs
      else unsigned_digits (c :: cs)
  end.

(** Days from 1970-01-01 to the civil date [y]-[m]-[d]. *)
Definition days_from_civil (y m d : Z) : Z :=
  let y' := (if m <=? 2 then y - 1 else y)%Z in
  let era := (y' / 400)%Z in
  let yoe := (y' - era * 400)%Z in
  let doy := ((153 * (if m >? 2 then m - 3 else m + 9) + 2) / 5 + d - 1)%Z in
  let doe := (yoe * 365 + yoe / 4 - yoe / 100 + doy)%Z in
  (era * 146097 + doe - 719468)%Z.

Definition is_leap (y : Z) : bool :=
  ((y mod 4 =? 0) && (negb (y mod 100 =? 0) || (y mod 400 =? 0)))%Z.

Definition days_in_month (y m : Z) : Z :=
  if (m =? 2)%Z then (if is_leap y then 29 else 28)%Z
  else if ((m =? 4) || (m =? 6) || (m =? 9) || (m =? 11))%Z then 30%Z
  else 31%Z.

Definition civil_ms (y m d : Z) : option Z :=
  if ((1 <=? m) && (m <=? 12) && (1 <=? d) && (d <=? days_in_month y m))%Z
  then Some (days_from_civil y m d * 86400000)%Z
  else None.

(** The text between the separators [sep]. *)
Fixpoint split_on (sep : ascii) (cs : list ascii) : list (list ascii) :=
  match cs with
  | [] => [[]]
  | c :: cs' =>
      if Ascii.eqb c sep then [] :: split_on sep cs'
      else match split_on sep cs' with
           | part :: parts => (c :: part) :: parts
           | [] => [[c]]
           end
  end.

(** A field of exactly [width] digits. *)
Definition digits_field (width : nat) (cs : list ascii) : option Z :=
  if (List.length cs =? width)%nat
  then option_map Z.of_N (digits_value 0%N cs)
  else None.

Definition date_parse (s : string) : option Z :=
  match split_on "-" (list_ascii_of_string s) with
  | [y] =>
      match digits_field 4 y with
      | Some y => civil_ms y 1 1
      | None => None
      end
  | [y; m] =>
      match digits_field 4 y, digits_field 2 m with
      | Some y, Some m => civil_ms y m 1
      | _, _ => None
      end
  | [y; m; d] =>
      match digits_field 4 y, digits_field 2 m, digits_field 2 d with
      | Some y, Some m, Some d => civil_ms y m d
      | _, _, _ => None
      end
  | _ => None
  end.

#[export] Instance number : JSNumber := {|
  num := option Z;
  num_zero := Some 0%Z;
  num_one := Some 1%Z;
  num_nan := None;
  num_add := fun a b =>
    match a, b with Some x, Some y => Some (x + y)%Z | _, _ => None end;
  num_isNaN := fun a => match a with None => true | Some _ => false end;
  num_toString := to_string;
  Number_of_string := of_string;
  Date_parse := date_parse
|}.

Definition dquote : ascii := ascii_of_nat 34.
Definition backslash : ascii := ascii_of_nat 92.

Definition quote (s : string) : string :=
  let escape c :=
    if Ascii.eqb c dquote || Ascii.eqb c backslash then [backslash; c] else [c] in
  String dquote (string_of_list_ascii (flat_map escape (list_ascii_of_string s)))
  ++ String dquote EmptyString.

(** [JSON.stringify] on values free of control characters. *)
Fixpoint stringify (v : JSValue) : string :=
  match v with
  | JUndefined | JNull => "null"
  | JBool true => "true"
  | JBool false => "false"
  | JNum None => "null"
  | JNum (Some z) => to_string (Some z)
  | JStr s => quote s
  | JArr elems =>
      "[" ++ (fix join (es : list JSValue) : string :=
                match es with
                | [] => EmptyString
                | e :: rest =>
                    (stringify e
                     ++ match rest with [] => EmptyString | _ => "," ++ join rest end)%string
                end) elems ++ "]"
  | JObj props =>
      "{" ++ (fix join (first : bool) (ps : list (string * JSValue)) : string :=
                match ps with
                | [] => EmptyString
                | (k, JUndefined) :: rest => join first rest
                | (k, e) :: rest =>
                    ((if first then EmptyString else ",") ++ quote k ++ ":"
                     ++ stringify e ++ join false rest)%string
                end) true props ++ "}"
  end.

(** The text of a built-in function, in the form V8 prints it; the
    method [constructor] is the function [Object]. *)
Definition source_of (name : string) : string :=
  "function " ++ (if String.eqb name "constructor" then "Object" else name)
  ++ "() { [native code] }".

(** Reading through a record that serves as prototype; the members of
    arrays and functions are left out ([undefined]). *)
Definition member (v : Value) (k : string) : Value :=
  match v with
  | Plain (JObj props) =>
      match obj_lookup k props with
      | Some e => Plain e
      | None =>
          if String.eqb k "__proto__" then ObjectPrototype
          else if existsb (String.eqb k) Object_prototype_methods then Builtin k
          else JUndefined
      end
  | _ => JUndefined
  end.

#[export] Instance host : JSHost := {|
  JSON_stringify := stringify;
  localeCompare := String.compare;
  function_source := source_of;
  member_of := member
|}.

End IntRuntime.

(** ** The API-history mutation: [saveApiRequest] *)

Module ApiHistory.

Inductive Method : Type := GET | POST.

(** The validated arguments of the mutation. *)
Record Args : Type := {
  arg_name : string;
  arg_url : string;
  arg_method : Method;
  arg_headers : list (string * string);
  arg_body : option string
}.

(** A document of the [apiHistory] table. *)
Record Doc : Type := {
  userId : string;
  name : string;
  url : string;
  method : Method;
  headers : list (string * string);
  body : option string;
  createdAt : Z
}.

(** The table, oldest document first; a document's id is its position. *)
Definition Table : Type := list Doc.
Definition Id : Type := nat.

(** What the handler reads from its context: the user [getAuthUserId]
    resolves to ([None] for [null]) and the clock [Date.now()]. *)
Record Ctx : Type := {
  authUserId : option string;
  now : Z
}.

(** A handler either throws [Error(msg)] or returns, and leaves a table. *)
Definition Handler (A : Type) : Type := Table -> (string + A) * Table.

Definition ret {A : Type} (a : A) : Handler A := fun db => (inr a, db).

Definition bind {A B : Type} (m : Handler A) (k : A -> Handler B) : Handler B :=
  fun db =>
    match m db with
    | (inl msg, db') => (inl msg, db')
    | (inr a, db') => k a db'
    end.

Definition throw {A : Type} (msg : string) : Handler A := fun db => (inl msg, db).

Notation "x <- m ;; k" := (bind m (fun x => k))
  (at level 61, m at next level, right associativity).

(** [ctx.db.insert("apiHistory", doc)] *)
Definition db_insert (doc : Doc) : Handler Id :=
  fun db => (inr (List.length db), db ++ [doc]).

(** [getAuthUserId(ctx)] *)
Definition getAuthUserId (ctx : Ctx) : Handler (option string) :=
  ret (authUserId ctx).

Definition saveApiRequest (ctx : Ctx) (args : Args) : Handler Id :=
  userId <- getAuthUserId ctx ;;
  match userId with
  | Some uid =>
      if negb (truthy_string uid) then throw "Unauthorized"
      else
        db_insert {| userId := uid;
                     name := arg_name args;
                     url := arg_url args;
                     method := arg_method args;
                     headers := arg_headers args;
                     body := arg_body args;
                     createdAt := now ctx |}
  | None => throw "Unauthorized"
  end.

End ApiHistory.

(** ** The specification's wording, for comparison with the code *)

Section Wording.
Context {N : JSNumber} {H : JSHost}.

Definition has_type (t : FieldType) (fields : list FieldInfo) : bool :=
  existsb (fun f => FieldType_eqb (type f) t) fields.

Definition first_of (t : FieldType) (fields : list FieldInfo) : option FieldInfo :=
  find (fun f => FieldType_eqb (type f) t) fields.

(** "line when a date field exists, otherwise bar if numeric fields
    exist, else table" *)
Definition spec_chart_type (fields : list FieldInfo) : ChartType :=
  if has_type FDate fields then Line
  else if has_type FNumber fields then Bar
  else Table.

(** "numeric-string coercion attempted before falling back to date-regex
    matching, then string" *)
Definition spec_string_type (s : string) : FieldType :=
  if negb (num_isNaN (Number_of_string s)) then FNumber
  else if dateRegex_test s then FDate
  else FString.

(** An array occurring in a value "at any depth". *)
Inductive occurs_in : JSValue -> JSValue -> Prop :=
| occurs_here : forall v, occurs_in v v
| occurs_elem : forall w e elems,
    In e elems -> occurs_in w e -> occurs_in w (JArr elems)
| occurs_prop : forall w k e props,
    In (k, e) props -> occurs_in w e -> occurs_in w (JObj props).

(** [reaches v keys w]: following the object keys [keys] from [v] leads
    to [w]. *)
Inductive reaches : JSValue -> list string -> JSValue -> Prop :=
| reaches_nil : forall v, reaches v [] v
| reaches_cons : forall props k e keys w,
    In (k, e) props -> reaches e keys w -> reaches (JObj props) (k :: keys) w.

(** The path the code has built after following [keys] from [prefix]. *)
Definition path_after (prefix : string) (keys : list string) : string :=
  fold_left extend_path keys prefix.

(** "keyed by its dotted path from the root" *)
Definition dotted_path (keys : list string) : string :=
  match keys with
  | [] => "root"
  | _ => String.concat "." keys
  end.

(** A value that is neither an array nor another object. *)
Definition primitive (v : Value) : bool :=
  match v with
  | Plain (JArr _) | Plain (JObj _) | Builtin _ | ObjectPrototype => false
  | _ => true
  end.

(** What [flattenData] stores under a key. *)
Definition flat (kv : string * Value) : Prop := primitive (snd kv) = true.

(** The prototype is [Object.prototype] or [null]. *)
Definition plain_proto (o : Obj) : Prop :=
  match proto o with ProtoOther _ => False | _ => True end.

(** What [flattenData] returns: primitives under its keys, and
    [Object.prototype] or [null] as prototype. *)
Definition tidy (o : Obj) : Prop := Forall flat (own o) /\ plain_proto o.

(** The record has a property that hides the inherited [hasOwnProperty],
    or a record [flattenData] descends into has one: a record that is a
    property value of a record or an element of the array flattened. *)
Inductive hides_hasOwnProperty : JSValue -> Prop :=
| hides_here : forall props,
    In "hasOwnProperty" (map fst props) -> hides_hasOwnProperty (JObj props)
| hides_prop : forall props k inner,
    In (k, JObj inner) props -> hides_hasOwnProperty (JObj inner) ->
    hides_hasOwnProperty (JObj props)
| hides_elem : forall elems inner,
    In (JObj inner) elems -> hides_hasOwnProperty (JObj inner) ->
    hides_hasOwnProperty (JArr elems).

(** Every record in the value has distinct keys, as [JSON.parse] and
    object literals give. *)
#[local] Unset Elimination Schemes.
Inductive distinct_keys : JSValue -> Prop :=
| distinct_record : forall props,
    NoDup (map fst props) ->
    Forall (fun kv => distinct_keys (snd kv)) props ->
    distinct_keys (JObj props)
| distinct_array : forall elems,
    Forall distinct_keys elems -> distinct_keys (JArr elems)
| distinct_primitive : forall v,
    primitive (Plain v) = true -> distinct_keys v.
#[local] Set Elimination Schemes.

(** A dotted key, and an object whose keys are all dotted. *)
Definition contains_dot (s : string) : bool :=
  existsb (Ascii.eqb ".") (list_ascii_of_string s).

(** A key with an underscore, as the keys of the group-by reducer are. *)
Definition contains_underscore (s : string) : bool :=
  existsb (Ascii.eqb "_") (list_ascii_of_string s).

Definition dotted_keys (o : Obj) : Prop :=
  Forall (fun kv => contains_dot (fst kv) = true) (own o).

(** The flattenings of the sampled records. *)
Definition flattenings (sampleData : list JSValue) : option (list Obj) :=
  map_all (fun item => flattenData item EmptyString) sampleData.

(** A key of the sample: an own key of the flattening of a sampled
    object. *)
Definition sample_key (sampleData : list JSValue) (key : string) : Prop :=
  exists item flattened,
    In item sampleData /\ is_record item = true
    /\ flattenData item EmptyString = Some flattened
    /\ In key (Object_keys (own flattened)).

(** The sampled values of a key that are neither null nor undefined. *)
Definition samples (flats : list Obj) (key : string) : list Value :=
  filter defined (map (obj_get key) flats).

(** The field a key gets when it has such a value. *)
Definition push_sampled (flats : list Obj) (fields : list FieldInfo)
    (key : string) : list FieldInfo :=
  if (0 <? List.length (samples flats key))%nat
  then fields ++ [ {| name := key;
                      type := detectFieldType (samples flats key);
                      sampleValue := nth 0 (samples flats key) (Plain JUndefined) |} ]
  else fields.

(** The order of two fields by their names. *)
Definition name_le (f g : FieldInfo) : Prop :=
  localeCompare (name f) (name g) <> Gt.

(** An object that is not an array: what [flattenData] descends into. *)
Definition nested_object (v : JSValue) : bool :=
  match v with JObj _ => true | _ => false end.

(** What [flattenData] stores for a value that is not such an object. *)
Definition stored_value (v : JSValue) : Value :=
  if Array_isArray v then JStr (JSON_stringify v) else v.

(** The prototype of the flattening after a property [__proto__] with
    the value [v], which is not a record: the setter removes the
    prototype for [null] and ignores any other such value. *)
Definition proto_after (v : JSValue) : Proto :=
  match v with JNull => ProtoNull | _ => ProtoObject end.

(** A Y value the chart can use: a number, or a string [Number] accepts. *)
Definition usable_y (v : Value) : bool :=
  match v with
  | Plain (JNum _) => true
  | Plain (JStr s) => negb (num_isNaN (Number_of_string s))
  | _ => false
  end.

(** *** Aggregation, as a specification

    A reducer that files each row under a key: the first row of a key
    creates the entry [init row], and every row of the key (the first
    included) then updates the entry with [upd row]; the rows of a key
    that names an inherited member are not filed.  [row_update] is the
    update of the entry of a key, if there is one. *)
Definition row_update (key : string) (g : Obj -> Obj) (acc : list (string * Obj))
  : list (string * Obj) :=
  match obj_lookup key acc with
  | Some row => obj_replace key (g row) acc
  | None => acc
  end.

Definition keyed_step (key : Obj -> string) (init : Obj -> Obj)
    (upd : Obj -> Obj -> Obj) (acc : list (string * Obj)) (item : Obj)
  : list (string * Obj) :=
  let acc :=
    if negb (acc_has (key item) acc) then obj_set (key item) (init item) acc
    else acc in
  row_update (key item) (upd item) acc.

(** The entry of key [k] after the rows [rows], starting from [entry]. *)
Definition entry_after (key : Obj -> string) (init : Obj -> Obj)
    (upd : Obj -> Obj -> Obj) (k : string) (rows : list Obj)
    (entry : option Obj) : option Obj :=
  fold_left
    (fun entry item =>
       if String.eqb k (key item)
       then match entry with
            | Some e => Some (upd item e)
            | None => if inherits_member k then None
                      else Some (upd item (init item))
            end
       else entry)
    rows entry.

(** The number a kept row has as Y value. *)
Definition y_of (config : ChartConfig) (row : Obj) : num :=
  match obj_get (yAxis config) row with Plain (JNum n) => n | _ => num_nan end.

(** The sum the code computes: 0, then each Y value added in row order. *)
Definition sum_y (config : ChartConfig) (rows : list Obj) : num :=
  fold_left (fun total row => num_add total (y_of config row)) rows num_zero.

(** The count the code computes: 0, then 1 added per row. *)
Definition count_of (rows : list Obj) : num :=
  fold_left (fun total _ => num_add total num_one) rows num_zero.

(** The key of a row in pie mode and in group-by mode. *)
Definition pie_key (config : ChartConfig) (row : Obj) : string :=
  value_toString (obj_get (xAxis config) row).

Definition group_value (config : ChartConfig) (row : Obj) : Value :=
  match groupBy_field config with
  | Some g => obj_get g row
  | None => Plain (JStr EmptyString)
  end.

Definition group_key (config : ChartConfig) (row : Obj) : string :=
  (value_toString (obj_get (xAxis config) row) ++ "_"
   ++ value_toString (group_value config row))%string.

(** The entry the pie reducer creates, and its update. *)
Definition pie_entry (x0 : Value) (total : num) : Obj :=
  {| own := [("name", x0); ("value", Plain (JNum total))]; proto := ProtoObject |}.

Definition pie_init (config : ChartConfig) (item : Obj) : Obj :=
  pie_entry (obj_get (xAxis config) item) num_zero.

Definition pie_upd (config : ChartConfig) (item : Obj) : Obj -> Obj :=
  add_to "value" (obj_get (yAxis config) item).

(** The entry the group-by reducer creates, and its update. *)
Definition group_init (config : ChartConfig) (item : Obj) : Obj :=
  let resultItem :=
    {| own := obj_set "count" (Plain (JNum num_zero))
                (obj_set (yAxis config) (Plain (JNum num_zero))
                   (obj_set (xAxis config) (obj_get (xAxis config) item) []));
       proto := ProtoObject |} in
  match groupBy_field config with
  | Some g => obj_put g (group_value config item) resultItem
  | None => resultItem
  end.

Definition group_upd (config : ChartConfig) (item : Obj) (row : Obj) : Obj :=
  add_to "count" (JNum num_one)
    (add_to (yAxis config) (obj_get (yAxis config) item) row).

(** What an entry of the group-by result holds, as own properties: its X
    value, its group value, the sum and the count. *)
Definition group_entry (config : ChartConfig) (g : string)
    (x0 gv : Value) (total count : num) (entry : Obj) : Prop :=
  obj_lookup (xAxis config) (own entry) = Some x0
  /\ obj_lookup g (own entry) = Some gv
  /\ obj_lookup (yAxis config) (own entry) = Some (Plain (JNum total))
  /\ obj_lookup "count" (own entry) = Some (Plain (JNum count)).

(** The rows filed under [k]. *)
Definition rows_of_key (key : Obj -> string) (k : string) (rows : list Obj)
  : list Obj :=
  filter (fun row => String.eqb k (key row)) rows.
End Wording.

(** ** The dashboard builder around the analysis

    The component's state updates ([useEffect]) and the option lists of its
    form, as functions of the state they read. *)

(** The hints of [generateSuggestions], each standing for its message:
    "Try a line chart for time-series data", "Consider grouping by a
    category field", "Line chart might be better for large datasets" and
    "Pie chart works well for categorical data". *)
Inductive Suggestion : Type :=
| TryLineChart
| ConsiderGrouping
| LineForLargeData
| PieForCategories.

(** What an effect does: nothing, a throw, or the state it sets. *)
Inductive Effect (A : Type) : Type :=
| Skipped
| Threw
| Updated (a : A).

Arguments Skipped {A}.
Arguments Threw {A}.
Arguments Updated {A} a.

Section Builder.
Context {N : JSNumber} {H : JSHost}.

(** [fields.filter(f => f.type === type)] on the component's fields. *)
Definition getFieldsByType (fields : list FieldInfo) (t : FieldType)
  : list FieldInfo :=
  filter (fun f => FieldType_eqb (type f) t) fields.

(** [processedData] is the component's state when the hints are made. *)
Definition generateSuggestions (processedData : list Obj)
    (fields : list FieldInfo) (config : ChartConfig) : list Suggestion :=
  let numberFields := fields_of FNumber fields in
  let dateFields := fields_of FDate fields in
  let stringFields := fields_of FString fields in
  (if (0 <? List.length dateFields)%nat
      && negb (ChartType_eqb (chartType config) Line)
   then [TryLineChart] else [])
  ++ (if (0 <? List.length stringFields)%nat
         && (1 <? List.length numberFields)%nat
         && negb (truthy_opt (groupBy config))
      then [ConsiderGrouping] else [])
  ++ (if ChartType_eqb (chartType config) Bar
         && (10 <? List.length processedData)%nat
      then [LineForLargeData] else [])
  ++ (if (0 <? List.length stringFields)%nat
         && negb (ChartType_eqb (chartType config) Pie)
      then [PieForCategories] else []).

(** The values the X-axis, Y-axis and group-by selects offer; the first
    is the empty "Select field..." (or "None") entry. *)
Definition xAxis_options (fields : list FieldInfo) : list string :=
  EmptyString :: map name fields.

Definition yAxis_options (config : ChartConfig) (fields : list FieldInfo)
  : list string :=
  EmptyString ::
  (if ChartType_eqb (chartType config) Table
   then map name fields
   else map name (getFieldsByType fields FNumber)).

Definition groupBy_options (fields : list FieldInfo) : list string :=
  EmptyString :: map name (getFieldsByType fields FString).

(** [arrays[0]?.path || "root"] *)
Definition initial_arrayPath (arrays : list (string * list JSValue)) : string :=
  match arrays with
  | first :: _ => path_or_root (fst first)
  | [] => "root"
  end.

(** [arrayOptions.find(opt => opt.path === arrayPath)?.arr || []] *)
Definition selected_array (arrayOptions : list (string * list JSValue))
    (arrayPath : string) : list JSValue :=
  match find (fun opt => String.eqb (fst opt) arrayPath) arrayOptions with
  | Some opt => snd opt
  | None => []
  end.

(** The effect on [arrayPath] and [arrayOptions]: the fields and the chart
    configuration it sets ([chartConfig] stays when nothing is
    suggested); it throws when [analyzeFields] does. *)
Definition on_array_selected (arrayOptions : list (string * list JSValue))
    (arrayPath : string) (chartConfig : ChartConfig)
  : Effect (list FieldInfo * ChartConfig) :=
  let arr := selected_array arrayOptions arrayPath in
  match analyzeFields (JArr arr) with
  | Some detectedFields =>
      Updated (detectedFields,
               match suggestChartConfig detectedFields with
               | Some autoConfig => autoConfig
               | None => chartConfig
               end)
  | None => Threw
  end.

(** The effect on [chartConfig]: the processed data and the hints it
    sets; it sets nothing when an axis or the array is empty, and throws
    when [processDataForChart] does. *)
Definition on_config_changed (arrayOptions : list (string * list JSValue))
    (arrayPath : string) (chartConfig : ChartConfig) (fields : list FieldInfo)
    (processedData : list Obj) : Effect (list Obj * list Suggestion) :=
  let arr := selected_array arrayOptions arrayPath in
  if truthy_string (xAxis chartConfig) && truthy_string (yAxis chartConfig)
     && (0 <? List.length arr)%nat
  then match processDataForChart (JArr arr) chartConfig with
       | Some processed =>
           Updated (processed, generateSuggestions processedData fields chartConfig)
       | None => Threw
       end
  else Skipped.
End Builder.

(** ** The API-history module with stable document ids

    [deleteApiRequest], [getUserApiHistory] and [clearAll] address
    documents by their [_id], which must survive the removal of older
    documents; the table therefore pairs each document with the id the
    database gave it and remembers the next id to give. *)

Module ApiHistoryDb.
Import ApiHistory.

(** A stored document: its [_id] and its fields. *)
Record Stored : Type := {
  _id : Id;
  fields : Doc
}.

(** The table in creation order ([_creationTime] ascending) and the id of
    the next document. *)
Record Db : Type := {
  rows : list Stored;
  nextId : Id
}.

(** What a handler can fail with: [throw new Error(msg)] of the code, or
    an error of the database itself. *)
Inductive Failure : Type :=
| Error (message : string)
| DatabaseError.

Definition Handler (A : Type) : Type := Db -> (Failure + A) * Db.

Definition ret {A : Type} (a : A) : Handler A := fun db => (inr a, db).

Definition bind {A B : Type} (m : Handler A) (k : A -> Handler B) : Handler B :=
  fun db =>
    match m db with
    | (inl e, db') => (inl e, db')
    | (inr a, db') => k a db'
    end.

Definition throw {A : Type} (msg : string) : Handler A :=
  fun db => (inl (Error msg), db).

(** [try { body } catch (error) { handler }] *)
Definition try_catch {A : Type} (body : Handler A) (handler : Failure -> Handler A)
  : Handler A :=
  fun db =>
    match body db with
    | (inl e, db') => handler e db'
    | (inr a, db') => (inr a, db')
    end.

Notation "x <~ m ;; k" := (bind m (fun x => k))
  (at level 61, m at next level, right associativity).

Definition has_id (id : Id) (r : Stored) : bool := (_id r =? id)%nat.

Definition owned_by (uid : string) (r : Stored) : bool :=
  String.eqb (userId (fields r)) uid.

(** [ctx.db.insert("apiHistory", doc)] *)
Definition db_insert (doc : Doc) : Handler Id :=
  fun db =>
    (inr (nextId db),
     {| rows := rows db ++ [ {| _id := nextId db; fields := doc |} ];
        nextId := S (nextId db) |}).

(** [ctx.db.get(id)]: the document, or [None] for [null]. *)
Definition db_get (id : Id) : Handler (option Stored) :=
  fun db => (inr (find (has_id id) (rows db)), db).

(** [ctx.db.delete(id)]: fails on a document that does not exist. *)
Definition db_delete (id : Id) : Handler unit :=
  fun db =>
    if existsb (has_id id) (rows db)
    then (inr tt, {| rows := filter (fun r => negb (has_id id r)) (rows db);
                     nextId := nextId db |})
    else (inl DatabaseError, db).

(** [ctx.db.query("apiHistory").withIndex("by_user_id",
    q => q.eq("userId", userId))], oldest first. *)
Definition by_user_id (uid : string) : Handler (list Stored) :=
  fun db => (inr (filter (owned_by uid) (rows db)), db).

(** [await Promise.all(promises)] on database calls issued in order. *)
Fixpoint Promise_all (calls : list (Handler unit)) : Handler unit :=
  match calls with
  | [] => ret tt
  | call :: rest => _ <~ call ;; Promise_all rest
  end.

(** [getAuthUserId(ctx)] *)
Definition getAuthUserId (ctx : Ctx) : Handler (option string) :=
  ret (authUserId ctx).

Definition saveApiRequest (ctx : Ctx) (args : Args) : Handler Id :=
  userId <~ getAuthUserId ctx ;;
  match userId with
  | Some uid =>
      if negb (truthy_string uid) then throw "Unauthorized"
      else
        db_insert {| userId := uid;
                     name := arg_name args;
                     url := arg_url args;
                     method := arg_method args;
                     headers := arg_headers args;
                     body := arg_body args;
                     createdAt := now ctx |}
  | None => throw "Unauthorized"
  end.

Definition deleteApiRequest (ctx : Ctx) (id : Id) : Handler unit :=
  userId <~ getAuthUserId ctx ;;
  match userId with
  | Some uid =>
      if negb (truthy_string uid) then throw "Unauthorized"
      else
        request <~ db_get id ;;
        match request with
        | None => throw "Request not found"
        | Some request =>
            if negb (String.eqb (ApiHistory.userId (fields request)) uid)
            then throw "Unauthorized"
            else db_delete id
        end
  | None => throw "Unauthorized"
  end.

Definition getUserApiHistory (ctx : Ctx) : Handler (list Stored) :=
  try_catch
    (userId <~ getAuthUserId ctx ;;
     match userId with
     | Some uid =>
         if negb (truthy_string uid) then ret []
         else
           ascending <~ by_user_id uid ;;
           ret (rev ascending)            (* [.order("desc").collect()] *)
     | None => ret []
     end)
    (fun _ => ret []).

Definition clearAll (ctx : Ctx) : Handler unit :=
  userId <~ getAuthUserId ctx ;;
  match userId with
  | Some uid =>
      if negb (truthy_string uid) then throw "Unauthorized"
      else
        userRequests <~ by_user_id uid ;;
        Promise_all (map (fun request => db_delete (_id request)) userRequests)
  | None => throw "Unauthorized"
  end.

(** The ids the database has given are distinct and below the next one. *)
Definition well_formed (db : Db) : Prop :=
  NoDup (map _id (rows db)) /\ Forall (fun r => (_id r < nextId db)%nat) (rows db).

(** The caller of a handler, when authenticated. *)
Definition caller (ctx : Ctx) : option string :=
  match authUserId ctx with
  | Some uid => if truthy_string uid then Some uid else None
  | None => None
  end.

(** The document [saveApiRequest] builds for the caller [uid]. *)
Definition new_doc (ctx : Ctx) (args : Args) (uid : string) : Doc :=
  {| userId := uid;
     name := arg_name args;
     url := arg_url args;
     method := arg_method args;
     headers := arg_headers args;
     body := arg_body args;
     createdAt := now ctx |}.

(** The table without the document [id]. *)
Definition without (id : Id) (db : Db) : Db :=
  {| rows := filter (fun r => negb (has_id id r)) (rows db); nextId := nextId db |}.

(** The document's id is one of [ids]. *)
Definition listed (ids : list Id) (r : Stored) : bool :=
  existsb (Nat.eqb (_id r)) ids.

(** The documents of [uid], and those of everybody else. *)
Definition documents_of (uid : string) (db : Db) : list Stored :=
  filter (owned_by uid) (rows db).

Definition documents_of_others (uid : string) (db : Db) : list Stored :=
  filter (fun r => negb (owned_by uid r)) (rows db).

End ApiHistoryDb.

(** ** The API tester's form: [src/components/ApiTester.tsx]

    The handlers around [saveApiRequest].  A character stands for a code
    unit below 256, of which [trim] removes tab, line feed, vertical tab,
    form feed, carriage return, space and no-break space. *)

Module ApiTester.

Definition is_whitespace (c : ascii) : bool :=
  let n := nat_of_ascii c in
  (n =? 32)%nat || ((9 <=? n)%nat && (n <=? 13)%nat) || (n =? 160)%nat.

Fixpoint trim_start (cs : list ascii) : list ascii :=
  match cs with
  | c :: rest => if is_whitespace c then trim_start rest else cs
  | [] => []
  end.

(** [s.trim()] *)
Definition trim (s : string) : string :=
  string_of_list_ascii
    (rev (trim_start (rev (trim_start (list_ascii_of_string s))))).

(** [s.includes(part)] *)
Definition includes (s part : string) : bool :=
  matches_somewhere (map Lit (list_ascii_of_string part)) (list_ascii_of_string s).

Record Header : Type := {
  key : string;
  value : string
}.

Inductive Tab : Type := RequestTab | ResponseTab | HistoryTab.

(** The state of the form the handlers read and set. *)
Record Form : Type := {
  url : string;
  method : ApiHistory.Method;
  headers : list Header;
  body : string;
  requestName : string;
  showSaveDialog : bool;
  activeTab : Tab
}.

Definition empty_header : Header := {| key := EmptyString; value := EmptyString |}.

Definition set_headers (hs : list Header) (form : Form) : Form :=
  {| url := url form; method := method form; headers := hs; body := body form;
     requestName := requestName form; showSaveDialog := showSaveDialog form;
     activeTab := activeTab form |}.

(** [setHeaders([...headers, { key: "", value: "" }])] *)
Definition addHeader (form : Form) : Form :=
  set_headers (headers form ++ [empty_header]) form.

Inductive HeaderField : Type := KeyField | ValueField.

Definition set_field (field : HeaderField) (v : string) (h : Header) : Header :=
  match field with
  | KeyField => {| key := v; value := value h |}
  | ValueField => {| key := key h; value := v |}
  end.

Fixpoint set_nth (index : nat) (f : Header -> Header) (hs : list Header)
  {struct hs} : option (list Header) :=
  match hs, index with
  | [], _ => None
  | h :: rest, O => Some (f h :: rest)
  | h :: rest, S i => option_map (cons h) (set_nth i f rest)
  end.

(** [newHeaders[index][field] = value; setHeaders(newHeaders)]; [None]
    when [newHeaders[index]] is undefined and the assignment throws. *)
Definition updateHeader (index : nat) (field : HeaderField) (v : string)
    (form : Form) : option Form :=
  option_map (fun hs => set_headers hs form)
             (set_nth index (set_field field v) (headers form)).

(** [headers.filter((_, i) => i !== index)] *)
Fixpoint filter_index (i index : nat) (hs : list Header) : list Header :=
  match hs with
  | [] => []
  | h :: rest =>
      if negb (i =? index)%nat then h :: filter_index (S i) index rest
      else filter_index (S i) index rest
  end.

Definition removeHeader (index : nat) (form : Form) : Form :=
  set_headers (filter_index 0 index (headers form)) form.

Definition is_valid (h : Header) : bool :=
  truthy_string (trim (key h)) && truthy_string (trim (value h)).

(** [headers.filter(h => h.key.trim() && h.value.trim())
            .reduce((acc, h) => ({ ...acc, [h.key]: h.value }), {})] *)
Definition validHeaders (hs : list Header) : list (string * string) :=
  fold_left (fun acc h => obj_set (key h) (value h) acc) (filter is_valid hs) [].

(** A saved request as [handleLoadHistory] receives it. *)
Record History : Type := {
  history_url : string;
  history_method : ApiHistory.Method;
  history_headers : list (string * string);
  history_body : option string
}.

(** [Object.entries(history.headers).map(([key, value]) => ({ key, value }))] *)
Definition headersArray (record : list (string * string)) : list Header :=
  map (fun kv => {| key := fst kv; value := snd kv |}) record.

Definition handleLoadHistory (history : History) (form : Form) : Form :=
  let headersArray := headersArray (history_headers history) in
  {| url := history_url history;
     method := history_method history;
     headers := if (0 <? List.length headersArray)%nat
                then headersArray else [empty_header];
     body := match history_body history with
             | Some b => if truthy_string b then b else EmptyString
             | None => EmptyString
             end;
     requestName := requestName form;
     showSaveDialog := showSaveDialog form;
     activeTab := RequestTab |}.

(** What a call throws: an [Error] (a [TypeError] or not) with its message,
    or a value that is not an [Error]. *)
Inductive Thrown : Type :=
| ThrownError (isTypeError : bool) (message : string)
| ThrownOther.

Inductive Toast : Type :=
| toast_error (message : string)
| toast_success (message : string).

(** The [catch (error)] block of [handleSaveRequest]. *)
Definition save_failure (error : Thrown) : Toast :=
  match error with
  | ThrownError isTypeError message =>
      if isTypeError && includes message "URL"
      then toast_error "Please enter a valid URL"
      else toast_error (if truthy_string message then message
                        else "Failed to save request")
  | ThrownOther => toast_error "Failed to save request"
  end.

(** The arguments both [handleSaveRequest] and [handleSubmit] pass to
    [saveApiRequest]. *)
Definition save_args (form : Form) : ApiHistory.Args :=
  {| ApiHistory.arg_name := trim (requestName form);
     ApiHistory.arg_url := trim (url form);
     ApiHistory.arg_method := method form;
     ApiHistory.arg_headers := validHeaders (headers form);
     ApiHistory.arg_body :=
       match method form with
       | ApiHistory.POST => Some (body form)
       | ApiHistory.GET => None
       end |}.

Definition is_POST (m : ApiHistory.Method) : bool :=
  match m with ApiHistory.POST => true | ApiHistory.GET => false end.

(** What one run of [handleSaveRequest] does: the arguments it sent to the
    mutation, if it got that far, the toast it shows and the form it
    leaves. *)
Record SaveRun : Type := {
  sent : option ApiHistory.Args;
  toast : Toast;
  form_after : Form
}.

Section Handlers.
(** [new URL(s)]: the message of the [TypeError] it throws, if any. *)
Variable URL_error : string -> option string.
(** [JSON.parse(s)] returns. *)
Variable JSON_parses : string -> bool.
(** [await saveApiRequest(args)]: what it throws, if it does. *)
Variable saveApiRequest : ApiHistory.Args -> option Thrown.

Definition handleSaveRequest (form : Form) : SaveRun :=
  if negb (truthy_string (trim (requestName form))) then
    {| sent := None;
       toast := toast_error "Please enter a name for your request";
       form_after := form |}
  else if negb (truthy_string (trim (url form))) then
    {| sent := None;
       toast := toast_error "Please enter a valid URL";
       form_after := form |}
  else
    match URL_error (trim (url form)) with
    | Some message =>
        {| sent := None;
           toast := save_failure (ThrownError true message);
           form_after := form |}
    | None =>
        if is_POST (method form) && truthy_string (trim (body form))
           && negb (JSON_parses (body form))
        then {| sent := None;
                toast := toast_error "Invalid JSON in request body";
                form_after := form |}
        else
          match saveApiRequest (save_args form) with
          | Some error =>
              {| sent := Some (save_args form);
                 toast := save_failure error;
                 form_after := form |}
          | None =>
              {| sent := Some (save_args form);
                 toast := toast_success "Request saved successfully";
                 form_after :=
                   {| url := url form; method := method form;
                      headers := headers form; body := body form;
                      requestName := EmptyString;
                      showSaveDialog := false;
                      activeTab := activeTab form |} |}
          end
    end.
End Handlers.

(** The text does not start with white space. *)
Definition no_lead (cs : list ascii) : Prop :=
  match cs with
  | c :: _ => is_whitespace c = false
  | [] => True
  end.

(** A string [trim] leaves nothing of. *)
Definition blank (s : string) : bool := negb (truthy_string (trim s)).

End ApiTester.

(** ** Concrete data, on the integer runtime *)

Module Examples.
Import IntRuntime.

Definition int (z : Z) : JSValue := JNum (Some z).

Definition field (n : string) (t : FieldType) (v : JSValue) : FieldInfo :=
  {| name := n; type := t; sampleValue := v |}.

(** A row or an entry the code built from values of the data. *)
Definition row (props : list (string * JSValue)) : Obj :=
  {| own := map (fun kv => (fst kv, Plain (snd kv))) props; proto := ProtoObject |}.

(** A date column and a category column, no number. *)
Definition date_and_text : list FieldInfo :=
  [ field "day" FDate (JStr "2024-03-01"); field "city" FString (JStr "Oslo") ].

(** Date columns only. *)
Definition dates_only : list FieldInfo :=
  [ field "day" FDate (JStr "2024-03-01") ].

Definition date_number_text : list FieldInfo :=
  [ field "city" FString (JStr "Oslo");
    field "day" FDate (JStr "2024-03-01");
    field "sales" FNumber (int 12) ].

(** [[[1]]]: an array inside the root array. *)
Definition nested_arrays : JSValue := JArr [ JArr [int 1] ].

(** [{"data": {"items": [1, 2]}, "page": 3}] *)
Definition response : JSValue :=
  JObj [ ("data", JObj [ ("items", JArr [int 1; int 2]) ]); ("page", int 3) ].

(** An array under the empty key, and one below it. *)
Definition unnamed_key : JSValue :=
  JObj [ (EmptyString, JObj [ ("items", JArr [int 1]) ]) ].

(** [[{"id": 1, "tags": ["a"], "day": "2024-03"}, {"id": 2}]] *)
Definition records : list JSValue :=
  [ JObj [ ("id", int 1); ("tags", JArr [JStr "a"]); ("day", JStr "2024-03") ];
    JObj [ ("id", int 2) ] ].

Definition sale (x g : string) (y : JSValue) : JSValue :=
  JObj [ ("x", JStr x); ("g", JStr g); ("y", y) ].

Definition chart (t : ChartType) (g : option string) : ChartConfig :=
  {| chartType := t; xAxis := "x"; yAxis := "y"; groupBy := g; title := "My Chart" |}.

(** Two rows whose (X, group) pairs differ but whose keys coincide. *)
Definition colliding_sales : JSValue :=
  JArr [ sale "north_east" "coast" (int 1); sale "north" "east_coast" (int 2) ].

(** One X value under two groups. *)
Definition grouped_sales : JSValue :=
  JArr [ sale "north" "p" (int 1); sale "north" "q" (int 2) ].

(** Rows of which only the first and the last can be charted. *)
Definition mixed_sales : JSValue :=
  JArr [ sale "north" "p" (JStr "7");
         sale "south" "p" (JStr "n/a");
         JObj [ ("g", JStr "p"); ("y", int 4) ];
         sale "west" "q" (int 5) ].

(** [[{"constructor": "a", "y": 1}, {"y": 2}]]: the second record has no
    "constructor" of its own. *)
Definition builders : list JSValue :=
  [ JObj [ ("constructor", JStr "a"); ("y", int 1) ];
    JObj [ ("y", int 2) ] ].

(** [[{"y": 2}, {"constructor": 5, "y": 1}]]: the first record has no
    "constructor" of its own. *)
Definition late_constructor : list JSValue :=
  [ JObj [ ("y", int 2) ];
    JObj [ ("constructor", int 5); ("y", int 1) ] ].

(** The configuration [suggestChartConfig] makes for [builders]. *)
Definition by_constructor : ChartConfig :=
  {| chartType := Bar; xAxis := "constructor"; yAxis := "y"; groupBy := None;
     title := "y by constructor" |}.

(** [[{"hasOwnProperty": 1, "x": "north", "y": 2}]] *)
Definition shadowing : list JSValue :=
  [ JObj [ ("hasOwnProperty", int 1); ("x", JStr "north"); ("y", int 2) ] ].

(** A row whose key is "__defineGetter__", with the Y field "length". *)
Definition getter_sales : JSValue :=
  JArr [ JObj [ ("x", JStr "_"); ("g", JStr "defineGetter__"); ("length", int 3) ] ].

Definition by_length : ChartConfig :=
  {| chartType := Bar; xAxis := "x"; yAxis := "length"; groupBy := Some "g";
     title := "My Chart" |}.

(** X values that name members of [Object.prototype]. *)
Definition member_sales : JSValue :=
  JArr [ sale "toString" "p" (int 1); sale "north" "p" (int 2) ].

Definition anonymous : ApiHistory.Ctx :=
  {| ApiHistory.authUserId := None; ApiHistory.now := 1700000000000 |}.

Definition signed_in : ApiHistory.Ctx :=
  {| ApiHistory.authUserId := Some "user_1"; ApiHistory.now := 1700000000000 |}.

Definition request : ApiHistory.Args :=
  {| ApiHistory.arg_name := "ping";
     ApiHistory.arg_url := "https://example.org/ping";
     ApiHistory.arg_method := ApiHistory.GET;
     ApiHistory.arg_headers := [];
     ApiHistory.arg_body := None |}.
End Examples.

(** A table with two documents of "user_1" around one of "user_2". *)
Module StoreExamples.
Import ApiHistory ApiHistoryDb.

Definition doc_of (uid n : string) : Doc :=
  {| userId := uid; name := n; url := "https://example.org/" ++ n;
     method := GET; headers := []; body := None; createdAt := 1700000000000 |}.

Definition table : Db :=
  {| rows := [ {| _id := 0; fields := doc_of "user_1" "ping" |};
               {| _id := 1; fields := doc_of "user_2" "list" |};
               {| _id := 3; fields := doc_of "user_1" "status" |} ];
     nextId := 4 |}.
End StoreExamples.

(** More data: fields, records and a form. *)
Module MoreExamples.
Import IntRuntime Examples.

(** Two number columns and nothing else. *)
Definition numbers_only : list FieldInfo :=
  [ field "price" FNumber (int 3); field "sales" FNumber (int 12) ].

(** [[1, "a", null]] *)
Definition scalars : list JSValue := [ int 1; JStr "a"; JNull ].

(** [{"id": 1, "tags": ["a"]}] *)
Definition tagged : list (string * JSValue) :=
  [ ("id", int 1); ("tags", JArr [JStr "a"]) ].

(** [{"page": 3}] *)
Definition no_array : JSValue := JObj [ ("page", int 3) ].

Definition accept : ApiTester.Header :=
  {| ApiTester.key := "Accept"; ApiTester.value := "application/json" |}.

Definition token : ApiTester.Header :=
  {| ApiTester.key := "X-Token"; ApiTester.value := "abc" |}.

Definition form : ApiTester.Form :=
  {| ApiTester.url := " https://example.org/ping ";
     ApiTester.method := ApiHistory.GET;
     ApiTester.headers := [ accept; ApiTester.empty_header; token ];
     ApiTester.body := "{}";
     ApiTester.requestName := "ping ";
     ApiTester.showSaveDialog := true;
     ApiTester.activeTab := ApiTester.RequestTab |}.

Definition saved : ApiTester.History :=
  {| ApiTester.history_url := "https://example.org/ping";
     ApiTester.history_method := ApiHistory.GET;
     ApiTester.history_headers := ApiTester.validHeaders [ accept; token ];
     ApiTester.history_body := None |}.
End MoreExamples.

(** * Theorems *)

(** ** [suggestChartConfig] *)

Section SuggestFacts.
Context {N : JSNumber}.

Lemma filter_nonempty (t : FieldType) (fields : list FieldInfo) :
  (0 <? List.length (fields_of t fields))%nat = has_type t fields.
Proof.
  unfold fields_of, has_type.
  induction fields as [|f fields IH]; simpl; [reflexivity|].
  destruct (FieldType_eqb (type f) t); simpl; [reflexivity | exact IH].
Qed.

Lemma filter_empty (t : FieldType) (fields : list FieldInfo) :
  (List.length (fields_of t fields) =? 0)%nat = negb (has_type t fields).
Proof.
  rewrite <- filter_nonempty.
  destruct (List.length (fields_of t fields)); reflexivity.
Qed.

Lemma first_of_filter (t : FieldType) (fields : list FieldInfo) :
  nth_error (fields_of t fields) 0 = first_of t fields.
Proof.
  unfold fields_of, first_of.
  induction fields as [|f fields IH]; simpl; [reflexivity|].
  destruct (FieldType_eqb (type f) t); simpl; [reflexivity | exact IH].
Qed.

Lemma first_of_has (t : FieldType) (fields : list FieldInfo) (f : FieldInfo) :
  first_of t fields = Some f -> has_type t fields = true.
Proof.
  unfold first_of, has_type. intros Hf.
  apply find_some in Hf. apply existsb_exists. exists f. exact Hf.
Qed.

Lemma name_at_first (t : FieldType) (fields : list FieldInfo) (f : FieldInfo) :
  first_of t fields = Some f -> name_at (fields_of t fields) 0 = name f.
Proof.
  intros Hf. unfold name_at. rewrite first_of_filter, Hf. reflexivity.
Qed.

(** C1, as the code has it: no suggestion without a number or string
    field; otherwise "line" needs a date field and a number field, "bar"
    a number field and no date field, and "table" is the type when there
    is no number field. *)
Theorem suggestChartConfig_type (fields : list FieldInfo) :
  option_map chartType (suggestChartConfig fields) =
  if negb (has_type FNumber fields) && negb (has_type FString fields) then None
  else Some (if has_type FNumber fields
             then (if has_type FDate fields then Line else Bar)
             else Table).
Proof.
  unfold suggestChartConfig.
  rewrite !filter_empty, !filter_nonempty.
  destruct (has_type FNumber fields), (has_type FString fields),
           (has_type FDate fields); simpl; try reflexivity.
  all: destruct (1 <? List.length (fields_of FNumber fields))%nat; reflexivity.
Qed.

(** C7, as the code has it: with a date field and at least one number or
    string field, the X axis is the first date field; with a number
    field, the Y axis is the first number field. *)
Theorem suggestChartConfig_axes (fields : list FieldInfo) :
  (forall d, first_of FDate fields = Some d ->
             has_type FNumber fields || has_type FString fields = true ->
             exists cfg, suggestChartConfig fields = Some cfg
                         /\ xAxis cfg = name d)
  /\ (forall n, first_of FNumber fields = Some n ->
                exists cfg, suggestChartConfig fields = Some cfg
                            /\ yAxis cfg = name n).
Proof.
  split.
  - intros d Hd Hsome.
    pose proof (first_of_has _ _ _ Hd) as Hdate.
    pose proof (name_at_first _ _ _ Hd) as Hname.
    unfold suggestChartConfig.
    rewrite !filter_empty, !filter_nonempty, Hdate.
    destruct (has_type FNumber fields), (has_type FString fields);
      simpl in *; try discriminate;
      eexists; (split; [reflexivity | simpl; exact Hname]).
  - intros n Hn.
    pose proof (first_of_has _ _ _ Hn) as Hnum.
    pose proof (name_at_first _ _ _ Hn) as Hname.
    unfold suggestChartConfig.
    rewrite !filter_empty, !filter_nonempty, Hnum. simpl.
    destruct (has_type FDate fields), (has_type FString fields),
             (1 <? List.length (fields_of FNumber fields))%nat;
      eexists; (split; [reflexivity | simpl; exact Hname]).
Qed.
End SuggestFacts.

(** ** [detectFieldType] *)

Section DetectFacts.
Context {N : JSNumber} {H : JSHost}.


Lemma detectFieldType_string_eq (s : string) (rest : list Value) :
  detectFieldType (Plain (JStr s) :: rest) =
  if negb (num_isNaN (Number_of_string s)) then FNumber
  else if dateRegex_test s || negb (num_isNaN (Date_parse s)) then FDate
  else FString.
Proof. reflexivity. Qed.

(** C3, as the code has it: a string sample is a "number" exactly when
    [Number] accepts it; otherwise a "date" exactly when the date regex
    matches it or [Date.parse] accepts it; otherwise a "string". *)
Theorem detectFieldType_string (s : string) (rest : list Value) :
  (detectFieldType (Plain (JStr s) :: rest) = FNumber
   <-> num_isNaN (Number_of_string s) = false)
  /\ (detectFieldType (Plain (JStr s) :: rest) = FDate
      <-> num_isNaN (Number_of_string s) = true
          /\ (dateRegex_test s = true \/ num_isNaN (Date_parse s) = false))
  /\ (detectFieldType (Plain (JStr s) :: rest) = FString
      <-> num_isNaN (Number_of_string s) = true
          /\ dateRegex_test s = false /\ num_isNaN (Date_parse s) = true).
Proof.
  rewrite detectFieldType_string_eq.
  destruct (num_isNaN (Number_of_string s)), (dateRegex_test s),
           (num_isNaN (Date_parse s)); simpl;
    repeat split; intros; try discriminate; try reflexivity;
    intuition discriminate.
Qed.

Lemma detectFieldType_array (values : list Value) :
  detectFieldType values = FArray ->
  Array_isArray (nth 0 values (Plain JUndefined)) = true.
Proof.
  unfold detectFieldType.
  destruct (nth 0 values (Plain JUndefined)) as [[| |b|n|s|elems|props]|f|]; simpl;
    try discriminate; try reflexivity.
  destruct (negb (num_isNaN (Number_of_string s))); [discriminate|].
  destruct (dateRegex_test s || negb (num_isNaN (Date_parse s))); discriminate.
Qed.

Lemma detectFieldType_object (values : list Value) :
  detectFieldType values = FObject ->
  JSType_eqb (typeof (nth 0 values (Plain JUndefined))) TyObject = true.
Proof.
  unfold detectFieldType.
  destruct (nth 0 values (Plain JUndefined)) as [[| |b|n|s|elems|props]|f|]; simpl;
    try discriminate; try reflexivity.
  destruct (negb (num_isNaN (Number_of_string s))); [discriminate|].
  destruct (dateRegex_test s || negb (num_isNaN (Date_parse s))); discriminate.
Qed.
End DetectFacts.

(** ** [findArrays] *)

Section FindArraysFacts.
Context {N : JSNumber}.

Lemma findArrays_object (props : list (string * JSValue)) (prefix : string) :
  findArrays (JObj props) prefix =
  flat_map (fun kv => findArrays (snd kv) (extend_path prefix (fst kv))) props.
Proof.
  simpl. induction props as [|[k v] props IH]; simpl; [reflexivity|].
  rewrite IH. reflexivity.
Qed.

Lemma findArrays_complete (v : JSValue) (keys : list string) (w : JSValue) :
  reaches v keys w ->
  forall prefix arr, w = JArr arr ->
    In (path_or_root (path_after prefix keys), arr) (findArrays v prefix).
Proof.
  induction 1 as [v | props k e keys w Hin Hreach IH]; intros prefix arr ->.
  - simpl. left. reflexivity.
  - rewrite findArrays_object. apply in_flat_map.
    exists (k, e). split; [exact Hin|]. simpl. apply IH. reflexivity.
Qed.

Lemma findArrays_sound (v : JSValue) :
  forall prefix p arr,
    In (p, arr) (findArrays v prefix) ->
    exists keys, reaches v keys (JArr arr)
                 /\ p = path_or_root (path_after prefix keys).
Proof.
  induction v as [| |b|n|s|elems IH|props IH] using JSValue_ind';
    intros prefix p arr Hin; simpl in Hin; try contradiction.
  - destruct Hin as [Heq|[]]. inversion Heq; subst.
    exists []. split; [constructor | reflexivity].
  - change (In (p, arr) (findArrays (JObj props) prefix)) in Hin.
    rewrite findArrays_object in Hin. apply in_flat_map in Hin.
    destruct Hin as [[k e] [Hke Hin]]. simpl in Hin.
    rewrite Forall_forall in IH.
    destruct (IH (k, e) Hke _ _ _ Hin) as [keys [Hreach Hp]].
    exists (k :: keys). split; [econstructor; eassumption | exact Hp].
Qed.
Lemma truthy_append (p q : string) :
  truthy_string p = true -> truthy_string (p ++ q) = true.
Proof. destruct p; simpl; [discriminate | reflexivity]. Qed.

Lemma append_assoc (a b c : string) : ((a ++ b) ++ c = a ++ (b ++ c))%string.
Proof. induction a as [|ch a IH]; simpl; [reflexivity | now rewrite IH]. Qed.

Lemma extend_path_truthy (prefix k : string) :
  truthy_string prefix = true ->
  extend_path prefix k = (prefix ++ "." ++ k)%string.
Proof. unfold extend_path. now intros ->. Qed.

Lemma path_after_truthy (keys : list string) :
  forall prefix, truthy_string prefix = true ->
    path_after prefix keys = String.concat "." (prefix :: keys)
    /\ truthy_string (path_after prefix keys) = true.
Proof.
  induction keys as [|k keys IH]; intros prefix Hp.
  - simpl. split; [reflexivity | exact Hp].
  - change (path_after prefix (k :: keys))
      with (path_after (extend_path prefix k) keys).
    rewrite (extend_path_truthy _ k Hp).
    destruct (IH (prefix ++ "." ++ k)%string (truthy_append _ _ Hp)) as [Heq Ht].
    split; [|exact Ht].
    rewrite Heq.
    destruct keys as [|k' keys]; simpl; [reflexivity|].
    now rewrite !append_assoc.
Qed.

Lemma path_after_root (keys : list string) :
  hd_error keys <> Some EmptyString ->
  path_or_root (path_after EmptyString keys) = dotted_path keys.
Proof.
  destruct keys as [|k keys]; intros Hhd; [reflexivity|].
  assert (Hk : truthy_string k = true).
  { destruct k; [now elim Hhd | reflexivity]. }
  change (path_after EmptyString (k :: keys)) with (path_after k keys).
  destruct (path_after_truthy keys k Hk) as [Heq Ht].
  unfold path_or_root. rewrite Ht, Heq.
  reflexivity.
Qed.

(** C2, as the code has it: the arrays returned are exactly those reached
    from the root through object keys alone, each under the path the walk
    builds from its keys; that path is the dotted path of the keys
    ("root" for the root itself) when the first key is not the empty
    string. *)
Theorem findArrays_reachable (v : JSValue) :
  (forall keys arr,
      reaches v keys (JArr arr) ->
      In (path_or_root (path_after EmptyString keys), arr)
         (findArrays v EmptyString)
      /\ (hd_error keys <> Some EmptyString ->
          path_or_root (path_after EmptyString keys) = dotted_path keys))
  /\ (forall p arr,
         In (p, arr) (findArrays v EmptyString) ->
         exists keys, reaches v keys (JArr arr)
                      /\ p = path_or_root (path_after EmptyString keys)
                      /\ (hd_error keys <> Some EmptyString ->
                          p = dotted_path keys)).
Proof.
  split.
  - intros keys arr Hreach. split.
    + eapply findArrays_complete; [exact Hreach | reflexivity].
    + apply path_after_root.
  - intros p arr Hin.
    destruct (findArrays_sound v _ _ _ Hin) as [keys [Hreach Hp]].
    exists keys. split; [exact Hreach|]. split; [exact Hp|].
    intros Hhd. rewrite Hp. apply path_after_root. exact Hhd.
Qed.
End FindArraysFacts.

(** ** [saveApiRequest] *)

Section ApiHistoryFacts.
Import ApiHistory.

Lemma saveApiRequest_run (ctx : Ctx) (args : Args) (db : Table) :
  saveApiRequest ctx args db =
  if truthy_opt (authUserId ctx) then
    match authUserId ctx with
    | Some uid =>
        (inr (List.length db),
         db ++ [ {| userId := uid;
                    name := arg_name args;
                    url := arg_url args;
                    method := arg_method args;
                    headers := arg_headers args;
                    body := arg_body args;
                    createdAt := now ctx |} ])
    | None => (inl "Unauthorized", db)
    end
  else (inl "Unauthorized", db).
Proof.
  unfold saveApiRequest, getAuthUserId, bind, ret, throw, db_insert.
  destruct (authUserId ctx) as [uid|]; simpl; [|reflexivity].
  destruct (truthy_string uid); reflexivity.
Qed.

(** C8: without an authenticated user id the handler throws
    "Unauthorized" and leaves the table as it was; with one it appends a
    single document carrying that user id (and the arguments); so the
    table only changes on behalf of an authenticated user. *)
Theorem saveApiRequest_authorized (ctx : Ctx) (args : Args) (db : Table) :
  (truthy_opt (authUserId ctx) = false ->
   saveApiRequest ctx args db = (inl "Unauthorized", db))
  /\ (forall uid,
        authUserId ctx = Some uid -> truthy_string uid = true ->
        exists doc,
          saveApiRequest ctx args db = (inr (List.length db), db ++ [doc])
          /\ userId doc = uid
          /\ name doc = arg_name args /\ url doc = arg_url args
          /\ method doc = arg_method args /\ headers doc = arg_headers args
          /\ body doc = arg_body args /\ createdAt doc = now ctx)
  /\ (snd (saveApiRequest ctx args db) <> db ->
      exists uid doc,
        authUserId ctx = Some uid
        /\ snd (saveApiRequest ctx args db) = db ++ [doc]
        /\ userId doc = uid).
Proof.
  rewrite saveApiRequest_run. repeat split.
  - intros ->. reflexivity.
  - intros uid Huid Ht. unfold truthy_opt. rewrite Huid, Ht.
    eexists. split; [reflexivity|]. simpl. repeat split.
  - destruct (authUserId ctx) as [uid|]; simpl.
    + destruct (truthy_string uid); simpl; [|congruence].
      intros _. eexists. eexists. repeat split.
    + congruence.
Qed.
End ApiHistoryFacts.

(** ** Ordered objects *)

Section ObjectFacts.
Context {A : Type}.
Implicit Types (o : list (string * A)) (k : string) (v : A).

Lemma obj_has_lookup k o :
  obj_has k o = true <-> exists v, obj_lookup k o = Some v.
Proof.
  unfold obj_has. destruct (obj_lookup k o) as [v|]; split.
  - intros _. now exists v.
  - reflexivity.
  - discriminate.
  - intros [v Hv]. discriminate.
Qed.

Lemma obj_lookup_In k v o : obj_lookup k o = Some v -> In (k, v) o.
Proof.
  induction o as [|[k0 v0] o IH]; simpl; [discriminate|].
  destruct (String.eqb_spec k k0) as [->|Hne].
  - intros [= ->]. now left.
  - intros Hl. right. now apply IH.
Qed.

Lemma obj_lookup_None k o : obj_lookup k o = None <-> ~ In k (map fst o).
Proof.
  induction o as [|[k0 v0] o IH]; simpl.
  - split; [intros _ [] | reflexivity].
  - destruct (String.eqb_spec k k0) as [->|Hne].
    + split; [discriminate | intros Hn; elim Hn; now left].
    + rewrite IH. split.
      * intros Hn [Heq|Hin]; [now elim Hne | now elim Hn].
      * intros Hn Hin. apply Hn. now right.
Qed.

Lemma obj_lookup_replace k v o k' :
  obj_lookup k' (obj_replace k v o) =
  if String.eqb k' k then (if obj_has k o then Some v else None)
  else obj_lookup k' o.
Proof.
  unfold obj_has.
  induction o as [|[k0 v0] o IH]; simpl.
  - now destruct (String.eqb k' k).
  - destruct (String.eqb_spec k k0) as [->|Hne]; simpl.
    + now destruct (String.eqb_spec k' k0).
    + destruct (String.eqb_spec k' k0) as [->|Hne'].
      * destruct (String.eqb_spec k0 k) as [->|_]; [now elim Hne | reflexivity].
      * exact IH.
Qed.

Lemma obj_lookup_insert_index n k v o k' :
  obj_lookup k o = None ->
  obj_lookup k' (obj_insert_index n k v o) =
  if String.eqb k' k then Some v else obj_lookup k' o.
Proof.
  induction o as [|[k0 v0] o IH]; simpl.
  - intros _. now destruct (String.eqb k' k).
  - destruct (String.eqb_spec k k0) as [->|Hne]; [discriminate|]. intros Hnone.
    assert (Hhead : obj_lookup k' ((k, v) :: (k0, v0) :: o) =
                    if String.eqb k' k then Some v
                    else if String.eqb k' k0 then Some v0 else obj_lookup k' o)
      by reflexivity.
    destruct (array_index k0) as [m|]; [destruct (m <? n)%N|]; try exact Hhead.
    simpl. rewrite (IH Hnone).
    destruct (String.eqb_spec k' k0) as [->|Hne'].
    + destruct (String.eqb_spec k0 k) as [->|_]; [now elim Hne | reflexivity].
    + reflexivity.
Qed.

Lemma obj_lookup_app_new k v o k' :
  obj_lookup k o = None ->
  obj_lookup k' (o ++ [(k, v)]) =
  if String.eqb k' k then Some v else obj_lookup k' o.
Proof.
  induction o as [|[k0 v0] o IH]; simpl.
  - intros _. now destruct (String.eqb k' k).
  - destruct (String.eqb_spec k k0) as [->|Hne]; [discriminate|]. intros Hnone.
    rewrite (IH Hnone).
    destruct (String.eqb_spec k' k0) as [->|Hne'].
    + destruct (String.eqb_spec k0 k) as [->|_]; [now elim Hne | reflexivity].
    + reflexivity.
Qed.

(** Reading after writing. *)
Lemma obj_lookup_set k v o k' :
  obj_lookup k' (obj_set k v o) =
  if String.eqb k' k then Some v else obj_lookup k' o.
Proof.
  unfold obj_set, obj_has.
  destruct (obj_lookup k o) as [v0|] eqn:Hk.
  - rewrite obj_lookup_replace. unfold obj_has. now rewrite Hk.
  - destruct (array_index k) as [n|].
    + now apply obj_lookup_insert_index.
    + now apply obj_lookup_app_new.
Qed.

Lemma obj_lookup_set_same k v o : obj_lookup k (obj_set k v o) = Some v.
Proof. rewrite obj_lookup_set. now rewrite String.eqb_refl. Qed.

Lemma obj_lookup_set_other k v o k' :
  k' <> k -> obj_lookup k' (obj_set k v o) = obj_lookup k' o.
Proof.
  intros Hne. rewrite obj_lookup_set.
  now destruct (String.eqb_spec k' k).
Qed.

Lemma In_obj_replace k v o kv :
  In kv (obj_replace k v o) -> kv = (k, v) \/ In kv o.
Proof.
  induction o as [|[k0 v0] o IH]; simpl; [tauto|].
  destruct (String.eqb_spec k k0) as [->|Hne]; simpl.
  - intros [<-|Hin]; auto.
  - intros [<-|Hin]; auto. destruct (IH Hin); auto.
Qed.

Lemma In_obj_insert_index n k v o kv :
  In kv (obj_insert_index n k v o) -> kv = (k, v) \/ In kv o.
Proof.
  induction o as [|[k0 v0] o IH]; simpl.
  - intros [<-|[]]. now left.
  - destruct (array_index k0) as [m|]; [destruct (m <? n)%N|]; simpl.
    + intros [<-|Hin]; auto. destruct (IH Hin); auto.
    + intros [<-|[<-|Hin]]; auto.
    + intros [<-|[<-|Hin]]; auto.
Qed.

(** Writing adds nothing but the pair written. *)
Lemma In_obj_set k v o kv :
  In kv (obj_set k v o) -> kv = (k, v) \/ In kv o.
Proof.
  unfold obj_set. destruct (obj_has k o).
  - apply In_obj_replace.
  - destruct (array_index k) as [n|].
    + apply In_obj_insert_index.
    + intros Hin. apply in_app_or in Hin.
      destruct Hin as [Hin|[<-|[]]]; auto.
Qed.

Lemma Forall_obj_set (Q : string * A -> Prop) k v o :
  Q (k, v) -> Forall Q o -> Forall Q (obj_set k v o).
Proof.
  intros Hq Ho. apply Forall_forall. intros kv Hin.
  destruct (In_obj_set _ _ _ _ Hin) as [->|Hin']; [exact Hq|].
  rewrite Forall_forall in Ho. now apply Ho.
Qed.

End ObjectFacts.

(** ** Loops that may throw *)

Section LoopFacts.
Context {A B C S : Type}.

Lemma for_each_total (body : S -> A -> option S) (step : S -> A -> S)
      (l : list A) :
  (forall s a, In a l -> body s a = Some (step s a)) ->
  forall s, for_each body l s = Some (fold_left step l s).
Proof.
  induction l as [|a l IH]; intros Hbody s; simpl; [reflexivity|].
  rewrite (Hbody s a (or_introl eq_refl)).
  apply IH. intros s' a' Hin. apply Hbody. now right.
Qed.

Lemma for_each_throws (body : S -> A -> option S) (l : list A) (a : A) :
  In a l -> (forall s, body s a = None) ->
  forall s, for_each body l s = None.
Proof.
  induction l as [|a0 l IH]; intros Hin Hnone s; simpl; [contradiction|].
  destruct Hin as [->|Hin].
  - now rewrite Hnone.
  - destruct (body s a0); [|reflexivity]. now apply IH.
Qed.

Lemma for_each_thrown (body : S -> A -> option S) (l : list A) :
  forall s, for_each body l s = None ->
  exists a s', In a l /\ body s' a = None.
Proof.
  induction l as [|a0 l IH]; intros s Hnone; simpl in Hnone; [discriminate|].
  destruct (body s a0) as [s'|] eqn:Hb.
  - destruct (IH _ Hnone) as [a [s'' [Hin Ha]]].
    exists a, s''. split; [now right | exact Ha].
  - exists a0, s. split; [now left | exact Hb].
Qed.

Lemma map_all_total (f : A -> option B) (g : A -> B) (l : list A) :
  (forall a, In a l -> f a = Some (g a)) -> map_all f l = Some (map g l).
Proof.
  induction l as [|a l IH]; intros Hf; simpl; [reflexivity|].
  rewrite (Hf a (or_introl eq_refl)), IH; [reflexivity|].
  intros a' Hin. apply Hf. now right.
Qed.

Lemma map_all_returned (f : A -> option B) (l : list A) :
  forall r, map_all f l = Some r -> Forall2 (fun a b => f a = Some b) l r.
Proof.
  induction l as [|a l IH]; intros r Hr; simpl in Hr.
  - injection Hr as <-. constructor.
  - destruct (f a) as [b|] eqn:Hb; [|discriminate].
    destruct (map_all f l) as [r'|]; [|discriminate].
    injection Hr as <-. constructor; [exact Hb | now apply IH].
Qed.

Lemma map_all_thrown (f : A -> option B) (l : list A) :
  map_all f l = None <-> exists a, In a l /\ f a = None.
Proof.
  induction l as [|a l IH]; simpl.
  - split; [discriminate | intros [a [[] _]]].
  - destruct (f a) as [b|] eqn:Hb.
    + destruct (map_all f l) as [r|]; simpl.
      * split; [discriminate|]. intros [a' [[<-|Hin] Ha']]; [congruence|].
        assert (Hno : Some r = None) by (apply (proj2 IH); now exists a').
        discriminate.
      * split; [|reflexivity]. intros _.
        destruct (proj1 IH eq_refl) as [a' [Hin Ha']].
        exists a'. split; [now right | exact Ha'].
    + split; [|reflexivity]. intros _. exists a. split; [now left | exact Hb].
Qed.

Lemma map_all_map (f : A -> option B) (g : B -> C) (l : list A) :
  map_all (fun a => option_map g (f a)) l = option_map (map g) (map_all f l).
Proof.
  induction l as [|a l IH]; simpl; [reflexivity|].
  destruct (f a) as [b|]; simpl; [|reflexivity].
  rewrite IH. now destruct (map_all f l).
Qed.

Lemma map_all_length (f : A -> option B) (l : list A) (r : list B) :
  map_all f l = Some r -> List.length r = List.length l.
Proof.
  intros Hr. apply map_all_returned in Hr.
  induction Hr; simpl; congruence.
Qed.

Lemma map_all_In (f : A -> option B) (l : list A) (r : list B) (b : B) :
  map_all f l = Some r -> In b r -> exists a, In a l /\ f a = Some b.
Proof.
  intros Hr. apply map_all_returned in Hr.
  induction Hr as [|a b' l r Hab _ IH]; intros Hin; [contradiction|].
  destruct Hin as [<-|Hin].
  - exists a. split; [now left | exact Hab].
  - destruct (IH Hin) as [a' [Hin' Ha']]. exists a'. split; [now right | exact Ha'].
Qed.
End LoopFacts.

(** ** Reading and writing the objects the code creates *)

Section ReadingFacts.
Context {N : JSNumber} {H : JSHost}.

Lemma obj_get_empty (k : string) : obj_get k empty_object = inherited k.
Proof. reflexivity. Qed.

(** The members a plain object inherits are the twelve of
    [Object.prototype]. *)
Lemma inherits_member_names (k : string) :
  inherits_member k = true <->
  In k [ "__proto__"; "constructor"; "hasOwnProperty"; "isPrototypeOf";
         "propertyIsEnumerable"; "toLocaleString"; "toString"; "valueOf";
         "__defineGetter__"; "__defineSetter__"; "__lookupGetter__";
         "__lookupSetter__" ].
Proof.
  unfold inherits_member. rewrite orb_true_iff, existsb_exists. split.
  - intros [Hk|[m [Hin Hm]]].
    + apply String.eqb_eq in Hk. subst k. now left.
    + apply String.eqb_eq in Hm. subst m. now right.
  - intros [<-|Hin]; [now left|].
    right. exists k. split; [exact Hin | apply String.eqb_refl].
Qed.

Lemma inherited_member (k : string) :
  inherits_member k = false -> inherited k = Plain JUndefined.
Proof.
  unfold inherits_member, inherited. intros Hk.
  apply orb_false_iff in Hk. destruct Hk as [-> ->]. reflexivity.
Qed.

Lemma inherited_cases (k : string) :
  (k = "__proto__" /\ inherited k = ObjectPrototype)
  \/ (In k Object_prototype_methods /\ inherited k = Builtin k)
  \/ (inherits_member k = false /\ inherited k = Plain JUndefined).
Proof.
  unfold inherited, inherits_member.
  destruct (String.eqb_spec k "__proto__") as [->|Hne]; [now left|].
  destruct (existsb (String.eqb k) Object_prototype_methods) eqn:Hm.
  - right. left. split; [|reflexivity].
    apply existsb_exists in Hm. destruct Hm as [m [Hin Heq]].
    apply String.eqb_eq in Heq. now subst m.
  - right. right. now split.
Qed.

(** An assignment to a name other than [__proto__] defines or updates
    an own property. *)
Lemma obj_put_plain (k : string) (v : Value) (o : Obj) :
  k <> "__proto__" ->
  obj_put k v o = {| own := obj_set k v (own o); proto := proto o |}.
Proof.
  intros Hk. unfold obj_put.
  destruct (String.eqb_spec k "__proto__"); [contradiction | reflexivity].
Qed.

(** So does an assignment to an own property. *)
Lemma obj_put_own (k : string) (v : Value) (o : Obj) :
  obj_has k (own o) = true ->
  obj_put k v o = {| own := obj_set k v (own o); proto := proto o |}.
Proof.
  intros Hk. unfold obj_put, reaches_accessor.
  destruct (String.eqb_spec k "__proto__") as [->|_]; [|reflexivity].
  now rewrite Hk.
Qed.

Lemma obj_get_own (k : string) (v : Value) (o : Obj) :
  obj_lookup k (own o) = Some v -> obj_get k o = v.
Proof. unfold obj_get. now intros ->. Qed.

Lemma obj_get_defined (k k' : string) (v : Value) (props : list (string * Value))
      (p : Proto) :
  obj_get k' {| own := obj_set k v props; proto := p |} =
  if String.eqb k' k then v else obj_get k' {| own := props; proto := p |}.
Proof.
  unfold obj_get. simpl. rewrite obj_lookup_set.
  now destruct (String.eqb k' k).
Qed.
End ReadingFacts.
(** ** [processDataForChart]: the rows that are kept *)

Section ProcessFacts.
Context {N : JSNumber} {H : JSHost}.

Lemma chart_keep_spec (config : ChartConfig) (row : Obj) :
  chart_keep config row = true <->
  obj_get (xAxis config) row <> Plain JUndefined
  /\ exists n, obj_get (yAxis config) row = Plain (JNum n).
Proof.
  unfold chart_keep.
  destruct (obj_get (xAxis config) row) as [[| |bx|nx|sx|ex|px]|fx|],
           (obj_get (yAxis config) row) as [[| |b|n|s|e|p]|f|];
    simpl; split; intros Hk;
    try discriminate; try reflexivity;
    try (split; [discriminate | eexists; reflexivity]);
    destruct Hk as [Hx [m Hy]]; try discriminate; now elim Hx.
Qed.

Lemma processed_rows_kept (config : ChartConfig) (data : JSValue) (rows : list Obj) :
  processed_rows config data = Some rows ->
  Forall (fun row => chart_keep config row = true) rows.
Proof.
  unfold processed_rows.
  destruct (map_all (chart_row config) (as_array data)) as [all|]; [|discriminate].
  intros [= <-]. apply Forall_forall. intros row Hin.
  apply filter_In in Hin. apply Hin.
Qed.

Lemma processed_rows_length (config : ChartConfig) (data : JSValue) (rows : list Obj) :
  processed_rows config data = Some rows ->
  (List.length rows <= List.length (as_array data))%nat.
Proof.
  unfold processed_rows.
  destruct (map_all (chart_row config) (as_array data)) as [all|] eqn:Hall;
    [|discriminate].
  intros [= <-]. rewrite <- (map_all_length _ _ _ Hall).
  apply filter_length_le.
Qed.

Lemma chart_row_thrown (config : ChartConfig) (item : JSValue) :
  chart_row config item = None <-> flattenData item EmptyString = None.
Proof.
  unfold chart_row.
  destruct (flattenData item EmptyString); split; intros Hn;
    try discriminate; reflexivity.
Qed.

(** [processDataForChart] throws exactly when flattening a record does. *)
Lemma processed_rows_thrown (config : ChartConfig) (data : JSValue) :
  processed_rows config data = None <->
  exists item, In item (as_array data) /\ flattenData item EmptyString = None.
Proof.
  unfold processed_rows.
  destruct (map_all (chart_row config) (as_array data)) as [all|] eqn:Hall; simpl.
  - split; [discriminate|]. intros [item [Hin Hitem]].
    assert (Hno : map_all (chart_row config) (as_array data) = None).
    { apply map_all_thrown. exists item. split; [exact Hin|].
      now apply chart_row_thrown. }
    congruence.
  - split; [|reflexivity]. intros _.
    apply map_all_thrown in Hall. destruct Hall as [item [Hin Hitem]].
    exists item. split; [exact Hin | now apply (chart_row_thrown config)].
Qed.

Lemma processDataForChart_thrown (data : JSValue) (config : ChartConfig) :
  processed_rows config data = None -> processDataForChart data config = None.
Proof. unfold processDataForChart. now intros ->. Qed.

(** Without group-by and outside pie mode the kept rows are the result. *)
Lemma processDataForChart_plain (data : JSValue) (config : ChartConfig) :
  truthy_opt (groupBy config) = false -> chartType config <> Pie ->
  processDataForChart data config = processed_rows config data.
Proof.
  intros Hg Hpie. unfold processDataForChart. rewrite Hg.
  destruct (processed_rows config data); [|reflexivity].
  destruct (chartType config); try reflexivity. now elim Hpie.
Qed.
End ProcessFacts.

(** ** [flattenData] and [analyzeFields] *)

Section InferenceFacts.
Context {N : JSNumber} {H : JSHost}.

Lemma flattenData_object (props : list (string * JSValue)) (prefix : string) :
  flattenData (JObj props) prefix =
  for_each
    (fun flattened kv =>
       flatten_turn (JObj props) prefix (flattenData (snd kv)) (fst kv) (snd kv)
                    flattened)
    props empty_object.
Proof.
  assert (Hgen : forall whole ps flattened,
             (fix each (ps : list (string * JSValue)) (flattened : Obj)
                : option Obj :=
                match ps with
                | [] => Some flattened
                | (key, val) :: rest =>
                    match flatten_turn whole prefix (flattenData val) key val
                                       flattened with
                    | Some flattened' => each rest flattened'
                    | None => None
                    end
                end) ps flattened
             = for_each
                 (fun flattened kv =>
                    flatten_turn whole prefix (flattenData (snd kv)) (fst kv)
                                 (snd kv) flattened)
                 ps flattened).
  { intros whole ps. induction ps as [|[k v] ps IH]; intros fl; [reflexivity|].
    simpl fst. simpl snd. cbn [for_each]. simpl fst. simpl snd.
    destruct (flatten_turn whole prefix (flattenData v) k v fl); [apply IH | reflexivity]. }
  exact (Hgen (JObj props) props empty_object).
Qed.

Lemma flattenData_array (elems : list JSValue) (prefix : string) :
  flattenData (JArr elems) prefix =
  for_each
    (fun flattened kv =>
       flatten_turn (JArr elems) prefix (flattenData (snd kv)) (fst kv) (snd kv)
                    flattened)
    (indexed 0 elems) empty_object.
Proof.
  assert (Hgen : forall whole es i flattened,
             (fix each (i : nat) (es : list JSValue) (flattened : Obj)
                : option Obj :=
                match es with
                | [] => Some flattened
                | val :: rest =>
                    match flatten_turn whole prefix (flattenData val) (index_key i)
                                       val flattened with
                    | Some flattened' => each (S i) rest flattened'
                    | None => None
                    end
                end) i es flattened
             = for_each
                 (fun flattened kv =>
                    flatten_turn whole prefix (flattenData (snd kv)) (fst kv)
                                 (snd kv) flattened)
                 (indexed i es) flattened).
  { intros whole es. induction es as [|v es IH]; intros i fl; [reflexivity|].
    cbn [indexed for_each]. simpl fst. simpl snd.
    destruct (flatten_turn whole prefix (flattenData v) (index_key i) v fl);
      [apply IH | reflexivity]. }
  exact (Hgen (JArr elems) elems 0%nat empty_object).
Qed.

Lemma In_indexed {A : Type} (l : list A) :
  forall i kv, In kv (indexed i l) -> In (snd kv) l.
Proof.
  induction l as [|x l IH]; intros i kv Hin; simpl in *; [contradiction|].
  destruct Hin as [<-|Hin]; [now left | right; eapply IH; eassumption].
Qed.

Lemma indexed_In {A : Type} (l : list A) (e : A) :
  In e l -> forall i, exists k, In (k, e) (indexed i l).
Proof.
  induction l as [|x l IH]; intros Hin i; simpl in *; [contradiction|].
  destruct Hin as [->|Hin].
  - exists (index_key i). now left.
  - destruct (IH Hin (S i)) as [k Hk]. exists k. now right.
Qed.

(** *** When [flattenData] throws *)

Lemma flatten_step_thrown (prefix : string) (sub : string -> option Obj)
      (key : string) (val : JSValue) (flattened : Obj) :
  flatten_step prefix sub key val flattened = None <->
  nested_object val = true /\ sub (extend_path prefix key) = None.
Proof.
  unfold flatten_step.
  destruct val as [| |b|n|s|elems|props]; simpl;
    try (split; [discriminate | intros [Hf _]; discriminate]).
  destruct (sub (extend_path prefix key)); simpl; split;
    try discriminate; try (intros [_ Hf]; discriminate); auto.
Qed.

Lemma flatten_turn_object (props : list (string * JSValue)) (prefix : string)
      (sub : string -> option Obj) (key : string) (val : JSValue) (flattened : Obj) :
  flatten_turn (JObj props) prefix sub key val flattened =
  if obj_has "hasOwnProperty" props then None
  else flatten_step prefix sub key val flattened.
Proof.
  unfold flatten_turn, hasOwnProperty_call.
  now destruct (obj_has "hasOwnProperty" props).
Qed.

Lemma flatten_turn_array (elems : list JSValue) (prefix : string)
      (sub : string -> option Obj) (key : string) (val : JSValue) (flattened : Obj) :
  flatten_turn (JArr elems) prefix sub key val flattened =
  flatten_step prefix sub key val flattened.
Proof. reflexivity. Qed.

Lemma flattenData_string (s prefix : string) :
  flattenData (JStr s) prefix =
  Some (fold_left (fun flattened kv =>
                     obj_put (extend_path prefix (fst kv)) (Plain (snd kv)) flattened)
                  (indexed 0 (chars s)) empty_object).
Proof.
  simpl. apply for_each_total. intros fl [k v] Hin.
  apply In_indexed in Hin. simpl in Hin. unfold chars in Hin.
  apply in_map_iff in Hin. destruct Hin as [c [<- _]]. reflexivity.
Qed.

Lemma hides_is_record (item : JSValue) :
  hides_hasOwnProperty item -> is_record item = true.
Proof. now destruct 1. Qed.

(** [flattenData] throws exactly on the values in which a record it
    visits has a property named [hasOwnProperty]. *)
Lemma flattenData_thrown (obj : JSValue) :
  forall prefix, flattenData obj prefix = None <-> hides_hasOwnProperty obj.
Proof.
  induction obj as [| |b|n|s|elems IH|props IH] using JSValue_ind';
    intros prefix;
    try (split; [discriminate | intros Hh; inversion Hh]).
  - rewrite flattenData_string. split; [discriminate | intros Hh; inversion Hh].
  - rewrite flattenData_array. rewrite Forall_forall in IH. split.
    + intros Hnone. apply for_each_thrown in Hnone.
      destruct Hnone as [[k v] [fl [Hin Hturn]]]. simpl in Hturn.
      rewrite flatten_turn_array in Hturn.
      apply flatten_step_thrown in Hturn. destruct Hturn as [Hnested Hsub].
      apply In_indexed in Hin. simpl in Hin.
      apply (IH v Hin) in Hsub.
      destruct v; try discriminate. eapply hides_elem; eassumption.
    + intros Hh. inversion Hh as [| |elems' inner Hin Hinner]; subst.
      destruct (indexed_In elems (JObj inner) Hin 0%nat) as [k Hk].
      apply (for_each_throws _ _ (k, JObj inner) Hk).
      intros fl. simpl. rewrite flatten_turn_array.
      apply flatten_step_thrown. split; [reflexivity|].
      apply (IH _ Hin). exact Hinner.
  - rewrite flattenData_object. rewrite Forall_forall in IH. split.
    + intros Hnone. apply for_each_thrown in Hnone.
      destruct Hnone as [[k v] [fl [Hin Hturn]]]. simpl in Hturn.
      rewrite flatten_turn_object in Hturn.
      destruct (obj_has "hasOwnProperty" props) eqn:Hhas.
      * apply hides_here. apply obj_has_lookup in Hhas. destruct Hhas as [w Hw].
        apply obj_lookup_In in Hw. apply in_map_iff. now exists ("hasOwnProperty", w).
      * apply flatten_step_thrown in Hturn. destruct Hturn as [Hnested Hsub].
        apply (IH (k, v) Hin) in Hsub. simpl in Hsub.
        destruct v; try discriminate. eapply hides_prop; eassumption.
    + intros Hh. inversion Hh as [props' Hkey|props' k inner Hin Hinner|]; subst.
      * assert (Hhas : obj_has "hasOwnProperty" props = true).
        { destruct (obj_has "hasOwnProperty" props) eqn:Hhas; [reflexivity|].
          unfold obj_has in Hhas.
          destruct (obj_lookup "hasOwnProperty" props) eqn:Hl; [discriminate|].
          apply obj_lookup_None in Hl. contradiction. }
        apply in_map_iff in Hkey. destruct Hkey as [kv [_ Hkv]].
        apply (for_each_throws _ _ kv Hkv).
        intros fl. rewrite flatten_turn_object. now rewrite Hhas.
      * destruct (obj_has "hasOwnProperty" props) eqn:Hhas.
        -- apply (for_each_throws _ _ (k, JObj inner) Hin).
           intros fl. rewrite flatten_turn_object. now rewrite Hhas.
        -- apply (for_each_throws _ _ (k, JObj inner) Hin).
           intros fl. rewrite flatten_turn_object, Hhas. simpl.
           apply flatten_step_thrown. split; [reflexivity|].
           apply (IH (k, JObj inner) Hin). exact Hinner.
Qed.

(** *** What [flattenData] returns *)

Lemma obj_put_tidy (k : string) (v : Value) (o : Obj) :
  primitive v = true -> tidy o -> tidy (obj_put k v o).
Proof.
  intros Hv [Hown Hproto]. unfold obj_put.
  destruct (String.eqb k "__proto__" && reaches_accessor o).
  - destruct v as [[| |b|n|s|e|p]|f|]; simpl in *; try discriminate;
      split; try assumption; exact I.
  - split; simpl; [|exact Hproto].
    apply Forall_obj_set; [exact Hv | exact Hown].
Qed.

Lemma Object_assign_tidy (o src : Obj) :
  Forall flat (own src) -> tidy o -> tidy (Object_assign o src).
Proof.
  unfold Object_assign. generalize (own src). intros l. revert o.
  induction l as [|[k v] l IH]; intros o Hl Ho; simpl; [exact Ho|].
  inversion Hl; subst. apply IH; [assumption|].
  now apply obj_put_tidy.
Qed.

Lemma flatten_step_tidy (prefix : string) (sub : string -> option Obj)
      (key : string) (val : JSValue) (flattened result : Obj) :
  (forall p inner, sub p = Some inner -> tidy inner) ->
  tidy flattened ->
  flatten_step prefix sub key val flattened = Some result ->
  tidy result.
Proof.
  intros Hsub Hfl. unfold flatten_step.
  destruct val as [| |b|n|s|elems|props]; simpl;
    try (intros [= <-]; now apply obj_put_tidy).
  destruct (sub (extend_path prefix key)) as [inner|] eqn:Hinner; [|discriminate].
  simpl. intros [= <-]. apply Object_assign_tidy; [|exact Hfl].
  apply (Hsub _ _ Hinner).
Qed.

Lemma flatten_turn_tidy (whole : JSValue) (prefix : string)
      (sub : string -> option Obj) (key : string) (val : JSValue)
      (flattened result : Obj) :
  (forall p inner, sub p = Some inner -> tidy inner) ->
  tidy flattened ->
  flatten_turn whole prefix sub key val flattened = Some result ->
  tidy result.
Proof.
  intros Hsub Hfl. unfold flatten_turn.
  destruct (hasOwnProperty_call whole key) as [[|]|]; [| |discriminate].
  - now apply flatten_step_tidy.
  - now intros [= <-].
Qed.

Lemma for_each_tidy (whole : JSValue) (prefix : string)
      (rec : JSValue -> string -> option Obj) (entries : list (string * JSValue)) :
  Forall (fun kv => forall p inner, rec (snd kv) p = Some inner -> tidy inner)
         entries ->
  forall flattened result,
    tidy flattened ->
    for_each (fun flattened kv =>
                flatten_turn whole prefix (rec (snd kv)) (fst kv) (snd kv) flattened)
             entries flattened = Some result ->
    tidy result.
Proof.
  induction 1 as [|kv entries Hkv _ IH]; intros fl result Hfl; simpl.
  - now intros [= <-].
  - destruct (flatten_turn whole prefix (rec (snd kv)) (fst kv) (snd kv) fl)
      as [fl'|] eqn:Hturn; [|discriminate].
    apply IH. eapply flatten_turn_tidy; [exact Hkv | exact Hfl | exact Hturn].
Qed.

Lemma empty_object_tidy : tidy empty_object.
Proof. split; [constructor | exact I]. Qed.

Lemma Forall_indexed (P : JSValue -> Prop) (l : list JSValue) :
  Forall P l -> forall i, Forall (fun kv => P (snd kv)) (indexed i l).
Proof.
  induction 1 as [|e l He _ IH]; intros i; simpl; constructor; auto.
Qed.

(** [flattenData] never stores an array or an object: arrays are replaced
    by their JSON text and objects by their own flattened properties;
    and its result has [Object.prototype] or [null] as prototype. *)
Lemma flattenData_tidy (obj : JSValue) :
  forall prefix flattened, flattenData obj prefix = Some flattened -> tidy flattened.
Proof.
  induction obj as [| |b|n|s|elems IH|props IH] using JSValue_ind';
    intros prefix fl;
    try (simpl; intros [= <-]; apply empty_object_tidy).
  - simpl.
    apply (for_each_tidy (JStr s) prefix (fun _ _ => Some empty_object));
      [|apply empty_object_tidy].
    apply Forall_forall. intros kv _ p inner [= <-]. apply empty_object_tidy.
  - rewrite flattenData_array.
    apply (for_each_tidy (JArr elems) prefix flattenData);
      [|apply empty_object_tidy].
    exact (Forall_indexed
             (fun j => forall p inner, flattenData j p = Some inner -> tidy inner)
             elems IH 0%nat).
  - rewrite flattenData_object.
    apply (for_each_tidy (JObj props) prefix flattenData);
      [exact IH | apply empty_object_tidy].
Qed.

(** A read of such an object gives a stored primitive, [undefined], or
    the inherited member of that name. *)
Lemma obj_get_tidy (key : string) (o : Obj) :
  tidy o ->
  primitive (obj_get key o) = true
  \/ (obj_lookup key (own o) = None /\ inherits_member key = true
      /\ obj_get key o = inherited key).
Proof.
  intros [Hown Hproto]. unfold plain_proto in Hproto. unfold obj_get.
  destruct (obj_lookup key (own o)) as [v|] eqn:Hl.
  - left. apply obj_lookup_In in Hl. rewrite Forall_forall in Hown.
    exact (Hown _ Hl).
  - destruct (proto o); [|now left|contradiction].
    destruct (inherits_member key) eqn:Hm.
    + right. repeat split.
    + left. now rewrite (inherited_member key Hm).
Qed.

Lemma obj_get_not_array (key : string) (o : Obj) :
  tidy o -> Array_isArray (obj_get key o) = false.
Proof.
  intros Ho. destruct (obj_get_tidy key o Ho) as [Hp|[_ [_ ->]]].
  - destruct (obj_get key o) as [[]| |]; simpl in *; congruence.
  - destruct (inherited_cases key) as [[_ ->]|[[_ ->]|[_ ->]]]; reflexivity.
Qed.

(** *** The sort only reorders *)

Lemma insert_field_perm (f : FieldInfo) (l : list FieldInfo) :
  Permutation (insert_field f l) (f :: l).
Proof.
  induction l as [|g l IH]; simpl; [reflexivity|].
  destruct (localeCompare (name g) (name f)).
  - rewrite IH. apply perm_swap.
  - rewrite IH. apply perm_swap.
  - reflexivity.
Qed.

Lemma sort_fields_perm (l : list FieldInfo) : Permutation (sort_fields l) l.
Proof.
  unfold sort_fields.
  assert (Hgen : forall acc,
             Permutation (fold_left (fun sorted f => insert_field f sorted) l acc)
                         (acc ++ l)).
  { induction l as [|f l IH]; intros acc; simpl.
    - now rewrite app_nil_r.
    - rewrite IH, insert_field_perm. apply Permutation_middle. }
  exact (Hgen []).
Qed.

(** *** The two loops of [analyzeFields] *)

Lemma flattenData_of_value (item : JSValue) :
  is_record item = false -> flattenData item EmptyString <> None.
Proof.
  intros Hrec Hnone. apply flattenData_thrown in Hnone.
  apply hides_is_record in Hnone. congruence.
Qed.

Lemma add_keys_thrown (allKeys : list string) (item : JSValue) :
  add_keys allKeys item = None <-> flattenData item EmptyString = None.
Proof.
  unfold add_keys. destruct (is_record item) eqn:Hrec.
  - destruct (flattenData item EmptyString); simpl; split; congruence.
  - split; [discriminate|]. intros Hnone.
    now elim (flattenData_of_value item Hrec).
Qed.

(** The first loop throws exactly when flattening a sampled value does. *)
Lemma allKeys_of_thrown (sampleData : list JSValue) :
  allKeys_of sampleData = None <-> flattenings sampleData = None.
Proof.
  unfold allKeys_of, flattenings. rewrite map_all_thrown. split.
  - intros Hnone. apply for_each_thrown in Hnone.
    destruct Hnone as [item [keys [Hin Hadd]]].
    exists item. split; [exact Hin | now apply (add_keys_thrown keys)].
  - intros [item [Hin Hitem]].
    apply (for_each_throws _ _ item Hin).
    intros keys. now apply add_keys_thrown.
Qed.

Lemma set_add_In (k k' : string) (s : list string) :
  In k' (set_add k s) <-> In k' s \/ k' = k.
Proof.
  unfold set_add. destruct (existsb (String.eqb k) s) eqn:Hex.
  - split; [now left|]. intros [Hin | ->]; [exact Hin|].
    apply existsb_exists in Hex. destruct Hex as [x [Hx Heq]].
    apply String.eqb_eq in Heq. now subst x.
  - rewrite in_app_iff. simpl. intuition.
Qed.

Lemma set_add_NoDup (k : string) (s : list string) :
  NoDup s -> NoDup (set_add k s).
Proof.
  intros Hnd. unfold set_add.
  destruct (existsb (String.eqb k) s) eqn:Hex; [exact Hnd|].
  apply NoDup_app; [exact Hnd | repeat constructor; intros [] |].
  intros a Ha [Heq|[]]. subst a.
  assert (Ht : existsb (String.eqb k) s = true).
  { apply existsb_exists. exists k. split; [exact Ha | apply String.eqb_refl]. }
  congruence.
Qed.

Lemma set_add_all (keys : list string) :
  forall s,
    NoDup s ->
    NoDup (fold_left (fun s key => set_add key s) keys s)
    /\ forall k, In k (fold_left (fun s key => set_add key s) keys s)
                 <-> In k s \/ In k keys.
Proof.
  induction keys as [|key keys IH]; intros s Hnd; simpl.
  - split; [exact Hnd|]. intros k. tauto.
  - destruct (IH _ (set_add_NoDup key s Hnd)) as [Hnd' Hin].
    split; [exact Hnd'|]. intros k. rewrite Hin, set_add_In.
    intuition.
Qed.

(** The keys the first loop collects: each key of the sample, once. *)
Lemma allKeys_of_keys (sampleData : list JSValue) (keys : list string) :
  allKeys_of sampleData = Some keys ->
  NoDup keys /\ forall k, In k keys <-> sample_key sampleData k.
Proof.
  unfold allKeys_of.
  assert (Hgen : forall acc, NoDup acc ->
             for_each add_keys sampleData acc = Some keys ->
             NoDup keys
             /\ forall k, In k keys <-> In k acc \/ sample_key sampleData k).
  { unfold sample_key.
    induction sampleData as [|item items IH]; intros acc Hacc; simpl.
    - intros [= <-]. split; [exact Hacc|]. intros k. split; [now left|].
      intros [Hin|(item & fl & [] & _)]. exact Hin.
    - destruct (add_keys acc item) as [acc'|] eqn:Hadd; [|discriminate].
      intros Hrest. unfold add_keys in Hadd.
      destruct (is_record item) eqn:Hrec.
      + destruct (flattenData item EmptyString) as [fl|] eqn:Hfl; [|discriminate].
        simpl in Hadd. injection Hadd as <-.
        destruct (set_add_all (Object_keys (own fl)) acc Hacc) as [Hnd' Hin'].
        destruct (IH _ Hnd' Hrest) as [Hnd Hin]. split; [exact Hnd|].
        intros k. rewrite Hin, Hin'. split.
        * intros [[Hk|Hk]|(it & fl' & Hit & Hr & Hf & Hk)].
          -- now left.
          -- right. exists item, fl. repeat split; auto.
          -- right. exists it, fl'. repeat split; auto.
        * intros [Hk|(it & fl' & [<-|Hit] & Hr & Hf & Hk)].
          -- left. now left.
          -- left. right. congruence.
          -- right. exists it, fl'. repeat split; auto.
      + injection Hadd as <-.
        destruct (IH _ Hacc Hrest) as [Hnd Hin]. split; [exact Hnd|].
        intros k. rewrite Hin. split.
        * intros [Hk|(it & fl' & Hit & Hr & Hf & Hk)]; [now left|].
          right. exists it, fl'. repeat split; auto.
        * intros [Hk|(it & fl' & [<-|Hit] & Hr & Hf & Hk)]; [now left|congruence|].
          right. exists it, fl'. repeat split; auto. }
  intros Hkeys. destruct (Hgen [] (NoDup_nil _) Hkeys) as [Hnd Hin].
  split; [exact Hnd|]. intros k. rewrite Hin. simpl. tauto.
Qed.

Lemma column_flattenings (sampleData : list JSValue) (flats : list Obj)
      (key : string) :
  flattenings sampleData = Some flats ->
  column sampleData key = Some (map (obj_get key) flats).
Proof.
  unfold column, flattenings. intros Hfl. now rewrite map_all_map, Hfl.
Qed.

Lemma push_field_flattenings (sampleData : list JSValue) (flats : list Obj)
      (fields : list FieldInfo) (key : string) :
  flattenings sampleData = Some flats ->
  push_field sampleData fields key = Some (push_sampled flats fields key).
Proof.
  intros Hfl. unfold push_field. now rewrite (column_flattenings _ _ key Hfl).
Qed.

(** [analyzeFields] throws exactly when flattening a sampled value does;
    otherwise it sorts the fields of the keys that have a sample. *)
Lemma analyzeFields_thrown (data : JSValue) :
  analyzeFields data = None <-> flattenings (sampleData_of data) = None.
Proof.
  unfold analyzeFields. rewrite <- allKeys_of_thrown.
  destruct (allKeys_of (sampleData_of data)) as [keys|] eqn:Hkeys;
    [|split; reflexivity].
  split; [|discriminate]. intros Hnone.
  destruct (flattenings (sampleData_of data)) as [flats|] eqn:Hfl.
  - rewrite (for_each_total _ (push_sampled flats)) in Hnone; [discriminate|].
    intros fields key _. now apply push_field_flattenings.
  - apply allKeys_of_thrown in Hfl. congruence.
Qed.

Lemma analyzeFields_returned (data : JSValue) (fields : list FieldInfo) :
  analyzeFields data = Some fields ->
  exists keys flats,
    allKeys_of (sampleData_of data) = Some keys
    /\ flattenings (sampleData_of data) = Some flats
    /\ fields = sort_fields (fold_left (push_sampled flats) keys []).
Proof.
  intros Hfields.
  destruct (flattenings (sampleData_of data)) as [flats|] eqn:Hfl.
  - unfold analyzeFields in Hfields.
    destruct (allKeys_of (sampleData_of data)) as [keys|] eqn:Hkeys; [|discriminate].
    rewrite (for_each_total _ (push_sampled flats)) in Hfields.
    + injection Hfields as <-. now exists keys, flats.
    + intros fs key _. now apply push_field_flattenings.
  - apply analyzeFields_thrown in Hfl. congruence.
Qed.

(** *** The fields that are pushed *)


Lemma In_push_sampled (flats : list Obj) (keys : list string) :
  forall acc f,
    In f (fold_left (push_sampled flats) keys acc) ->
    In f acc
    \/ exists v rest,
         samples flats (name f) = v :: rest
         /\ type f = detectFieldType (v :: rest)
         /\ sampleValue f = v.
Proof.
  induction keys as [|key keys IH]; intros acc f Hin; simpl in Hin; [now left|].
  destruct (IH _ _ Hin) as [Hacc|Hnew]; [|now right].
  unfold push_sampled in Hacc.
  destruct (samples flats key) as [|v rest] eqn:Hf;
    simpl in Hacc; [now left|].
  apply in_app_or in Hacc. destruct Hacc as [Hacc|[<-|[]]]; [now left|].
  right. exists v, rest. simpl. now rewrite Hf.
Qed.

Lemma push_sampled_names (flats : list Obj) (keys : list string) :
  forall acc,
    map name (fold_left (push_sampled flats) keys acc)
    = map name acc
      ++ filter (fun key => (0 <? List.length (samples flats key))%nat) keys.
Proof.
  induction keys as [|key keys IH]; intros acc; simpl.
  - now rewrite app_nil_r.
  - rewrite IH. unfold push_sampled.
    destruct (0 <? List.length (samples flats key))%nat.
    + rewrite map_app. simpl. now rewrite <- app_assoc.
    + reflexivity.
Qed.

Lemma analyzeFields_field (data : JSValue) (fields : list FieldInfo) (f : FieldInfo) :
  analyzeFields data = Some fields ->
  In f fields ->
  exists flats v rest,
    flattenings (sampleData_of data) = Some flats
    /\ samples flats (name f) = v :: rest
    /\ type f = detectFieldType (v :: rest)
    /\ sampleValue f = v.
Proof.
  intros Hfields Hin.
  destruct (analyzeFields_returned data fields Hfields)
    as (keys & flats & Hkeys & Hfl & ->).
  apply (Permutation_in _ (sort_fields_perm _)) in Hin.
  destruct (In_push_sampled _ _ _ _ Hin) as [[]|(v & rest & Hnew)].
  now exists flats, v, rest.
Qed.

(** A sampled value is read from the flattening of a sampled record. *)
Lemma samples_read (sampleData : list JSValue) (flats : list Obj)
      (key : string) (v : Value) :
  flattenings sampleData = Some flats ->
  In v (samples flats key) ->
  defined v = true
  /\ exists item flattened,
       In item sampleData
       /\ flattenData item EmptyString = Some flattened
       /\ obj_get key flattened = v.
Proof.
  intros Hfl Hin. unfold samples in Hin. apply filter_In in Hin.
  destruct Hin as [Hin Hdef]. split; [exact Hdef|].
  apply in_map_iff in Hin. destruct Hin as [fl [<- Hfl']].
  destruct (map_all_In _ _ _ _ Hfl Hfl') as [item [Hitem Hflat]].
  now exists item, fl.
Qed.

(** C9: no field [analyzeFields] returns has the type "array": a sampled
    value is a primitive [flattenData] stored or a member read from
    [Object.prototype], never an array. *)
Theorem analyzeFields_no_array (data : JSValue) (fields : list FieldInfo)
        (f : FieldInfo) :
  analyzeFields data = Some fields -> In f fields -> type f <> FArray.
Proof.
  intros Hfields Hin Harr.
  destruct (analyzeFields_field data fields f Hfields Hin)
    as (flats & v & rest & Hfl & Hf & Hty & _).
  rewrite Hty in Harr. apply detectFieldType_array in Harr. simpl in Harr.
  assert (Hv : In v (samples flats (name f))) by (rewrite Hf; now left).
  destruct (samples_read _ _ _ _ Hfl Hv) as [_ (item & fl & _ & Hflat & <-)].
  rewrite (obj_get_not_array (name f) fl) in Harr; [discriminate|].
  eapply flattenData_tidy. exact Hflat.
Qed.

End InferenceFacts.
(** ** [processDataForChart]: the rows that are built *)

Section RowFacts.
Context {N : JSNumber} {H : JSHost}.

(** No assignment of [chart_row] installs another prototype: what is
    assigned under a name was read under that name, or is a number. *)
Lemma obj_put_read_proto (k : string) (flattened result : Obj) :
  tidy flattened -> plain_proto result ->
  plain_proto (obj_put k (obj_get k flattened) result).
Proof.
  intros Hfl Hres. unfold obj_put.
  destruct (String.eqb_spec k "__proto__") as [->|_]; [|exact Hres].
  destruct (reaches_accessor result); [|exact Hres].
  destruct (obj_get_tidy "__proto__" flattened Hfl) as [Hp|(_ & _ & ->)].
  - destruct (obj_get "__proto__" flattened) as [[| |b|n|s|e|p]|f|];
      simpl in *; try discriminate; try exact Hres; exact I.
  - exact I.
Qed.

Lemma obj_put_y_proto (config : ChartConfig) (flattened result : Obj) :
  tidy flattened -> plain_proto result ->
  plain_proto
    (obj_put (yAxis config)
       match obj_get (yAxis config) flattened with
       | Plain (JStr s) =>
           if negb (num_isNaN (Number_of_string s))
           then Plain (JNum (Number_of_string s))
           else obj_get (yAxis config) flattened
       | _ => obj_get (yAxis config) flattened
       end result).
Proof.
  intros Hfl Hres.
  pose proof (obj_put_read_proto (yAxis config) flattened result Hfl Hres) as Hread.
  destruct (obj_get (yAxis config) flattened) as [[| |b|n|s|e|p]|f|];
    try exact Hread.
  destruct (negb (num_isNaN (Number_of_string s))); [|exact Hread].
  unfold obj_put.
  destruct (String.eqb (yAxis config) "__proto__" && reaches_accessor result);
    exact Hres.
Qed.

(** The rows have [Object.prototype] or [null] as prototype. *)
Lemma chart_row_proto (config : ChartConfig) (item : JSValue) (row : Obj) :
  chart_row config item = Some row -> plain_proto row.
Proof.
  unfold chart_row.
  destruct (flattenData item EmptyString) as [fl|] eqn:Hfl; [|discriminate].
  pose proof (flattenData_tidy item _ fl Hfl) as Htidy.
  intros [= <-].
  assert (Hxy : plain_proto
                  (obj_put (yAxis config)
                     match obj_get (yAxis config) fl with
                     | Plain (JStr s) =>
                         if negb (num_isNaN (Number_of_string s))
                         then Plain (JNum (Number_of_string s))
                         else obj_get (yAxis config) fl
                     | _ => obj_get (yAxis config) fl
                     end
                     (obj_put (xAxis config) (obj_get (xAxis config) fl)
                              empty_object))).
  { apply obj_put_y_proto; [exact Htidy|].
    apply obj_put_read_proto; [exact Htidy | exact I]. }
  destruct (groupBy_field config) as [g|]; [|exact Hxy].
  now apply obj_put_read_proto.
Qed.

(** Every row kept has an X value other than [undefined] and a number as
    Y value. *)
Lemma processed_rows_values (config : ChartConfig) (data : JSValue)
      (rows : list Obj) (row : Obj) :
  processed_rows config data = Some rows ->
  In row rows ->
  obj_get (xAxis config) row <> Plain JUndefined
  /\ exists n, obj_get (yAxis config) row = Plain (JNum n).
Proof.
  intros Hrows Hin. apply chart_keep_spec.
  pose proof (processed_rows_kept _ _ _ Hrows) as Hkept.
  rewrite Forall_forall in Hkept. now apply Hkept.
Qed.

(** Away from the name [__proto__], a record is dropped when reading
    its flattening gives no X value, no Y value, or a Y value that is
    neither a number nor a numeric string.  The read is the one the code
    does: it finds the inherited member when the record has no property
    of the name. *)
Lemma chart_row_unusable (config : ChartConfig) (item : JSValue)
      (flattened row : Obj) :
  flattenData item EmptyString = Some flattened ->
  chart_row config item = Some row ->
  xAxis config <> "__proto__" ->
  yAxis config <> "__proto__" ->
  groupBy_field config <> Some "__proto__" ->
  obj_get (xAxis config) flattened = Plain JUndefined
  \/ obj_get (yAxis config) flattened = Plain JUndefined
  \/ usable_y (obj_get (yAxis config) flattened) = false ->
  chart_keep config row = false.
Proof.
  intros Hfl Hrow Hx Hy Hg Hbad. unfold chart_row in Hrow.
  rewrite Hfl in Hrow. injection Hrow as <-.
  unfold chart_keep.
  rewrite (obj_put_plain (xAxis config) _ _ Hx).
  rewrite (obj_put_plain (yAxis config) _ _ Hy).
  assert (Hrows :
            forall result,
              match groupBy_field config with
              | Some g => obj_put g (obj_get g flattened) result
              | None => result
              end
              = match groupBy_field config with
                | Some g => {| own := obj_set g (obj_get g flattened) (own result);
                               proto := proto result |}
                | None => result
                end).
  { intros result. destruct (groupBy_field config) as [g|]; [|reflexivity].
    apply obj_put_plain. congruence. }
  rewrite Hrows. clear Hrows. unfold empty_object. cbn [own proto].
  destruct (groupBy_field config) as [g|];
    rewrite ?obj_get_defined;
    change (obj_get (xAxis config) {| own := []; proto := ProtoObject |})
      with (inherited (xAxis config));
    change (obj_get (yAxis config) {| own := []; proto := ProtoObject |})
      with (inherited (yAxis config));
    repeat match goal with
           | |- context [String.eqb ?a ?b] =>
               destruct (String.eqb_spec a b); subst
           end;
    try congruence;
    destruct Hbad as [Hb|[Hb|Hb]];
    try (rewrite Hb; reflexivity);
    destruct (obj_get (xAxis config) flattened) as [[| |bx|nx|sx|ex|px]|fx|] eqn:Hxv;
    destruct (obj_get (yAxis config) flattened) as [[| |vb|vn|vs|ve|vp]|vf|] eqn:Hyv;
    simpl in *; try discriminate; try reflexivity;
    try congruence;
    repeat match goal with
           | Hq : ?a = ?b |- _ => rewrite Hq in *
           end;
    simpl in *; try discriminate; try reflexivity; try congruence.
Qed.
End RowFacts.
(** ** [processDataForChart]: the two reducers *)

Section KeyedFacts.
Context {A : Type}.
Implicit Types (o : list (string * A)) (k : string) (v : A).

Lemma obj_replace_keys k v o : map fst (obj_replace k v o) = map fst o.
Proof.
  induction o as [|[k0 v0] o IH]; simpl; [reflexivity|].
  destruct (String.eqb k k0); simpl; [reflexivity | now rewrite IH].
Qed.

Lemma obj_insert_index_perm n k v o :
  Permutation (obj_insert_index n k v o) ((k, v) :: o).
Proof.
  induction o as [|[k0 v0] o IH]; simpl; [reflexivity|].
  destruct (array_index k0) as [m|]; [destruct (m <? n)%N|]; try reflexivity.
  rewrite IH. apply perm_swap.
Qed.

(** A new property is added to the others, whatever its place. *)
Lemma obj_set_new_perm k v o :
  obj_has k o = false -> Permutation (obj_set k v o) ((k, v) :: o).
Proof.
  intros Hno. unfold obj_set. rewrite Hno.
  destruct (array_index k) as [n|].
  - apply obj_insert_index_perm.
  - symmetry. apply Permutation_cons_append.
Qed.

Lemma obj_has_false k o : obj_has k o = false <-> ~ In k (map fst o).
Proof.
  rewrite <- obj_lookup_None. unfold obj_has.
  destruct (obj_lookup k o); split; congruence.
Qed.

Lemma obj_has_true k o : obj_has k o = true <-> In k (map fst o).
Proof.
  split.
  - intros Hhas. apply obj_has_lookup in Hhas. destruct Hhas as [v Hv].
    apply obj_lookup_In in Hv. apply in_map_iff. now exists (k, v).
  - intros Hin. destruct (obj_has k o) eqn:Hhas; [reflexivity|].
    apply obj_has_false in Hhas. contradiction.
Qed.

Lemma NoDup_keys_lookup k v o :
  NoDup (map fst o) -> In (k, v) o -> obj_lookup k o = Some v.
Proof.
  induction o as [|[k0 v0] o IH]; simpl; [tauto|].
  intros Hnd [Heq|Hin].
  - inversion Heq; subst. now rewrite String.eqb_refl.
  - inversion Hnd as [|? ? Hnotin Hnd']; subst.
    destruct (String.eqb_spec k k0) as [->|_].
    + elim Hnotin. apply in_map_iff. now exists (k0, v).
    + now apply IH.
Qed.
End KeyedFacts.

Section ReducerFacts.
Context {N : JSNumber} {H : JSHost}.
Variables (key : Obj -> string) (init : Obj -> Obj) (upd : Obj -> Obj -> Obj).

Lemma row_update_lookup (k k' : string) (g : Obj -> Obj) (acc : list (string * Obj)) :
  obj_lookup k' (row_update k g acc) =
  if String.eqb k' k then option_map g (obj_lookup k acc) else obj_lookup k' acc.
Proof.
  unfold row_update. destruct (obj_lookup k acc) as [row|] eqn:Hk.
  - rewrite obj_lookup_replace. unfold obj_has. rewrite Hk. reflexivity.
  - destruct (String.eqb_spec k' k) as [->|_]; [exact Hk | reflexivity].
Qed.

Lemma row_update_keys (k : string) (g : Obj -> Obj) (acc : list (string * Obj)) :
  map fst (row_update k g acc) = map fst acc.
Proof.
  unfold row_update. destruct (obj_lookup k acc); [|reflexivity].
  apply obj_replace_keys.
Qed.

Lemma row_update_twice (k : string) (g1 g2 : Obj -> Obj) (acc : list (string * Obj)) :
  row_update k g2 (row_update k g1 acc) = row_update k (fun row => g2 (g1 row)) acc.
Proof.
  unfold row_update at 2 3. destruct (obj_lookup k acc) as [row|] eqn:Hk.
  - unfold row_update. rewrite obj_lookup_replace, String.eqb_refl.
    unfold obj_has. rewrite Hk. clear Hk.
    induction acc as [|[k0 v0] acc IH]; simpl; [reflexivity|].
    destruct (String.eqb_spec k k0) as [->|Hne]; simpl.
    + now rewrite String.eqb_refl.
    + destruct (String.eqb_spec k k0); [contradiction|]. now rewrite IH.
  - unfold row_update. now rewrite Hk.
Qed.

Lemma row_update_has (k k' : string) (g : Obj -> Obj) (acc : list (string * Obj)) :
  acc_has k' (row_update k g acc) = acc_has k' acc.
Proof.
  unfold acc_has, obj_has. rewrite row_update_lookup.
  destruct (String.eqb_spec k' k) as [->|_]; [|reflexivity].
  now destruct (obj_lookup k acc).
Qed.

(** [acc[key][f] += v] once [acc[key]] is truthy: the update of the
    entry, unless [acc[key]] is an inherited function that rejects [f]. *)
Lemma entry_add_has (k f : string) (v : Value) (acc : list (string * Obj)) :
  acc_has k acc = true ->
  member_rejects k f = false ->
  entry_add k f v acc = Some (row_update k (add_to f v) acc).
Proof.
  intros Hhas Hf. unfold entry_add, row_update, acc_has, obj_has in *.
  destruct (obj_lookup k acc) as [row|]; [reflexivity|].
  simpl in Hhas.
  destruct (inherited_cases k) as [[_ ->]|[[_ ->]|[Hm _]]];
    [reflexivity | now rewrite Hf | congruence].
Qed.

(** Only the [prototype] of [Object] is refused besides what every
    function refuses. *)
Lemma member_rejects_other (m f : string) :
  function_rejects f = false -> f <> "prototype" -> member_rejects m f = false.
Proof.
  intros Hf Hne. unfold member_rejects. rewrite Hf. simpl.
  destruct (String.eqb_spec f "prototype"); [contradiction | apply andb_false_r].
Qed.

Lemma contains_underscore_append (p q : string) :
  contains_underscore (p ++ "_" ++ q) = true.
Proof.
  unfold contains_underscore. induction p as [|c p IH]; simpl in *.
  - reflexivity.
  - rewrite IH. apply orb_true_r.
Qed.

(** A key with an underscore does not name [Object]. *)
Lemma member_rejects_underscore (k f : string) :
  contains_underscore k = true ->
  function_rejects f = false ->
  member_rejects k f = false.
Proof.
  intros Hk Hf. unfold member_rejects. rewrite Hf. simpl.
  destruct (String.eqb_spec k "constructor") as [->|_]; [discriminate | reflexivity].
Qed.

Lemma entry_add_keys (k f : string) (v : Value) (acc acc' : list (string * Obj)) :
  entry_add k f v acc = Some acc' -> map fst acc' = map fst acc.
Proof.
  unfold entry_add. destruct (obj_lookup k acc) as [row|].
  - intros [= <-]. apply obj_replace_keys.
  - destruct (inherited k) as [p|m|]; [discriminate| |now intros [= <-]].
    destruct (member_rejects m f); [discriminate | now intros [= <-]].
Qed.

(** After the test and the creation, [acc[key]] is truthy. *)
Lemma created_has (k : string) (entry : Obj) (acc : list (string * Obj)) :
  acc_has k (if negb (acc_has k acc) then obj_set k entry acc else acc) = true.
Proof.
  destruct (acc_has k acc) eqn:Hhas; simpl; [exact Hhas|].
  unfold acc_has, obj_has. now rewrite obj_lookup_set_same.
Qed.

(** The entry of a key after one row: updated when there is one, created
    and updated when there is none and the key names no inherited
    member. *)
Lemma keyed_step_lookup (acc : list (string * Obj)) (item : Obj) (k : string) :
  obj_lookup k (keyed_step key init upd acc item) =
  if String.eqb k (key item)
  then match obj_lookup (key item) acc with
       | Some e => Some (upd item e)
       | None => if inherits_member (key item) then None
                 else Some (upd item (init item))
       end
  else obj_lookup k acc.
Proof.
  unfold keyed_step, acc_has. rewrite row_update_lookup. unfold obj_has.
  destruct (obj_lookup (key item) acc) as [e|] eqn:Hk; simpl.
  - rewrite Hk. reflexivity.
  - destruct (inherits_member (key item)); simpl.
    + rewrite Hk. now destruct (String.eqb k (key item)).
    + rewrite obj_lookup_set_same. simpl.
      destruct (String.eqb_spec k (key item)) as [->|Hne]; [reflexivity|].
      now apply obj_lookup_set_other.
Qed.

Lemma keyed_step_keys (acc : list (string * Obj)) (item : Obj) :
  if acc_has (key item) acc
  then map fst (keyed_step key init upd acc item) = map fst acc
  else Permutation (map fst (keyed_step key init upd acc item))
                   (key item :: map fst acc).
Proof.
  unfold keyed_step. destruct (acc_has (key item) acc) eqn:Hk; simpl.
  - apply row_update_keys.
  - rewrite row_update_keys.
    change (key item :: map fst acc)
      with (map fst ((key item, init item) :: acc)).
    apply Permutation_map. apply obj_set_new_perm.
    unfold acc_has in Hk. apply orb_false_iff in Hk. apply Hk.
Qed.

Lemma keyed_fold_lookup (rows : list Obj) :
  forall (acc : list (string * Obj)) (k : string),
    obj_lookup k (fold_left (keyed_step key init upd) rows acc) =
    entry_after key init upd k rows (obj_lookup k acc).
Proof.
  induction rows as [|item rows IH]; intros acc k; simpl; [reflexivity|].
  rewrite IH, keyed_step_lookup. unfold entry_after. simpl.
  destruct (String.eqb_spec k (key item)) as [->|_]; reflexivity.
Qed.

(** The keys of the result: those of the rows, but for the names of
    inherited members. *)
Lemma keyed_fold_keys (rows : list Obj) :
  forall acc : list (string * Obj),
    NoDup (map fst acc) ->
    NoDup (map fst (fold_left (keyed_step key init upd) rows acc))
    /\ forall k, In k (map fst (fold_left (keyed_step key init upd) rows acc))
                 <-> In k (map fst acc)
                     \/ (inherits_member k = false
                         /\ exists row, In row rows /\ key row = k).
Proof.
  induction rows as [|item rows IH]; intros acc Hnd; simpl.
  - split; [exact Hnd|]. intros k. split; [now left|].
    intros [Hin|[_ [row [[] _]]]]. exact Hin.
  - pose proof (keyed_step_keys acc item) as Hkeys.
    destruct (acc_has (key item) acc) eqn:Hhas.
    + assert (Hnd' : NoDup (map fst (keyed_step key init upd acc item)))
        by now rewrite Hkeys.
      destruct (IH _ Hnd') as [Hnd2 Hin2]. split; [exact Hnd2|].
      intros k. rewrite Hin2, Hkeys. split.
      * intros [Hin|[Hm [row [Hrow Hk]]]]; [now left|].
        right. split; [exact Hm|]. exists row. auto.
      * intros [Hin|[Hm [row [[<-|Hrow] Hk]]]]; [now left| |].
        -- left. subst k. unfold acc_has in Hhas. rewrite Hm in Hhas.
           rewrite orb_false_r in Hhas. now apply obj_has_true.
        -- right. split; [exact Hm|]. now exists row.
    + assert (Hno : obj_has (key item) acc = false
                    /\ inherits_member (key item) = false)
        by (unfold acc_has in Hhas; now apply orb_false_iff in Hhas).
      destruct Hno as [Hown Hmember].
      assert (Hnd' : NoDup (map fst (keyed_step key init upd acc item))).
      { apply (Permutation_NoDup (Permutation_sym Hkeys)).
        constructor; [now apply obj_has_false | exact Hnd]. }
      destruct (IH _ Hnd') as [Hnd2 Hin2]. split; [exact Hnd2|].
      intros k. rewrite Hin2. split.
      * intros [Hin|[Hm [row [Hrow Hk]]]].
        -- apply (Permutation_in _ Hkeys) in Hin. destruct Hin as [<-|Hin].
           ++ right. split; [exact Hmember|]. exists item. auto.
           ++ now left.
        -- right. split; [exact Hm|]. exists row. auto.
      * intros [Hin|[Hm [row [[<-|Hrow] Hk]]]].
        -- left. apply (Permutation_in _ (Permutation_sym Hkeys)). now right.
        -- left. apply (Permutation_in _ (Permutation_sym Hkeys)). now left.
        -- right. split; [exact Hm|]. now exists row.
Qed.

(** Rows of other keys do not touch an entry. *)
Lemma entry_after_filter (k : string) (rows : list Obj) :
  forall entry,
    entry_after key init upd k rows entry =
    entry_after key init upd k (rows_of_key key k rows) entry.
Proof.
  unfold entry_after, rows_of_key.
  induction rows as [|item rows IH]; intros entry; simpl; [reflexivity|].
  destruct (String.eqb k (key item)) eqn:Hk; simpl.
  - rewrite Hk. apply IH.
  - apply IH.
Qed.

Lemma entry_after_cons (k : string) (item : Obj) (rows : list Obj)
      (entry : option Obj) :
  entry_after key init upd k (item :: rows) entry =
  entry_after key init upd k rows
    (if String.eqb k (key item)
     then match entry with
          | Some e => Some (upd item e)
          | None => if inherits_member k then None
                    else Some (upd item (init item))
          end
     else entry).
Proof. reflexivity. Qed.

Lemma rows_of_key_cons (k : string) (item : Obj) (rows : list Obj) :
  rows_of_key key k (item :: rows) =
  if String.eqb k (key item) then item :: rows_of_key key k rows
  else rows_of_key key k rows.
Proof. reflexivity. Qed.

Lemma keyed_step_length (acc : list (string * Obj)) (item : Obj) :
  (List.length (keyed_step key init upd acc item) <= S (List.length acc))%nat.
Proof.
  pose proof (keyed_step_keys acc item) as Hkeys.
  rewrite <- (length_map fst (keyed_step key init upd acc item)).
  rewrite <- (length_map fst acc).
  destruct (acc_has (key item) acc).
  - rewrite Hkeys. lia.
  - rewrite (Permutation_length Hkeys). simpl. lia.
Qed.

Lemma keyed_fold_length (rows : list Obj) :
  forall acc,
    (List.length (fold_left (keyed_step key init upd) rows acc)
     <= List.length acc + List.length rows)%nat.
Proof.
  induction rows as [|item rows IH]; intros acc; simpl; [lia|].
  specialize (IH (keyed_step key init upd acc item)).
  pose proof (keyed_step_length acc item). lia.
Qed.
End ReducerFacts.

Section PieFacts.
Context {N : JSNumber} {H : JSHost}.
Variable config : ChartConfig.

Lemma pie_step_keyed (acc : list (string * Obj)) (item : Obj) :
  pie_step config acc item =
  Some (keyed_step (pie_key config) (pie_init config) (pie_upd config) acc item).
Proof.
  unfold pie_step, keyed_step. apply entry_add_has; [apply created_has|].
  apply member_rejects_other; [reflexivity | discriminate].
Qed.

(** The pie reducer never throws. *)
Lemma pie_fold_keyed (rows : list Obj) (acc : list (string * Obj)) :
  for_each (pie_step config) rows acc =
  Some (fold_left (keyed_step (pie_key config) (pie_init config) (pie_upd config))
                  rows acc).
Proof.
  apply for_each_total. intros acc' item _. apply pie_step_keyed.
Qed.

Lemma kept_y (row : Obj) :
  chart_keep config row = true ->
  obj_get (yAxis config) row = Plain (JNum (y_of config row)).
Proof.
  intros Hk. apply chart_keep_spec in Hk. destruct Hk as [_ [n Hn]].
  unfold y_of. now rewrite Hn.
Qed.

Lemma pie_upd_entry (item : Obj) (x0 : Value) (s : num) :
  chart_keep config item = true ->
  pie_upd config item (pie_entry x0 s) =
  pie_entry x0 (num_add s (y_of config item)).
Proof.
  intros Hk. unfold pie_upd, add_to. rewrite (kept_y item Hk). reflexivity.
Qed.

Lemma pie_entry_some (k : string) (rows : list Obj) :
  Forall (fun row => chart_keep config row = true) rows ->
  forall (x0 : Value) (s : num),
    entry_after (pie_key config) (pie_init config) (pie_upd config) k rows
                (Some (pie_entry x0 s)) =
    Some (pie_entry x0
            (fold_left (fun total row => num_add total (y_of config row))
                       (rows_of_key (pie_key config) k rows) s)).
Proof.
  induction 1 as [|item rows Hk _ IH]; intros x0 s; [reflexivity|].
  rewrite entry_after_cons, rows_of_key_cons.
  destruct (String.eqb k (pie_key config item)).
  - rewrite (pie_upd_entry item x0 s Hk). apply IH.
  - apply IH.
Qed.

Lemma pie_entry_none (k : string) (rows : list Obj) :
  inherits_member k = false ->
  Forall (fun row => chart_keep config row = true) rows ->
  entry_after (pie_key config) (pie_init config) (pie_upd config) k rows None =
  match find (fun row => String.eqb k (pie_key config row)) rows with
  | Some first =>
      Some (pie_entry (obj_get (xAxis config) first)
                      (sum_y config (rows_of_key (pie_key config) k rows)))
  | None => None
  end.
Proof.
  intros Hm. induction 1 as [|item rows Hk Hrows IH]; [reflexivity|].
  rewrite entry_after_cons, rows_of_key_cons. simpl find.
  destruct (String.eqb k (pie_key config item)).
  - rewrite Hm. unfold pie_init. rewrite (pie_upd_entry item _ _ Hk).
    apply (pie_entry_some k rows Hrows).
  - exact IH.
Qed.

(** X1: Pie mode without group-by: the result lists, without repetition,
    one entry per string key of an X value among the kept rows, the names
    of the members plain objects inherit excepted (their rows are lost);
    the entry's "name" is the X value of the first row of the key and its
    "value" the sum of the Y values of the rows of the key. *)
Theorem processDataForChart_pie (data : JSValue) (rows : list Obj) :
  truthy_opt (groupBy config) = false ->
  chartType config = Pie ->
  processed_rows config data = Some rows ->
  exists acc : list (string * Obj),
    processDataForChart data config = Some (map snd acc)
    /\ NoDup (map fst acc)
    /\ (forall k, In k (map fst acc) <->
                  inherits_member k = false
                  /\ exists row, In row rows /\ pie_key config row = k)
    /\ (forall k entry,
          In (k, entry) acc ->
          exists first,
            find (fun row => String.eqb k (pie_key config row)) rows = Some first
            /\ entry =
               pie_entry (obj_get (xAxis config) first)
                         (sum_y config (rows_of_key (pie_key config) k rows))).
Proof.
  intros Hg Hpie Hrows.
  exists (fold_left (keyed_step (pie_key config) (pie_init config) (pie_upd config))
                    rows []).
  destruct (keyed_fold_keys (pie_key config) (pie_init config) (pie_upd config)
                            rows [] (NoDup_nil _)) as [Hnd Hkeys].
  assert (Hin : forall k,
             In k (map fst (fold_left (keyed_step (pie_key config) (pie_init config)
                                                  (pie_upd config)) rows [])) <->
             inherits_member k = false
             /\ exists row, In row rows /\ pie_key config row = k).
  { intros k. rewrite Hkeys. simpl. tauto. }
  split; [|split; [|split]].
  - unfold processDataForChart. rewrite Hrows, Hg, Hpie, pie_fold_keyed. reflexivity.
  - exact Hnd.
  - exact Hin.
  - intros k entry Hentry.
    assert (Hm : inherits_member k = false).
    { apply (Hin k). apply in_map_iff. now exists (k, entry). }
    apply (NoDup_keys_lookup _ _ _ Hnd) in Hentry.
    rewrite keyed_fold_lookup in Hentry. simpl in Hentry.
    rewrite (pie_entry_none k rows Hm (processed_rows_kept _ _ _ Hrows)) in Hentry.
    destruct (find (fun row => String.eqb k (pie_key config row)) rows) as [first|];
      [|discriminate].
    exists first. split; [reflexivity|]. now inversion Hentry.
Qed.
End PieFacts.

Section GroupFacts.
Context {N : JSNumber} {H : JSHost}.
Variables (config : ChartConfig) (g : string).
Hypothesis group_field : groupBy_field config = Some g.
Hypothesis y_not_count : yAxis config <> "count".
Hypothesis y_not_group : yAxis config <> g.
Hypothesis x_not_y : xAxis config <> yAxis config.
Hypothesis x_not_count : xAxis config <> "count".
Hypothesis group_not_count : g <> "count".
Hypothesis group_not_proto : g <> "__proto__".
Hypothesis y_assignable : function_rejects (yAxis config) = false.
Hypothesis y_not_member : inherits_member (yAxis config) = false.

Lemma group_step_keyed (acc : list (string * Obj)) (item : Obj) :
  group_step config acc item =
  Some (keyed_step (group_key config) (group_init config) (group_upd config)
                   acc item).
Proof.
  unfold group_step, keyed_step.
  rewrite (entry_add_has _ (yAxis config));
    [|apply created_has
     |apply member_rejects_underscore;
        [apply contains_underscore_append | exact y_assignable]].
  rewrite (entry_add_has _ "count");
    [|rewrite row_update_has; apply created_has
     |apply member_rejects_other; [reflexivity | discriminate]].
  rewrite row_update_twice. reflexivity.
Qed.

(** With such a Y field the group-by reducer does not throw. *)
Lemma group_fold_keyed (rows : list Obj) (acc : list (string * Obj)) :
  for_each (group_step config) rows acc =
  Some (fold_left (keyed_step (group_key config) (group_init config)
                              (group_upd config)) rows acc).
Proof.
  apply for_each_total. intros acc' item _. apply group_step_keyed.
Qed.

Ltac read_entry :=
  simpl own; rewrite ?obj_lookup_set; simpl obj_lookup;
  repeat match goal with
         | |- context [String.eqb ?a ?b] =>
             destruct (String.eqb_spec a b); try congruence
         end.

Lemma group_init_entry (item : Obj) :
  group_entry config g (obj_get (xAxis config) item) (obj_get g item)
              num_zero num_zero (group_init config item).
Proof.
  unfold group_entry, group_init, group_value. rewrite group_field.
  rewrite (obj_put_plain g _ _ group_not_proto).
  repeat split; read_entry.
Qed.

Lemma add_to_own (f : string) (v w : Value) (entry : Obj) :
  obj_lookup f (own entry) = Some w ->
  add_to f v entry =
  {| own := obj_set f (js_plus w v) (own entry); proto := proto entry |}.
Proof.
  intros Hf. unfold add_to. rewrite (obj_get_own f w entry Hf).
  apply obj_put_own. unfold obj_has. now rewrite Hf.
Qed.

Lemma group_upd_entry (item : Obj) (x0 gv : Value) (s c : num) (entry : Obj) :
  chart_keep config item = true ->
  group_entry config g x0 gv s c entry ->
  group_entry config g x0 gv (num_add s (y_of config item)) (num_add c num_one)
              (group_upd config item entry).
Proof.
  intros Hk (Hx & Hgv & Hy & Hc). unfold group_entry, group_upd.
  rewrite (kept_y config item Hk).
  rewrite (add_to_own (yAxis config) _ _ entry Hy).
  rewrite (add_to_own "count" _ (Plain (JNum c))).
  - repeat split; read_entry; reflexivity.
  - simpl own. rewrite obj_lookup_set.
    destruct (String.eqb_spec "count" (yAxis config)); [congruence | exact Hc].
Qed.

Lemma group_entry_some (k : string) (rows : list Obj) :
  Forall (fun row => chart_keep config row = true) rows ->
  forall (x0 gv : Value) (s c : num) (entry : Obj),
    group_entry config g x0 gv s c entry ->
    exists entry',
      entry_after (group_key config) (group_init config) (group_upd config)
                  k rows (Some entry) = Some entry'
      /\ group_entry config g x0 gv
           (fold_left (fun total row => num_add total (y_of config row))
                      (rows_of_key (group_key config) k rows) s)
           (fold_left (fun total _ => num_add total num_one)
                      (rows_of_key (group_key config) k rows) c)
           entry'.
Proof.
  induction 1 as [|item rows Hk _ IH]; intros x0 gv s c entry He.
  - now exists entry.
  - rewrite entry_after_cons, rows_of_key_cons.
    destruct (String.eqb k (group_key config item)).
    + apply IH. now apply group_upd_entry.
    + now apply IH.
Qed.

Lemma group_entry_none (k : string) (rows : list Obj) :
  inherits_member k = false ->
  Forall (fun row => chart_keep config row = true) rows ->
  match find (fun row => String.eqb k (group_key config row)) rows with
  | Some first =>
      exists entry,
        entry_after (group_key config) (group_init config) (group_upd config)
                    k rows None = Some entry
        /\ group_entry config g
             (obj_get (xAxis config) first) (obj_get g first)
             (sum_y config (rows_of_key (group_key config) k rows))
             (count_of (rows_of_key (group_key config) k rows))
             entry
  | None =>
      entry_after (group_key config) (group_init config) (group_upd config)
                  k rows None = None
  end.
Proof.
  intros Hm. induction 1 as [|item rows Hk Hrows IH]; [reflexivity|].
  rewrite entry_after_cons, rows_of_key_cons. simpl find.
  destruct (String.eqb k (group_key config item)).
  - rewrite Hm. apply (group_entry_some k rows Hrows).
    apply group_upd_entry; [exact Hk | apply group_init_entry].
  - exact IH.
Qed.

(** X2: Group-by mode, when the X, Y and group-by fields and "count" are
    different names, the group-by field is not [__proto__] and the Y field
    is neither a property functions refuse to assign nor the name of a
    member plain objects inherit (a row whose key names such a member
    would overwrite it for the rows that follow): the result lists,
    without repetition, one entry per key [X_group] among the kept rows,
    the names of the members plain objects inherit excepted (their rows
    are lost); the entry carries, as own properties, the X and group
    values of the first row of the key, the sum of the Y values of the
    rows of the key, and their number. *)
Theorem processDataForChart_grouped (data : JSValue) (rows : list Obj) :
  processed_rows config data = Some rows ->
  exists acc : list (string * Obj),
    processDataForChart data config = Some (map snd acc)
    /\ NoDup (map fst acc)
    /\ (forall k, In k (map fst acc) <->
                  inherits_member k = false
                  /\ exists row, In row rows /\ group_key config row = k)
    /\ (forall k entry,
          In (k, entry) acc ->
          exists first,
            find (fun row => String.eqb k (group_key config row)) rows = Some first
            /\ group_entry config g
                 (obj_get (xAxis config) first) (obj_get g first)
                 (sum_y config (rows_of_key (group_key config) k rows))
                 (count_of (rows_of_key (group_key config) k rows))
                 entry).
Proof using All.
  intros Hrows.
  exists (fold_left (keyed_step (group_key config) (group_init config)
                                (group_upd config)) rows []).
  destruct (keyed_fold_keys (group_key config) (group_init config) (group_upd config)
                            rows [] (NoDup_nil _)) as [Hnd Hkeys].
  assert (Htruthy : truthy_opt (groupBy config) = true).
  { unfold groupBy_field in group_field. unfold truthy_opt.
    destruct (groupBy config) as [g'|]; [|discriminate].
    destruct (truthy_string g'); [reflexivity | discriminate]. }
  assert (Hin : forall k,
             In k (map fst (fold_left (keyed_step (group_key config)
                                                  (group_init config)
                                                  (group_upd config)) rows [])) <->
             inherits_member k = false
             /\ exists row, In row rows /\ group_key config row = k).
  { intros k. rewrite Hkeys. simpl. tauto. }
  split; [|split; [|split]].
  - unfold processDataForChart. rewrite Hrows, Htruthy, group_fold_keyed.
    reflexivity.
  - exact Hnd.
  - exact Hin.
  - intros k entry Hentry.
    assert (Hm : inherits_member k = false).
    { apply (Hin k). apply in_map_iff. now exists (k, entry). }
    apply (NoDup_keys_lookup _ _ _ Hnd) in Hentry.
    rewrite keyed_fold_lookup in Hentry. simpl in Hentry.
    pose proof (group_entry_none k rows Hm (processed_rows_kept _ _ _ Hrows)) as Hent.
    destruct (find (fun row => String.eqb k (group_key config row)) rows) as [first|].
    + destruct Hent as [entry' [Heq Hentry']]. exists first.
      split; [reflexivity|]. rewrite Heq in Hentry. now inversion Hentry; subst.
    + rewrite Hent in Hentry. discriminate.
Qed.
End GroupFacts.

Section LengthFacts.
Context {N : JSNumber} {H : JSHost}.

Lemma group_step_length (config : ChartConfig) (acc acc' : list (string * Obj))
      (item : Obj) :
  group_step config acc item = Some acc' ->
  (List.length acc' <= S (List.length acc))%nat.
Proof.
  unfold group_step.
  set (key := (value_toString (obj_get (xAxis config) item) ++ "_" ++ _)%string).
  set (created := if negb (acc_has key acc) then obj_set key _ acc else acc).
  destruct (entry_add key (yAxis config) (obj_get (yAxis config) item) created)
    as [acc1|] eqn:Hy; [|discriminate].
  intros Hcount.
  apply entry_add_keys in Hy. apply entry_add_keys in Hcount.
  rewrite <- (length_map fst acc'), Hcount, Hy, length_map.
  unfold created. destruct (acc_has key acc) eqn:Hhas; simpl; [lia|].
  unfold acc_has in Hhas. apply orb_false_iff in Hhas. destruct Hhas as [Hown _].
  rewrite (Permutation_length (obj_set_new_perm _ _ _ Hown)). simpl. lia.
Qed.

Lemma group_fold_length (config : ChartConfig) (rows : list Obj) :
  forall acc result,
    for_each (group_step config) rows acc = Some result ->
    (List.length result <= List.length acc + List.length rows)%nat.
Proof.
  induction rows as [|item rows IH]; intros acc result; simpl.
  - intros [= <-]. lia.
  - destruct (group_step config acc item) as [acc'|] eqn:Hstep; [|discriminate].
    intros Hrest. specialize (IH _ _ Hrest).
    pose proof (group_step_length _ _ _ _ Hstep). lia.
Qed.

(** X3: In every mode [processDataForChart], when it returns, returns at
    most one row per kept row, hence at most one per record. *)
Theorem processDataForChart_length (data : JSValue) (config : ChartConfig)
        (result : list Obj) :
  processDataForChart data config = Some result ->
  exists kept,
    processed_rows config data = Some kept
    /\ (List.length result <= List.length kept)%nat
    /\ (List.length kept <= List.length (as_array data))%nat.
Proof.
  unfold processDataForChart.
  destruct (processed_rows config data) as [kept|] eqn:Hkept; [|discriminate].
  intros Hresult. exists kept. split; [reflexivity|]. split.
  - unfold Object_values in Hresult.
    destruct (truthy_opt (groupBy config)).
    + destruct (for_each (group_step config) kept []) as [acc|] eqn:Hacc;
        [|discriminate].
      injection Hresult as <-. rewrite length_map.
      apply (group_fold_length config kept [] acc Hacc).
    + destruct (ChartType_eqb (chartType config) Pie).
      * rewrite pie_fold_keyed in Hresult. injection Hresult as <-.
        rewrite length_map. apply (keyed_fold_length _ _ _ _ []).
      * injection Hresult as <-. lia.
  - exact (processed_rows_length _ _ _ Hkept).
Qed.
End LengthFacts.
(** ** The code on concrete data *)

Section Runs.
Import IntRuntime Examples.

(** C1 as worded fails: with a date field and a string field but no
    number field the suggested type is "table", not "line". *)
Lemma suggestChartConfig_type_counterexample :
  has_type FDate date_and_text = true
  /\ option_map chartType (suggestChartConfig date_and_text) = Some Table
  /\ option_map chartType (suggestChartConfig date_and_text)
     <> Some (spec_chart_type date_and_text).
Proof. repeat split. discriminate. Qed.

(** C7 as worded fails: with date fields only there is no suggestion at
    all, hence no X axis. *)
Lemma suggestChartConfig_axes_counterexample :
  first_of FDate dates_only = Some (field "day" FDate (JStr "2024-03-01"))
  /\ suggestChartConfig dates_only = None
  /\ ~ exists cfg, suggestChartConfig dates_only = Some cfg /\ xAxis cfg = "day".
Proof.
  split; [reflexivity | split; [reflexivity|]].
  intros [cfg [Hcfg _]]. discriminate.
Qed.

Lemma suggestChartConfig_axes_witness :
  (exists cfg, suggestChartConfig date_number_text = Some cfg
               /\ xAxis cfg = "day")
  /\ (exists cfg, suggestChartConfig date_number_text = Some cfg
                  /\ yAxis cfg = "sales").
Proof.
  destruct (suggestChartConfig_axes date_number_text) as [Hx Hy].
  split.
  - apply (Hx (field "day" FDate (JStr "2024-03-01"))); reflexivity.
  - apply (Hy (field "sales" FNumber (int 12))); reflexivity.
Defined.

(** C3 as worded fails: "2024-03" is not a number and does not match the
    date regex, yet [Date.parse] accepts it and the field is a "date". *)
Lemma detectFieldType_string_counterexample :
  num_isNaN (Number_of_string "2024-03") = true
  /\ dateRegex_test "2024-03" = false
  /\ detectFieldType [Plain (JStr "2024-03")] = FDate
  /\ detectFieldType [Plain (JStr "2024-03")] <> spec_string_type "2024-03".
Proof. repeat split. discriminate. Qed.

(** C2 as worded fails: the array inside the root array occurs in the
    value but is not among the candidates. *)
Lemma findArrays_counterexample :
  occurs_in (JArr [int 1]) nested_arrays
  /\ findArrays nested_arrays EmptyString = [("root", [JArr [int 1]])]
  /\ forall p, ~ In (p, [int 1]) (findArrays nested_arrays EmptyString).
Proof.
  split; [|split].
  - eapply occurs_elem; [left; reflexivity | constructor].
  - reflexivity.
  - intros p [Heq|[]]. discriminate.
Qed.

(** An array is listed under its dotted path; below an empty first key
    it is listed too, under the path of the keys that follow. *)
Lemma findArrays_reachable_witness :
  In ("data.items", [int 1; int 2]) (findArrays response EmptyString)
  /\ In ("items", [int 1]) (findArrays unnamed_key EmptyString).
Proof.
  split.
  - apply (proj1 (findArrays_reachable response) ["data"; "items"]).
    eapply reaches_cons; [left; reflexivity|].
    eapply reaches_cons; [left; reflexivity|]. constructor.
  - apply (proj1 (findArrays_reachable unnamed_key) [EmptyString; "items"]).
    eapply reaches_cons; [left; reflexivity|].
    eapply reaches_cons; [left; reflexivity|]. constructor.
Defined.

Lemma saveApiRequest_authorized_witness :
  ApiHistory.saveApiRequest anonymous request [] = (inl "Unauthorized", [])
  /\ exists doc,
       ApiHistory.saveApiRequest signed_in request [] = (inr 0%nat, [doc])
       /\ ApiHistory.userId doc = "user_1".
Proof.
  split.
  - apply (proj1 (saveApiRequest_authorized anonymous request [])). reflexivity.
  - destruct (proj1 (proj2 (saveApiRequest_authorized signed_in request []))
                "user_1" eq_refl eq_refl) as [doc [Hrun [Huid _]]].
    exists doc. split; assumption.
Defined.

(** The fields of [records]. *)
Lemma analyzeFields_records :
  analyzeFields (JArr records)
  = Some [ field "day" FDate (JStr "2024-03");
           field "id" FNumber (int 1);
           field "tags" FString (JStr (JSON_stringify (JArr [JStr "a"]))) ].
Proof. reflexivity. Qed.

Lemma analyzeFields_no_array_witness :
  type (field "tags" FString (JStr (JSON_stringify (JArr [JStr "a"])))) <> FArray.
Proof.
  apply (analyzeFields_no_array (JArr records) _ _ analyzeFields_records).
  right. right. left. reflexivity.
Defined.


(** A record with an own "hasOwnProperty" makes the analysis throw. *)
Lemma analyzeFields_shadowing : analyzeFields (JArr shadowing) = None.
Proof. reflexivity. Qed.

(** The rows kept of [mixed_sales]: a numeric string is replaced by its
    number; the records without a usable Y or without X are left out. *)
Lemma processDataForChart_mixed :
  processDataForChart mixed_sales (chart Bar None)
  = Some [ row [("x", JStr "north"); ("y", int 7)];
           row [("x", JStr "west"); ("y", int 5)] ].
Proof. reflexivity. Qed.

(** C10 fails on the code.  For [builders] the analysis suggests the X
    axis "constructor"; the second record has no such field, yet its row
    is kept, with the function every plain object inherits under that
    name as X value.  And a record with a property "hasOwnProperty" is
    not dropped: flattening it throws. *)
Lemma processDataForChart_inherited_axis :
  option_map suggestChartConfig (analyzeFields (JArr builders))
  = Some (Some by_constructor)
  /\ processDataForChart (JArr builders) by_constructor
     = Some [ row [("constructor", JStr "a"); ("y", int 1)];
              {| own := [("constructor", Builtin "constructor");
                         ("y", Plain (int 2))];
                 proto := ProtoObject |} ]
  /\ processDataForChart (JArr shadowing) (chart Bar None) = None.
Proof. repeat split. Qed.

(** C4 fails on the code: two rows with different (X, group) pairs share
    the key "north_east_coast" and are merged into one output row. *)
Lemma processDataForChart_group_collision :
  processed_rows (chart Bar (Some "g")) colliding_sales
  = Some [ row [("x", JStr "north_east"); ("y", int 1); ("g", JStr "coast")];
           row [("x", JStr "north"); ("y", int 2); ("g", JStr "east_coast")] ]
  /\ processDataForChart colliding_sales (chart Bar (Some "g"))
     = Some [ row [("x", JStr "north_east"); ("y", int 3); ("count", int 2);
                   ("g", JStr "coast")] ].
Proof. split; reflexivity. Qed.

(** The same reducer when the Y field is itself named "count": the sum and
    the count share one property, which ends as their total. *)
Lemma processDataForChart_count_clash :
  processDataForChart
    (JArr [ JObj [("x", JStr "north"); ("g", JStr "p"); ("count", int 5)] ])
    {| chartType := Bar; xAxis := "x"; yAxis := "count"; groupBy := Some "g";
       title := "My Chart" |}
  = Some [ row [("x", JStr "north"); ("count", int 6); ("g", JStr "p")] ].
Proof. reflexivity. Qed.

(** C5 fails on the code: in pie mode with a group-by left configured
    the rows are grouped by (X, group) and carry no "value" field. *)
Lemma processDataForChart_pie_grouped :
  processDataForChart grouped_sales (chart Pie (Some "g"))
  = Some [ row [("x", JStr "north"); ("y", int 1); ("count", int 1);
                ("g", JStr "p")];
           row [("x", JStr "north"); ("y", int 2); ("count", int 1);
                ("g", JStr "q")] ]
  /\ processDataForChart grouped_sales (chart Pie None)
     = Some [ row [("name", JStr "north"); ("value", int 3)] ].
Proof. split; reflexivity. Qed.

(** The rows whose key names an inherited member are lost: "toString" in
    pie mode, and the key "__proto__" of the pair ("_", "proto__") in
    group-by mode. *)
Lemma processDataForChart_member_keys :
  processDataForChart member_sales (chart Pie None)
  = Some [ row [("name", JStr "north"); ("value", int 2)] ]
  /\ processDataForChart
       (JArr [ sale "_" "proto__" (int 1); sale "north" "p" (int 2) ])
       (chart Bar (Some "g"))
     = Some [ row [("x", JStr "north"); ("y", int 2); ("count", int 1);
                   ("g", JStr "p")] ].
Proof. split; reflexivity. Qed.

(** In group-by mode a row whose key names an inherited method makes the
    call throw when the Y field is a property functions do not let
    assign, such as "length". *)
Lemma processDataForChart_rejected :
  processed_rows by_length getter_sales
  = Some [ row [("x", JStr "_"); ("length", int 3); ("g", JStr "defineGetter__")] ]
  /\ processDataForChart getter_sales by_length = None.
Proof. split; reflexivity. Qed.

(** The two reducers on such data. *)
Lemma processDataForChart_pie_witness :
  exists acc : list (string * Obj),
    processDataForChart member_sales (chart Pie None) = Some (map snd acc)
    /\ NoDup (map fst acc)
    /\ ~ In "toString" (map fst acc)
    /\ In "north" (map fst acc).
Proof.
  destruct (processDataForChart_pie (chart Pie None) member_sales _
                                    eq_refl eq_refl eq_refl)
    as [acc [Hout [Hnd [Hkeys _]]]].
  exists acc. split; [exact Hout|]. split; [exact Hnd|]. split.
  - intros Hin. apply Hkeys in Hin. destruct Hin as [Hm _]. discriminate.
  - apply Hkeys. split; [reflexivity|].
    eexists. split; [right; left; reflexivity | reflexivity].
Defined.

Lemma processDataForChart_grouped_witness :
  exists acc : list (string * Obj),
    processDataForChart grouped_sales (chart Bar (Some "g")) = Some (map snd acc)
    /\ NoDup (map fst acc)
    /\ In "north_p" (map fst acc)
    /\ In "north_q" (map fst acc).
Proof.
  destruct (processDataForChart_grouped (chart Bar (Some "g")) "g" eq_refl
              ltac:(discriminate) ltac:(discriminate) ltac:(discriminate)
              ltac:(discriminate) ltac:(discriminate) ltac:(discriminate)
              eq_refl eq_refl grouped_sales _ eq_refl)
    as [acc [Hout [Hnd [Hkeys _]]]].
  exists acc. split; [exact Hout|]. split; [exact Hnd|]. split.
  - apply Hkeys. split; [reflexivity|].
    eexists. split; [left; reflexivity | reflexivity].
  - apply Hkeys. split; [reflexivity|].
    eexists. split; [right; left; reflexivity | reflexivity].
Defined.

Lemma processDataForChart_length_witness :
  exists kept,
    processed_rows (chart Bar (Some "g")) colliding_sales = Some kept
    /\ (1 <= List.length kept)%nat
    /\ (List.length kept <= 2)%nat.
Proof.
  destruct (processDataForChart_length colliding_sales (chart Bar (Some "g")) _
                                       eq_refl)
    as [kept [Hkept [Hlow Hhigh]]].
  exists kept. split; [exact Hkept|]. split; [exact Hlow | exact Hhigh].
Defined.
End Runs.
(** ** The API-history module with stable ids *)

Section ApiHistoryDbFacts.
Import ApiHistory ApiHistoryDb.

Lemma stored_save_run (ctx : Ctx) (args : Args) (db : Db) :
  ApiHistoryDb.saveApiRequest ctx args db =
  match caller ctx with
  | Some uid =>
      (inr (nextId db),
       {| rows := rows db ++ [ {| _id := nextId db; fields := new_doc ctx args uid |} ];
          nextId := S (nextId db) |})
  | None => (inl (Error "Unauthorized"), db)
  end.
Proof.
  unfold ApiHistoryDb.saveApiRequest, ApiHistoryDb.getAuthUserId, caller,
    ApiHistoryDb.bind, ApiHistoryDb.ret, ApiHistoryDb.throw, db_insert.
  destruct (authUserId ctx) as [uid|]; [|reflexivity].
  destruct (truthy_string uid); reflexivity.
Qed.

Lemma find_existsb {A : Type} (p : A -> bool) (l : list A) (a : A) :
  find p l = Some a -> existsb p l = true.
Proof.
  intros Hf. apply find_some in Hf. apply existsb_exists. now exists a.
Qed.

Lemma stored_delete_run (ctx : Ctx) (id : Id) (db : Db) :
  deleteApiRequest ctx id db =
  match caller ctx with
  | Some uid =>
      match find (has_id id) (rows db) with
      | Some request =>
          if owned_by uid request then (inr tt, without id db)
          else (inl (Error "Unauthorized"), db)
      | None => (inl (Error "Request not found"), db)
      end
  | None => (inl (Error "Unauthorized"), db)
  end.
Proof.
  unfold deleteApiRequest, ApiHistoryDb.getAuthUserId, caller,
    ApiHistoryDb.bind, ApiHistoryDb.ret, ApiHistoryDb.throw, db_get.
  destruct (authUserId ctx) as [uid|]; [|reflexivity].
  destruct (truthy_string uid); simpl; [|reflexivity].
  destruct (find (has_id id) (rows db)) as [request|] eqn:Hfind; [|reflexivity].
  unfold owned_by. destruct (String.eqb (userId (fields request)) uid); simpl;
    [|reflexivity].
  unfold db_delete. now rewrite (find_existsb _ _ _ Hfind).
Qed.

Lemma stored_history_run (ctx : Ctx) (db : Db) :
  getUserApiHistory ctx db =
  (inr match caller ctx with
       | Some uid => rev (filter (owned_by uid) (rows db))
       | None => []
       end, db).
Proof.
  unfold getUserApiHistory, try_catch, ApiHistoryDb.getAuthUserId, caller,
    ApiHistoryDb.bind, ApiHistoryDb.ret, by_user_id.
  destruct (authUserId ctx) as [uid|]; [|reflexivity].
  destruct (truthy_string uid); reflexivity.
Qed.

(** *** Deleting a list of documents *)

Lemma filter_filter {A : Type} (p q : A -> bool) (l : list A) :
  filter p (filter q l) = filter (fun a => q a && p a) l.
Proof.
  induction l as [|a l IH]; simpl; [reflexivity|].
  destruct (q a); simpl; [destruct (p a)|]; now rewrite IH.
Qed.

Lemma Promise_all_delete (ids : list Id) :
  NoDup ids ->
  forall db,
    (forall id, In id ids -> In id (map _id (rows db))) ->
    Promise_all (map db_delete ids) db =
    (inr tt, {| rows := filter (fun r => negb (listed ids r)) (rows db);
                nextId := nextId db |}).
Proof.
  induction 1 as [|id ids Hnotin Hnd IH]; intros db Hin; simpl.
  - unfold ApiHistoryDb.ret. f_equal. destruct db as [rs nx]; simpl. f_equal.
    induction rs as [|r rs IHr]; simpl; [reflexivity | now rewrite <- IHr].
  - unfold ApiHistoryDb.bind, db_delete.
    assert (Hex : existsb (has_id id) (rows db) = true).
    { apply existsb_exists. specialize (Hin id (or_introl eq_refl)).
      apply in_map_iff in Hin. destruct Hin as [r [Hr Hrin]].
      exists r. split; [exact Hrin|]. unfold has_id. now apply Nat.eqb_eq. }
    rewrite Hex. rewrite IH.
    + simpl. f_equal. f_equal. rewrite filter_filter.
      apply filter_ext. intros r. unfold listed, has_id. simpl.
      now rewrite negb_orb.
    + simpl. intros id' Hid'. specialize (Hin id' (or_intror Hid')).
      apply in_map_iff in Hin. destruct Hin as [r [Hr Hrin]].
      apply in_map_iff. exists r. split; [exact Hr|].
      apply filter_In. split; [exact Hrin|]. unfold has_id.
      apply negb_true_iff, Nat.eqb_neq. congruence.
Qed.

(** The ids of a part of the table are distinct when those of the table
    are. *)
Lemma distinct_ids_filter (keep : Stored -> bool) (table : list Stored) :
  NoDup (map _id table) -> NoDup (map _id (filter keep table)).
Proof.
  intros Hdistinct.
  induction table as [|r table IH]; [constructor|].
  simpl in Hdistinct. apply NoDup_cons_iff in Hdistinct.
  destruct Hdistinct as [Hnew Hdistinct]. simpl.
  destruct (keep r); [|now apply IH].
  simpl. apply NoDup_cons_iff. split; [|now apply IH].
  intros Hin. apply Hnew. apply in_map_iff in Hin.
  destruct Hin as [r' [Hid Hr']]. apply filter_In in Hr'.
  apply in_map_iff. exists r'. tauto.
Qed.

Lemma NoDup_map_inj {A B : Type} (f : A -> B) (l : list A) (a b : A) :
  NoDup (map f l) -> In a l -> In b l -> f a = f b -> a = b.
Proof.
  induction l as [|c l IH]; simpl; [tauto|].
  intros Hnd Ha Hb Heq. inversion Hnd as [|? ? Hnotin Hnd']; subst.
  destruct Ha as [->|Ha], Hb as [->|Hb]; auto.
  - elim Hnotin. rewrite Heq. now apply in_map.
  - elim Hnotin. rewrite <- Heq. now apply in_map.
Qed.

Lemma listed_owned (uid : string) (db : Db) :
  NoDup (map _id (rows db)) ->
  filter (fun r => negb (listed (map _id (filter (owned_by uid) (rows db))) r))
         (rows db)
  = filter (fun r => negb (owned_by uid r)) (rows db).
Proof.
  intros Hnd. apply filter_ext_in. intros r Hr. f_equal.
  destruct (owned_by uid r) eqn:Hown.
  - apply existsb_exists. exists (_id r). split; [|apply Nat.eqb_refl].
    apply in_map. apply filter_In. now split.
  - apply not_true_is_false. intros Hl. apply existsb_exists in Hl.
    destruct Hl as [id [Hid Heq]]. apply Nat.eqb_eq in Heq. subst id.
    apply in_map_iff in Hid. destruct Hid as [r' [Hr' Hin']].
    apply filter_In in Hin'. destruct Hin' as [Hin' Hown'].
    assert (r' = r) by (eapply NoDup_map_inj; eauto). subst r'. congruence.
Qed.

Lemma stored_clear_run (ctx : Ctx) (db : Db) :
  well_formed db ->
  clearAll ctx db =
  match caller ctx with
  | Some uid =>
      (inr tt, {| rows := filter (fun r => negb (owned_by uid r)) (rows db);
                  nextId := nextId db |})
  | None => (inl (Error "Unauthorized"), db)
  end.
Proof.
  intros [Hnd _].
  unfold clearAll, ApiHistoryDb.getAuthUserId, caller,
    ApiHistoryDb.bind at 1, ApiHistoryDb.ret, ApiHistoryDb.throw.
  destruct (authUserId ctx) as [uid|]; [|reflexivity].
  destruct (truthy_string uid); simpl; [|reflexivity].
  unfold ApiHistoryDb.bind, by_user_id.
  rewrite <- (map_map _id db_delete).
  rewrite Promise_all_delete.
  - now rewrite listed_owned.
  - now apply distinct_ids_filter.
  - intros id Hid. apply in_map_iff in Hid. destruct Hid as [r [<- Hr]].
    apply in_map. apply filter_In in Hr. apply Hr.
Qed.
End ApiHistoryDbFacts.

Section ApiHistoryDbTheorems.
Import ApiHistory ApiHistoryDb.

Lemma owned_by_eq (uid : string) (r : Stored) :
  owned_by uid r = true <-> userId (fields r) = uid.
Proof. unfold owned_by. apply String.eqb_eq. Qed.

Lemma has_id_eq (id : Id) (r : Stored) : has_id id r = true <-> _id r = id.
Proof. unfold has_id. apply Nat.eqb_eq. Qed.

Lemma caller_truthy (ctx : Ctx) (uid : string) :
  caller ctx = Some uid -> authUserId ctx = Some uid /\ truthy_string uid = true.
Proof.
  unfold caller. destruct (authUserId ctx) as [u|]; [|discriminate].
  destruct (truthy_string u) eqn:Ht; [|discriminate].
  intros [= ->]. now split.
Qed.

Lemma filter_idle {A : Type} (p : A -> bool) (l : list A) :
  (forall a, In a l -> p a = true) -> filter p l = l.
Proof.
  induction l as [|a l IH]; simpl; intros Hall; [reflexivity|].
  rewrite (Hall a (or_introl eq_refl)). f_equal. apply IH.
  intros b Hb. apply Hall. now right.
Qed.

Lemma filter_absorb {A : Type} (p q : A -> bool) (l : list A) :
  (forall a, In a l -> p a = true -> q a = true) ->
  filter p (filter q l) = filter p l.
Proof.
  intros Himp. rewrite filter_filter. apply filter_ext_in. intros a Ha.
  destruct (p a) eqn:Hp; [now rewrite (Himp a Ha Hp) | apply andb_false_r].
Qed.

Lemma filter_complement {A : Type} (p : A -> bool) (l : list A) :
  filter p (filter (fun a => negb (p a)) l) = [].
Proof.
  induction l as [|a l IH]; simpl; [reflexivity|].
  destruct (p a) eqn:Hp; simpl; [exact IH | now rewrite Hp].
Qed.

Lemma fresh_id_absent (db : Db) :
  well_formed db -> forall r, In r (rows db) -> has_id (nextId db) r = false.
Proof.
  intros [_ Hlt] r Hr. rewrite Forall_forall in Hlt. specialize (Hlt r Hr).
  unfold has_id. apply Nat.eqb_neq. lia.
Qed.

Lemma well_formed_filter (p : Stored -> bool) (db : Db) :
  well_formed db ->
  well_formed {| rows := filter p (rows db); nextId := nextId db |}.
Proof.
  intros [Hnd Hlt]. split; simpl.
  - now apply distinct_ids_filter.
  - apply Forall_forall. intros r Hr. apply filter_In in Hr.
    rewrite Forall_forall in Hlt. now apply Hlt.
Qed.

Lemma well_formed_insert (doc : Doc) (db : Db) :
  well_formed db ->
  well_formed {| rows := rows db ++ [ {| _id := nextId db; fields := doc |} ];
                 nextId := S (nextId db) |}.
Proof.
  intros [Hnd Hlt]. split; simpl.
  - rewrite map_app. simpl. apply NoDup_app.
    + exact Hnd.
    + repeat constructor. intros [].
    + intros id Hin [<-|[]]. apply in_map_iff in Hin.
      destruct Hin as [r [Hid Hr]]. rewrite Forall_forall in Hlt.
      specialize (Hlt r Hr). lia.
  - apply Forall_app. split.
    + eapply Forall_impl; [|exact Hlt]. simpl. intros r Hr. lia.
    + repeat constructor.
Qed.

Lemma well_formed_after (ctx : Ctx) (db : Db) :
  well_formed db ->
  (forall args, well_formed (snd (ApiHistoryDb.saveApiRequest ctx args db)))
  /\ (forall id, well_formed (snd (deleteApiRequest ctx id db)))
  /\ well_formed (snd (clearAll ctx db)).
Proof.
  intros Hwf. split; [|split].
  - intros args. rewrite stored_save_run.
    destruct (caller ctx); simpl; [now apply well_formed_insert | exact Hwf].
  - intros id. rewrite stored_delete_run.
    destruct (caller ctx) as [uid|]; [|exact Hwf].
    destruct (find (has_id id) (rows db)) as [request|]; [|exact Hwf].
    destruct (owned_by uid request); [|exact Hwf].
    now apply well_formed_filter.
  - rewrite (stored_clear_run ctx db Hwf).
    destruct (caller ctx); [|exact Hwf]. now apply well_formed_filter.
Qed.

(** The ids stay distinct and below the next id through every mutation. *)
Theorem mutations_keep_ids_distinct (ctx : Ctx) (db : Db) :
  well_formed db ->
  (forall args, well_formed (snd (ApiHistoryDb.saveApiRequest ctx args db)))
  /\ (forall id, well_formed (snd (deleteApiRequest ctx id db)))
  /\ well_formed (snd (clearAll ctx db)).
Proof. apply well_formed_after. Qed.

(** X15: [deleteApiRequest] succeeds only for an authenticated caller on a
    document that exists and is the caller's, and then removes exactly
    that document; otherwise the table is untouched and the error says
    whether the document was missing. *)
Theorem deleteApiRequest_outcome (ctx : Ctx) (id : Id) (db : Db) :
  match deleteApiRequest ctx id db with
  | (inr _, db') =>
      exists uid request,
        caller ctx = Some uid
        /\ In request (rows db) /\ _id request = id
        /\ userId (fields request) = uid
        /\ db' = without id db
  | (inl e, db') =>
      db' = db
      /\ ((e = Error "Unauthorized"
           /\ (caller ctx = None
               \/ exists request,
                    In request (rows db) /\ _id request = id
                    /\ caller ctx <> Some (userId (fields request))))
          \/ (e = Error "Request not found"
              /\ caller ctx <> None
              /\ forall request, In request (rows db) -> _id request <> id))
  end.
Proof.
  rewrite stored_delete_run.
  destruct (caller ctx) as [uid|] eqn:Hcaller.
  - destruct (find (has_id id) (rows db)) as [request|] eqn:Hfind.
    + pose proof (find_some _ _ Hfind) as [Hin Hid]. apply has_id_eq in Hid.
      destruct (owned_by uid request) eqn:Hown.
      * exists uid, request. apply owned_by_eq in Hown. tauto.
      * split; [reflexivity|]. left. split; [reflexivity|]. right.
        exists request. repeat split; try assumption.
        intros [= Heq]. symmetry in Heq.
        apply (proj2 (owned_by_eq uid request)) in Heq. congruence.
    + split; [reflexivity|]. right. split; [reflexivity|]. split; [discriminate|].
      intros request Hin Hid. apply has_id_eq in Hid.
      now rewrite (find_none _ _ Hfind request Hin) in Hid.
  - split; [reflexivity|]. left. split; [reflexivity|]. now left.
Qed.

(** X16: [clearAll] by an authenticated caller removes every document of the
    caller and keeps the others in order; without a caller it throws
    "Unauthorized" and removes nothing. *)
Theorem clearAll_outcome (ctx : Ctx) (db : Db) :
  well_formed db ->
  (forall uid,
      caller ctx = Some uid ->
      exists db',
        clearAll ctx db = (inr tt, db')
        /\ rows db' = documents_of_others uid db
        /\ documents_of uid db' = []
        /\ nextId db' = nextId db)
  /\ (caller ctx = None -> clearAll ctx db = (inl (Error "Unauthorized"), db)).
Proof.
  intros Hwf. rewrite (stored_clear_run ctx db Hwf). split.
  - intros uid ->. eexists. split; [reflexivity|]. simpl.
    split; [reflexivity|]. split; [|reflexivity].
    unfold documents_of. simpl. apply filter_complement.
  - intros ->. reflexivity.
Qed.

(** X17: [getUserApiHistory] never fails and never writes; it returns the
    caller's documents, all of them and no other, newest first, and the
    empty list when nobody is signed in. *)
Theorem getUserApiHistory_own (ctx : Ctx) (db : Db) :
  exists docs,
    getUserApiHistory ctx db = (inr docs, db)
    /\ (forall r, In r docs <->
                  In r (rows db) /\ caller ctx = Some (userId (fields r)))
    /\ (forall uid, caller ctx = Some uid -> docs = rev (documents_of uid db))
    /\ (caller ctx = None -> docs = []).
Proof.
  rewrite stored_history_run. eexists. split; [reflexivity|].
  destruct (caller ctx) as [uid|]; (split; [|split]).
  - intros r. rewrite <- in_rev, filter_In, owned_by_eq. split.
    + intros [Hin <-]. now split.
    + intros [Hin [= ->]]. now split.
  - now intros ? [= ->].
  - discriminate.
  - intros r. split; [intros [] | intros [_ Hn]; discriminate].
  - discriminate.
  - reflexivity.
Qed.

(** X18: No mutation touches the documents of a user other than the caller. *)
Theorem mutations_keep_other_users (ctx : Ctx) (db : Db) (other : string) :
  well_formed db ->
  caller ctx <> Some other ->
  (forall args,
      documents_of other (snd (ApiHistoryDb.saveApiRequest ctx args db))
      = documents_of other db)
  /\ (forall id,
        documents_of other (snd (deleteApiRequest ctx id db))
        = documents_of other db)
  /\ documents_of other (snd (clearAll ctx db)) = documents_of other db.
Proof.
  intros Hwf Hother. split; [|split].
  - intros args. rewrite stored_save_run.
    destruct (caller ctx) as [uid|]; [|reflexivity].
    unfold documents_of. simpl. rewrite filter_app. simpl.
    destruct (owned_by other _) eqn:Hown; [|apply app_nil_r].
    apply owned_by_eq in Hown. simpl in Hown. congruence.
  - intros id. rewrite stored_delete_run.
    destruct (caller ctx) as [uid|]; [|reflexivity].
    destruct (find (has_id id) (rows db)) as [request|] eqn:Hfind; [|reflexivity].
    destruct (owned_by uid request) eqn:Hown; [|reflexivity].
    unfold documents_of. simpl. apply filter_absorb.
    intros r Hr Hro. apply negb_true_iff. apply not_true_is_false. intros Hid.
    pose proof (find_some _ _ Hfind) as [Hin Hid'].
    apply has_id_eq in Hid, Hid'.
    assert (r = request).
    { destruct Hwf as [Hnd _]. eapply NoDup_map_inj; eauto. congruence. }
    subst r. apply owned_by_eq in Hown, Hro. congruence.
  - rewrite (stored_clear_run ctx db Hwf).
    destruct (caller ctx) as [uid|]; [|reflexivity].
    unfold documents_of. simpl. apply filter_absorb.
    intros r Hr Hro. apply negb_true_iff. apply not_true_is_false. intros Hru.
    apply owned_by_eq in Hro, Hru. congruence.
Qed.

(** X19: A saved request gets an id no document has, can be read back under
    that id, and is then the first entry of the caller's history. *)
Theorem saveApiRequest_then_read (ctx : Ctx) (args : Args) (db : Db) (uid : string) :
  well_formed db ->
  caller ctx = Some uid ->
  exists id db',
    ApiHistoryDb.saveApiRequest ctx args db = (inr id, db')
    /\ ~ In id (map _id (rows db))
    /\ db_get id db'
       = (inr (Some {| _id := id; fields := new_doc ctx args uid |}), db')
    /\ forall before,
         fst (getUserApiHistory ctx db) = inr before ->
         fst (getUserApiHistory ctx db')
         = inr ({| _id := id; fields := new_doc ctx args uid |} :: before).
Proof.
  intros Hwf Hcaller. rewrite stored_save_run, Hcaller.
  eexists. eexists. split; [reflexivity|]. split; [|split].
  - intros Hin. apply in_map_iff in Hin. destruct Hin as [r [Hid Hr]].
    pose proof (fresh_id_absent db Hwf r Hr) as Hfresh.
    apply (proj2 (has_id_eq _ _)) in Hid. congruence.
  - unfold db_get. simpl. f_equal. f_equal.
    assert (Hgen : forall rs,
               (forall r, In r rs -> has_id (nextId db) r = false) ->
               find (has_id (nextId db))
                    (rs ++ [ {| _id := nextId db; fields := new_doc ctx args uid |} ])
               = Some {| _id := nextId db; fields := new_doc ctx args uid |}).
    { induction rs as [|r rs IH]; intros Hrs; simpl.
      - unfold has_id. simpl. now rewrite Nat.eqb_refl.
      - rewrite (Hrs r (or_introl eq_refl)). apply IH.
        intros r' Hr'. apply Hrs. now right. }
    apply Hgen. apply fresh_id_absent. exact Hwf.
  - intros before. rewrite !stored_history_run, Hcaller. simpl.
    intros [= <-]. f_equal. rewrite filter_app, rev_app_distr. simpl.
    unfold owned_by at 1. simpl. now rewrite String.eqb_refl.
Qed.

(** X20: Deleting the request just saved restores the documents of the table. *)
Theorem saveApiRequest_then_delete (ctx : Ctx) (args : Args) (db : Db) (uid : string) :
  well_formed db ->
  caller ctx = Some uid ->
  exists id db',
    ApiHistoryDb.saveApiRequest ctx args db = (inr id, db')
    /\ deleteApiRequest ctx id db'
       = (inr tt, {| rows := rows db; nextId := S (nextId db) |}).
Proof.
  intros Hwf Hcaller. rewrite stored_save_run, Hcaller.
  eexists. eexists. split; [reflexivity|].
  rewrite stored_delete_run, Hcaller. simpl.
  pose proof (fresh_id_absent db Hwf) as Hfresh.
  assert (Hfind : find (has_id (nextId db))
                       (rows db ++ [ {| _id := nextId db;
                                        fields := new_doc ctx args uid |} ])
                  = Some {| _id := nextId db; fields := new_doc ctx args uid |}).
  { induction (rows db) as [|r rs IH]; simpl.
    - unfold has_id. simpl. now rewrite Nat.eqb_refl.
    - rewrite (Hfresh r (or_introl eq_refl)). apply IH.
      intros r' Hr'. apply Hfresh. now right. }
  rewrite Hfind. unfold owned_by. simpl. rewrite String.eqb_refl.
  unfold without. simpl. f_equal. f_equal.
  rewrite filter_app. simpl. unfold has_id at 2. simpl. rewrite Nat.eqb_refl. simpl.
  rewrite app_nil_r. apply filter_idle.
  intros r Hr. now rewrite (Hfresh r Hr).
Qed.

(** X21: After [clearAll] the caller's history is empty, and clearing again
    changes nothing. *)
Theorem clearAll_then_history (ctx : Ctx) (db : Db) (uid : string) :
  well_formed db ->
  caller ctx = Some uid ->
  exists db',
    clearAll ctx db = (inr tt, db')
    /\ getUserApiHistory ctx db' = (inr [], db')
    /\ clearAll ctx db' = (inr tt, db').
Proof.
  intros Hwf Hcaller.
  pose proof (well_formed_filter (fun r => negb (owned_by uid r)) db Hwf) as Hwf'.
  rewrite (stored_clear_run ctx db Hwf), Hcaller.
  eexists. split; [reflexivity|].
  rewrite stored_history_run, (stored_clear_run ctx _ Hwf'), Hcaller. simpl.
  split.
  - now rewrite filter_complement.
  - f_equal. f_equal. rewrite filter_filter. apply filter_ext. intros r.
    apply andb_diag.
Qed.

(** The documents saved are those of the model with positional ids. *)
Lemma saveApiRequest_same_documents (ctx : Ctx) (args : Args) (db : Db) :
  map fields (rows (snd (ApiHistoryDb.saveApiRequest ctx args db)))
  = snd (ApiHistory.saveApiRequest ctx args (map fields (rows db))).
Proof.
  rewrite stored_save_run, saveApiRequest_run. unfold caller, truthy_opt.
  destruct (authUserId ctx) as [uid|]; [|reflexivity].
  destruct (truthy_string uid); [|reflexivity].
  simpl. now rewrite map_app.
Qed.
End ApiHistoryDbTheorems.

Section ApiHistoryDbRuns.
Import ApiHistory ApiHistoryDb Examples StoreExamples.

Lemma table_well_formed : well_formed table.
Proof.
  split; simpl.
  - repeat constructor; simpl; intuition discriminate.
  - repeat constructor; simpl; lia.
Qed.

Lemma mutations_keep_ids_distinct_witness :
  well_formed (snd (ApiHistoryDb.saveApiRequest signed_in request table))
  /\ well_formed (snd (deleteApiRequest signed_in 3 table))
  /\ well_formed (snd (clearAll signed_in table)).
Proof.
  destruct (mutations_keep_ids_distinct signed_in table table_well_formed)
    as [Hsave [Hdelete Hclear]].
  split; [apply Hsave | split; [apply Hdelete | exact Hclear]].
Defined.

Lemma clearAll_outcome_witness :
  exists db',
    clearAll signed_in table = (inr tt, db')
    /\ rows db' = [ {| _id := 1; fields := doc_of "user_2" "list" |} ]
    /\ documents_of "user_1" db' = []
    /\ nextId db' = 4%nat.
Proof.
  exact (proj1 (clearAll_outcome signed_in table table_well_formed)
               "user_1" eq_refl).
Defined.

Lemma mutations_keep_other_users_witness :
  documents_of "user_2" (snd (ApiHistoryDb.saveApiRequest signed_in request table))
  = [ {| _id := 1; fields := doc_of "user_2" "list" |} ]
  /\ documents_of "user_2" (snd (deleteApiRequest signed_in 1 table))
     = [ {| _id := 1; fields := doc_of "user_2" "list" |} ]
  /\ documents_of "user_2" (snd (clearAll signed_in table))
     = [ {| _id := 1; fields := doc_of "user_2" "list" |} ].
Proof.
  destruct (mutations_keep_other_users signed_in table "user_2" table_well_formed
              ltac:(discriminate)) as [Hsave [Hdelete Hclear]].
  split; [apply Hsave | split; [apply Hdelete | exact Hclear]].
Defined.

Lemma saveApiRequest_then_read_witness :
  exists id db',
    ApiHistoryDb.saveApiRequest signed_in request table = (inr id, db')
    /\ ~ In id [0; 1; 3]%nat
    /\ db_get id db'
       = (inr (Some {| _id := id;
                       fields := new_doc signed_in request "user_1" |}), db').
Proof.
  destruct (saveApiRequest_then_read signed_in request table "user_1"
              table_well_formed eq_refl) as [id [db' [Hsave [Hfresh [Hget _]]]]].
  exists id, db'. repeat split; assumption.
Defined.

Lemma saveApiRequest_then_delete_witness :
  exists id db',
    ApiHistoryDb.saveApiRequest signed_in request table = (inr id, db')
    /\ deleteApiRequest signed_in id db'
       = (inr tt, {| rows := rows table; nextId := 5 |}).
Proof.
  exact (saveApiRequest_then_delete signed_in request table "user_1"
           table_well_formed eq_refl).
Defined.

Lemma clearAll_then_history_witness :
  exists db',
    clearAll signed_in table = (inr tt, db')
    /\ getUserApiHistory signed_in db' = (inr [], db')
    /\ clearAll signed_in db' = (inr tt, db').
Proof.
  exact (clearAll_then_history signed_in table "user_1" table_well_formed eq_refl).
Defined.
End ApiHistoryDbRuns.

(** ** The keys of a flattening *)

Section KeyFacts.
Context {N : JSNumber} {H : JSHost}.

Lemma contains_dot_append (p q : string) :
  contains_dot (p ++ "." ++ q) = true.
Proof.
  unfold contains_dot. induction p as [|c p IH]; simpl in *.
  - reflexivity.
  - rewrite IH. apply orb_true_r.
Qed.

Lemma dotted_not_proto (k : string) : contains_dot k = true -> k <> "__proto__".
Proof. intros Hk ->. discriminate. Qed.

Lemma extend_path_dotted (prefix key : string) :
  truthy_string prefix = true ->
  contains_dot (extend_path prefix key) = true
  /\ truthy_string (extend_path prefix key) = true.
Proof.
  intros Hp. rewrite (extend_path_truthy prefix key Hp). split.
  - apply contains_dot_append.
  - now apply truthy_append.
Qed.

Lemma index_key_not_proto (i : nat) : index_key i <> "__proto__".
Proof. unfold index_key. destruct (Nat.to_uint i); simpl; discriminate. Qed.

(** An assignment under another name leaves [__proto__] and the
    prototype as they are. *)
Lemma obj_put_other (k : string) (v : Value) (o : Obj) :
  k <> "__proto__" ->
  obj_lookup "__proto__" (own (obj_put k v o)) = obj_lookup "__proto__" (own o)
  /\ proto (obj_put k v o) = proto o.
Proof.
  intros Hk. rewrite (obj_put_plain k v o Hk). simpl. split; [|reflexivity].
  apply obj_lookup_set_other. congruence.
Qed.

Lemma Object_assign_other (o src : Obj) :
  Forall (fun kv => fst kv <> "__proto__") (own src) ->
  obj_lookup "__proto__" (own (Object_assign o src)) = obj_lookup "__proto__" (own o)
  /\ proto (Object_assign o src) = proto o.
Proof.
  unfold Object_assign. generalize (own src). intros l. revert o.
  induction l as [|[k v] l IH]; intros o Hl; simpl; [now split|].
  inversion Hl as [|? ? Hk Hl']; subst. simpl in Hk.
  destruct (IH (obj_put k v o) Hl') as [Hown Hproto].
  destruct (obj_put_other k v o Hk) as [Hown' Hproto'].
  split; congruence.
Qed.

Lemma obj_put_dotted (k : string) (v : Value) (o : Obj) :
  contains_dot k = true -> dotted_keys o -> dotted_keys (obj_put k v o).
Proof.
  intros Hk Ho. rewrite (obj_put_plain k v o (dotted_not_proto k Hk)).
  unfold dotted_keys. simpl. now apply Forall_obj_set.
Qed.

Lemma Object_assign_dotted (o src : Obj) :
  dotted_keys src -> dotted_keys o -> dotted_keys (Object_assign o src).
Proof.
  unfold Object_assign, dotted_keys at 1. generalize (own src). intros l. revert o.
  induction l as [|[k v] l IH]; intros o Hl Ho; simpl; [exact Ho|].
  inversion Hl; subst. apply IH; [assumption|].
  now apply obj_put_dotted.
Qed.

Lemma dotted_other (o : Obj) :
  dotted_keys o -> Forall (fun kv => fst kv <> "__proto__") (own o).
Proof.
  unfold dotted_keys. intros Ho. eapply Forall_impl; [|exact Ho].
  intros kv. apply dotted_not_proto.
Qed.

Lemma flatten_turn_dotted (whole : JSValue) (prefix : string)
      (sub : string -> option Obj) (key : string) (val : JSValue)
      (flattened result : Obj) :
  truthy_string prefix = true ->
  (forall p inner, truthy_string p = true -> sub p = Some inner ->
                   dotted_keys inner) ->
  dotted_keys flattened ->
  flatten_turn whole prefix sub key val flattened = Some result ->
  dotted_keys result.
Proof.
  intros Hp Hsub Hfl. unfold flatten_turn.
  destruct (hasOwnProperty_call whole key) as [[|]|]; [| |discriminate].
  - destruct (extend_path_dotted prefix key Hp) as [Hdot Htruthy].
    unfold flatten_step.
    destruct val as [| |b|n|s|elems|props]; simpl;
      try (intros [= <-]; now apply obj_put_dotted).
    destruct (sub (extend_path prefix key)) as [inner|] eqn:Hinner; [|discriminate].
    simpl. intros [= <-]. apply Object_assign_dotted; [|exact Hfl].
    exact (Hsub _ _ Htruthy Hinner).
  - now intros [= <-].
Qed.

Lemma for_each_dotted (whole : JSValue) (prefix : string)
      (rec : JSValue -> string -> option Obj) (entries : list (string * JSValue)) :
  truthy_string prefix = true ->
  Forall (fun kv => forall p inner, truthy_string p = true ->
                                    rec (snd kv) p = Some inner -> dotted_keys inner)
         entries ->
  forall flattened result,
    dotted_keys flattened ->
    for_each (fun flattened kv =>
                flatten_turn whole prefix (rec (snd kv)) (fst kv) (snd kv) flattened)
             entries flattened = Some result ->
    dotted_keys result.
Proof.
  intros Hp. induction 1 as [|kv entries Hkv _ IH]; intros fl result Hfl; simpl.
  - now intros [= <-].
  - destruct (flatten_turn whole prefix (rec (snd kv)) (fst kv) (snd kv) fl)
      as [fl'|] eqn:Hturn; [|discriminate].
    apply IH. eapply flatten_turn_dotted; [exact Hp | exact Hkv | exact Hfl | exact Hturn].
Qed.

(** Below a prefix every key of the flattening is dotted. *)
Lemma flattenData_dotted (obj : JSValue) :
  forall prefix flattened,
    truthy_string prefix = true ->
    flattenData obj prefix = Some flattened -> dotted_keys flattened.
Proof.
  induction obj as [| |b|n|s|elems IH|props IH] using JSValue_ind';
    intros prefix fl Hp;
    try (simpl; intros [= <-]; constructor).
  - simpl.
    apply (for_each_dotted (JStr s) prefix (fun _ _ => Some empty_object));
      [exact Hp | | constructor].
    apply Forall_forall. intros kv _ p inner _ [= <-]. constructor.
  - rewrite flattenData_array.
    apply (for_each_dotted (JArr elems) prefix flattenData);
      [exact Hp | | constructor].
    exact (Forall_indexed
             (fun j => forall p inner, truthy_string p = true ->
                                       flattenData j p = Some inner ->
                                       dotted_keys inner)
             elems IH 0%nat).
  - rewrite flattenData_object.
    apply (for_each_dotted (JObj props) prefix flattenData);
      [exact Hp | exact IH | constructor].
Qed.

(** One turn at the top level, on a key of a record with distinct keys:
    no property [__proto__] appears, and the prototype stays unless the
    key is [__proto__]. *)
Lemma flatten_turn_top (whole : JSValue) (key : string) (val : JSValue)
      (flattened result : Obj) :
  (forall inner, flattenData val EmptyString = Some inner ->
                 obj_lookup "__proto__" (own inner) = None) ->
  obj_lookup "__proto__" (own flattened) = None ->
  (key = "__proto__" -> proto flattened = ProtoObject) ->
  flatten_turn whole EmptyString (flattenData val) key val flattened = Some result ->
  obj_lookup "__proto__" (own result) = None
  /\ (key <> "__proto__" -> proto result = proto flattened).
Proof.
  intros Hsub Hown Hproto. unfold flatten_turn.
  destruct (hasOwnProperty_call whole key) as [[|]|]; [| |discriminate].
  - unfold flatten_step.
    change (extend_path EmptyString key) with key.
    assert (Hput : forall v : Value,
               primitive v = true ->
               obj_lookup "__proto__" (own (obj_put key v flattened)) = None
               /\ (key <> "__proto__" ->
                   proto (obj_put key v flattened) = proto flattened)).
    { intros v Hv. destruct (String.eqb_spec key "__proto__") as [->|Hne].
      - split; [|congruence].
        unfold obj_put, reaches_accessor, obj_has.
        rewrite Hown, (Hproto eq_refl). simpl.
        destruct v as [[| |vb|vn|vs|ve|vp]|vf|]; simpl in *;
          try discriminate; exact Hown.
      - destruct (obj_put_other key v flattened Hne) as [Ho Hp].
        split; [congruence | intros _; exact Hp]. }
    destruct val as [| |b|n|s|elems|props]; cbn -[flattenData obj_put];
      try (intros [= <-]; now apply Hput).
    destruct (flattenData (JObj props) key) as [inner|] eqn:Hinner; [|discriminate].
    cbn -[flattenData obj_put]. intros [= <-].
    assert (Hother : Forall (fun kv => fst kv <> "__proto__") (own inner)).
    { destruct (truthy_string key) eqn:Hk.
      - apply dotted_other. eapply flattenData_dotted; eassumption.
      - destruct key; [|discriminate].
        specialize (Hsub inner Hinner).
        apply Forall_forall. intros [k v] Hin Heq. simpl in Heq. subst k.
        apply obj_lookup_None in Hsub. apply Hsub.
        apply in_map_iff. now exists ("__proto__", v). }
    destruct (Object_assign_other flattened inner Hother) as [Ho Hp].
    split; [congruence | intros _; exact Hp].
  - intros [= <-]. split; [exact Hown | reflexivity].
Qed.

Lemma for_each_top (whole : JSValue) (entries : list (string * JSValue)) :
  NoDup (map fst entries) ->
  Forall (fun kv => forall inner,
                      flattenData (snd kv) EmptyString = Some inner ->
                      obj_lookup "__proto__" (own inner) = None)
         entries ->
  forall flattened result,
    obj_lookup "__proto__" (own flattened) = None ->
    (In "__proto__" (map fst entries) -> proto flattened = ProtoObject) ->
    for_each (fun flattened kv =>
                flatten_turn whole EmptyString (flattenData (snd kv)) (fst kv)
                             (snd kv) flattened)
             entries flattened = Some result ->
    obj_lookup "__proto__" (own result) = None.
Proof.
  induction entries as [|[k v] entries IH]; intros Hnd Hsub fl result Hown Hproto;
    cbn [for_each map fst snd].
  - now intros [= <-].
  - inversion Hnd as [|? ? Hnotin Hnd']; subst.
    inversion Hsub as [|? ? Hv Hsub']; subst. simpl in Hv.
    destruct (flatten_turn whole EmptyString (flattenData v) k v fl)
      as [fl'|] eqn:Hturn; [|discriminate].
    destruct (flatten_turn_top whole k v fl fl' Hv Hown) as [Hown' Hproto'];
      [|exact Hturn|].
    { intros Hk. apply Hproto. left. exact Hk. }
    apply (IH Hnd' Hsub' fl' result Hown').
    intros Hin. destruct (String.eqb_spec k "__proto__") as [->|Hne].
    + contradiction.
    + rewrite (Hproto' Hne). apply Hproto. now right.
Qed.

Lemma indexed_keys {A : Type} (l : list A) :
  forall i, Forall (fun kv => fst kv <> "__proto__") (indexed i l).
Proof.
  induction l as [|x l IH]; intros i; simpl; constructor; auto.
  apply index_key_not_proto.
Qed.

Lemma for_each_indexed (whole : JSValue) (entries : list (string * JSValue)) :
  Forall (fun kv => fst kv <> "__proto__") entries ->
  Forall (fun kv => forall inner,
                      flattenData (snd kv) EmptyString = Some inner ->
                      obj_lookup "__proto__" (own inner) = None)
         entries ->
  forall flattened result,
    obj_lookup "__proto__" (own flattened) = None ->
    for_each (fun flattened kv =>
                flatten_turn whole EmptyString (flattenData (snd kv)) (fst kv)
                             (snd kv) flattened)
             entries flattened = Some result ->
    obj_lookup "__proto__" (own result) = None.
Proof.
  induction entries as [|[k v] entries IH]; intros Hkeys Hsub fl result Hown;
    cbn [for_each fst snd].
  - now intros [= <-].
  - inversion Hkeys as [|? ? Hk Hkeys']; subst. simpl in Hk.
    inversion Hsub as [|? ? Hv Hsub']; subst. simpl in Hv.
    destruct (flatten_turn whole EmptyString (flattenData v) k v fl)
      as [fl'|] eqn:Hturn; [|discriminate].
    destruct (flatten_turn_top whole k v fl fl' Hv Hown) as [Hown' _];
      [congruence | exact Hturn |].
    now apply (IH Hkeys' Hsub' fl' result Hown').
Qed.

(** The flattening of a value whose records have distinct keys has no
    property [__proto__]: the one assignment under that name goes to the
    setter. *)
Lemma flattenData_no_proto_key (obj : JSValue) :
  distinct_keys obj ->
  forall flattened,
    flattenData obj EmptyString = Some flattened ->
    obj_lookup "__proto__" (own flattened) = None.
Proof.
  induction obj as [| |b|n|s|elems IH|props IH] using JSValue_ind';
    intros Hdistinct fl;
    try (simpl; now intros [= <-]).
  - rewrite flattenData_string. intros [= <-].
    assert (Hgen : forall (l : list (string * JSValue)) (acc : Obj),
               obj_lookup "__proto__" (own acc) = None ->
               Forall (fun kv : string * JSValue => fst kv <> "__proto__") l ->
               obj_lookup "__proto__"
                 (own (fold_left
                         (fun flattened kv =>
                            obj_put (extend_path EmptyString (fst kv))
                                    (Plain (snd kv)) flattened) l acc)) = None).
    { induction l as [|[k v] l IHl]; intros acc Hacc Hl; simpl; [exact Hacc|].
      inversion Hl as [|? ? Hk Hl']; subst. simpl in Hk.
      apply IHl; [|exact Hl'].
      change (extend_path EmptyString k) with k.
      destruct (obj_put_other k (Plain v) acc Hk) as [Ho _]. congruence. }
    apply Hgen; [reflexivity | apply indexed_keys].
  - rewrite flattenData_array.
    apply (for_each_indexed (JArr elems)); [apply indexed_keys | | reflexivity].
    inversion Hdistinct as [|elems' Helems|v Hprim]; subst; [|discriminate].
    rewrite Forall_forall in IH, Helems.
    apply Forall_forall. intros kv Hin. apply In_indexed in Hin.
    apply (IH _ Hin). now apply Helems.
  - rewrite flattenData_object.
    inversion Hdistinct as [props' Hnd Hprops| |v Hprim]; subst; [|discriminate].
    apply (for_each_top (JObj props)); [exact Hnd | | reflexivity | reflexivity].
    rewrite Forall_forall in IH, Hprops.
    apply Forall_forall. intros kv Hin.
    apply (IH _ Hin). now apply Hprops.
Qed.
End KeyFacts.
(** ** More on [analyzeFields] *)

Section AnalyzeFacts.
Context {N : JSNumber} {H : JSHost}.

(** X4: [analyzeFields], when it returns, returns at most one field per
    name. *)
Theorem analyzeFields_distinct_names (data : JSValue) (fields : list FieldInfo) :
  analyzeFields data = Some fields -> NoDup (map name fields).
Proof.
  intros Hfields.
  destruct (analyzeFields_returned data fields Hfields)
    as (keys & flats & Hkeys & _ & ->).
  apply (Permutation_NoDup
           (Permutation_sym (Permutation_map name (sort_fields_perm _)))).
  rewrite push_sampled_names. simpl.
  apply NoDup_filter. exact (proj1 (allKeys_of_keys _ _ Hkeys)).
Qed.

(** *** The order of the result *)

Hypothesis localeCompare_antisym :
  forall a b, localeCompare a b = Gt -> localeCompare b a <> Gt.

Lemma insert_field_HdRel (g f : FieldInfo) (l : list FieldInfo) :
  name_le g f -> HdRel name_le g l -> HdRel name_le g (insert_field f l).
Proof.
  intros Hgf Hhd. destruct l as [|g' l]; simpl; [now constructor|].
  inversion Hhd; subst.
  destruct (localeCompare (name g') (name f)); now constructor.
Qed.

Lemma insert_field_Sorted (f : FieldInfo) (l : list FieldInfo) :
  Sorted name_le l -> Sorted name_le (insert_field f l).
Proof.
  induction 1 as [|g l Hsorted IH Hhd]; simpl.
  - repeat constructor.
  - destruct (localeCompare (name g) (name f)) eqn:Hcmp.
    + constructor; [exact IH|]. apply insert_field_HdRel; [|exact Hhd].
      unfold name_le. congruence.
    + constructor; [exact IH|]. apply insert_field_HdRel; [|exact Hhd].
      unfold name_le. congruence.
    + constructor; [now constructor|]. constructor.
      now apply localeCompare_antisym.
Qed.

Lemma sort_fields_Sorted (l : list FieldInfo) : Sorted name_le (sort_fields l).
Proof.
  unfold sort_fields.
  assert (Hgen : forall acc, Sorted name_le acc ->
             Sorted name_le (fold_left (fun sorted f => insert_field f sorted) l acc)).
  { induction l as [|f l IH]; intros acc Hacc; simpl; [exact Hacc|].
    apply IH. now apply insert_field_Sorted. }
  apply Hgen. constructor.
Qed.

(** X5: When [localeCompare] never puts two strings each after the other, the
    fields come out in ascending order of their names: no field is
    followed by one whose name compares before its own. *)
Theorem analyzeFields_sorted (data : JSValue) (fields : list FieldInfo) :
  analyzeFields data = Some fields -> Sorted name_le fields.
Proof.
  intros Hfields.
  destruct (analyzeFields_returned data fields Hfields)
    as (keys & flats & _ & _ & ->).
  apply sort_fields_Sorted.
Qed.
End AnalyzeFacts.

Section AnalyzeSamples.
Context {N : JSNumber} {H : JSHost}.

Lemma defined_primitive (v : Value) :
  defined v = true -> primitive v = true ->
  (exists b, v = Plain (JBool b)) \/ (exists n, v = Plain (JNum n))
  \/ (exists s, v = Plain (JStr s)).
Proof.
  destruct v as [[| |b|n|s|e|p]|f|]; simpl; try discriminate; eauto.
Qed.

(** The name of a field is a key of the sample. *)
Lemma analyzeFields_names (data : JSValue) (fields : list FieldInfo) (f : FieldInfo) :
  analyzeFields data = Some fields -> In f fields ->
  sample_key (sampleData_of data) (name f).
Proof.
  intros Hfields Hin.
  destruct (analyzeFields_returned data fields Hfields)
    as (keys & flats & Hkeys & _ & ->).
  apply (proj2 (allKeys_of_keys _ _ Hkeys)).
  assert (Hname : In (name f)
                     (map name (fold_left (push_sampled flats) keys []))).
  { apply (Permutation_in _ (Permutation_map name (sort_fields_perm _))).
    now apply in_map. }
  rewrite push_sampled_names in Hname. simpl in Hname.
  apply filter_In in Hname. apply Hname.
Qed.

(** No field is named [__proto__] when the sampled records have distinct
    keys. *)
Lemma analyzeFields_no_proto_name (records : list JSValue)
      (fields : list FieldInfo) (f : FieldInfo) :
  analyzeFields (JArr records) = Some fields -> In f fields ->
  Forall distinct_keys (firstn 5 records) ->
  name f <> "__proto__".
Proof.
  intros Hfields Hin Hdistinct Hname.
  destruct (analyzeFields_names _ fields f Hfields Hin)
    as (item & fl & Hitem & _ & Hflat & Hkey).
  simpl in Hitem. rewrite Forall_forall in Hdistinct.
  pose proof (flattenData_no_proto_key item (Hdistinct item Hitem) fl Hflat) as Hnone.
  apply obj_lookup_None in Hnone. apply Hnone.
  rewrite <- Hname. exact Hkey.
Qed.

(** X6: Every field of [analyzeFields] has as sample what reading the
    field's name in the flattening of one of the first five records
    gives.  That is a boolean, a number or a string stored there, typed
    "boolean", "number" and one of "number", "date", "string"; or, for a
    record without the name, the member a plain object inherits under
    it: a method of [Object.prototype], typed "string", or for
    [__proto__] the prototype itself, typed "object".  The type is never
    "array"; and as no field is named [__proto__] when the records have
    distinct keys, it is then never "object" either. *)
Theorem analyzeFields_sampled_values (records : list JSValue)
        (fields : list FieldInfo) (f : FieldInfo) :
  analyzeFields (JArr records) = Some fields ->
  In f fields ->
  (exists item flattened,
      In item (firstn 5 records)
      /\ flattenData item EmptyString = Some flattened
      /\ obj_get (name f) flattened = sampleValue f
      /\ match sampleValue f with
         | Plain _ => obj_lookup (name f) (own flattened) = Some (sampleValue f)
         | _ => obj_lookup (name f) (own flattened) = None
         end)
  /\ match sampleValue f with
     | Plain (JBool _) => type f = FBoolean
     | Plain (JNum _) => type f = FNumber
     | Plain (JStr _) => type f = FNumber \/ type f = FDate \/ type f = FString
     | Builtin m =>
         m = name f /\ In m Object_prototype_methods /\ type f = FString
     | ObjectPrototype => name f = "__proto__" /\ type f = FObject
     | _ => False
     end
  /\ type f <> FArray
  /\ (Forall distinct_keys (firstn 5 records) ->
      name f <> "__proto__" /\ type f <> FObject).
Proof.
  intros Hfields Hin.
  assert (Hmain :
            (exists item flattened,
                In item (firstn 5 records)
                /\ flattenData item EmptyString = Some flattened
                /\ obj_get (name f) flattened = sampleValue f
                /\ match sampleValue f with
                   | Plain _ =>
                       obj_lookup (name f) (own flattened) = Some (sampleValue f)
                   | _ => obj_lookup (name f) (own flattened) = None
                   end)
            /\ match sampleValue f with
               | Plain (JBool _) => type f = FBoolean
               | Plain (JNum _) => type f = FNumber
               | Plain (JStr _) =>
                   type f = FNumber \/ type f = FDate \/ type f = FString
               | Builtin m =>
                   m = name f /\ In m Object_prototype_methods /\ type f = FString
               | ObjectPrototype => name f = "__proto__" /\ type f = FObject
               | _ => False
               end).
  { destruct (analyzeFields_field _ fields f Hfields Hin)
      as (flats & v & rest & Hfl & Hf & Hty & Hsv).
    unfold sampleData_of in Hfl.
    assert (Hv : In v (samples flats (name f))) by (rewrite Hf; now left).
    destruct (samples_read _ _ _ _ Hfl Hv)
      as [Hdef (item & fl & Hitem & Hflat & Hget)].
    pose proof (flattenData_tidy item _ fl Hflat) as Htidy.
    rewrite Hsv, Hty. clear Hsv Hty Hv Hf. subst v.
    destruct (obj_get_tidy (name f) fl Htidy) as [Hprim|(Hnone & Hm & Hinh)].
    - assert (Hown : obj_lookup (name f) (own fl) = Some (obj_get (name f) fl)).
      { unfold obj_get in *.
        destruct (obj_lookup (name f) (own fl)) as [w|] eqn:Hl; [reflexivity|].
        destruct Htidy as [_ Hproto]. unfold plain_proto in Hproto.
        destruct (proto fl); [|discriminate|contradiction].
        destruct (inherited_cases (name f)) as [[_ Hi]|[[_ Hi]|[_ Hi]]];
          rewrite Hi in Hprim, Hdef; discriminate. }
      destruct (defined_primitive _ Hdef Hprim) as [[b Hb]|[[n Hn]|[s Hs]]].
      + rewrite Hb in *. split; [|reflexivity]. exists item, fl. now rewrite Hb.
      + rewrite Hn in *. split; [|reflexivity]. exists item, fl. now rewrite Hn.
      + rewrite Hs in *. split; [exists item, fl; now rewrite Hs|].
        rewrite detectFieldType_string_eq.
        destruct (negb (num_isNaN (Number_of_string s))); [now left|].
        destruct (dateRegex_test s || negb (num_isNaN (Date_parse s))); auto.
    - destruct (inherited_cases (name f)) as [[Hk Hi]|[[Hk Hi]|[Hk Hi]]];
        rewrite Hi in Hinh; rewrite Hinh in *.
      + split; [|now split]. exists item, fl. now rewrite Hinh.
      + split; [|now repeat split]. exists item, fl. now rewrite Hinh.
      + discriminate. }
  destruct Hmain as [Hread Htype].
  split; [exact Hread|]. split; [exact Htype|]. split.
  - destruct (sampleValue f) as [[| |b|n|s|e|p]|m|]; try contradiction.
    + congruence.
    + congruence.
    + destruct Htype as [Ht|[Ht|Ht]]; congruence.
    + destruct Htype as (_ & _ & Ht). congruence.
    + destruct Htype as [_ Ht]. congruence.
  - intros Hdistinct.
    pose proof (analyzeFields_no_proto_name records fields f Hfields Hin Hdistinct)
      as Hname.
    split; [exact Hname|].
    destruct (sampleValue f) as [[| |b|n|s|e|p]|m|]; try contradiction.
    + congruence.
    + congruence.
    + destruct Htype as [Ht|[Ht|Ht]]; congruence.
    + destruct Htype as (_ & _ & Ht). congruence.
    + destruct Htype as [Hk _]. contradiction.
Qed.

Lemma allKeys_of_primitives (sampleData : list JSValue) :
  Forall (fun item => primitive (Plain item) = true) sampleData ->
  allKeys_of sampleData = Some [].
Proof.
  unfold allKeys_of. intros Hprim. generalize (@nil string).
  induction Hprim as [|item items Hitem _ IH]; intros acc; simpl; [reflexivity|].
  assert (Hadd : add_keys acc item = Some acc).
  { unfold add_keys. destruct item; simpl in *; try reflexivity; discriminate. }
  rewrite Hadd. apply IH.
Qed.

(** X7: Records that are not objects (numbers, strings, booleans, null)
    contribute no key: for an array whose first five entries are all such
    values [analyzeFields] returns no field. *)
Theorem analyzeFields_no_objects (records : list JSValue) :
  Forall (fun item => primitive (Plain item) = true) (firstn 5 records) ->
  analyzeFields (JArr records) = Some [].
Proof.
  intros Hprim. unfold analyzeFields, sampleData_of.
  now rewrite (allKeys_of_primitives _ Hprim).
Qed.
End AnalyzeSamples.

(** ** More on [flattenData] *)

Section FlattenFacts.
Context {N : JSNumber} {H : JSHost}.

Lemma flatten_step_plain (sub : string -> option Obj) (key : string) (val : JSValue)
      (flattened : Obj) :
  nested_object val = false ->
  flatten_step EmptyString sub key val flattened
  = Some (obj_put key (stored_value val) flattened).
Proof.
  unfold flatten_step, stored_value, extend_path. simpl.
  destruct val; simpl; try reflexivity; discriminate.
Qed.

Lemma put_stored_proto (v : JSValue) (o : Obj) :
  nested_object v = false ->
  obj_lookup "__proto__" (own o) = None ->
  proto o = ProtoObject ->
  obj_put "__proto__" (stored_value v) o
  = {| own := own o; proto := proto_after v |}.
Proof.
  intros Hv Hown Hproto. unfold obj_put, reaches_accessor, obj_has.
  rewrite Hown, Hproto. simpl.
  destruct o as [props p]. simpl in *. subst p.
  destruct v; simpl in *; try reflexivity; discriminate.
Qed.

Lemma fold_put_stored (props : list (string * JSValue)) :
  NoDup (map fst props) ->
  Forall (fun kv => nested_object (snd kv) = false) props ->
  forall acc : Obj,
    obj_lookup "__proto__" (own acc) = None ->
    (In "__proto__" (map fst props) -> proto acc = ProtoObject) ->
    let result :=
      fold_left (fun fl kv => obj_put (fst kv) (stored_value (snd kv)) fl)
                props acc in
    (forall k, k <> "__proto__" ->
       obj_lookup k (own result)
       = match obj_lookup k props with
         | Some v => Some (stored_value v)
         | None => obj_lookup k (own acc)
         end)
    /\ obj_lookup "__proto__" (own result) = None
    /\ proto result = match obj_lookup "__proto__" props with
                      | Some v => proto_after v
                      | None => proto acc
                      end.
Proof.
  induction props as [|[k0 v0] props IH]; intros Hnd Hplain acc Hown Hproto;
    cbn [fold_left obj_lookup fst snd].
  - repeat split; auto.
  - inversion Hnd as [|? ? Hnotin Hnd']; subst.
    inversion Hplain as [|? ? Hv0 Hplain']; subst. simpl in Hv0.
    destruct (String.eqb_spec k0 "__proto__") as [->|Hk0].
    + rewrite (put_stored_proto v0 acc Hv0 Hown (Hproto (or_introl eq_refl))).
      destruct (IH Hnd' Hplain' {| own := own acc; proto := proto_after v0 |} Hown)
        as (Hother & Hnone & Hp).
      { intros Hin. contradiction. }
      split; [|split].
      * intros k Hk. rewrite (Hother k Hk).
        destruct (String.eqb_spec k "__proto__"); [contradiction | reflexivity].
      * exact Hnone.
      * rewrite Hp. apply obj_lookup_None in Hnotin. now rewrite Hnotin.
    + rewrite (obj_put_plain k0 _ acc Hk0).
      destruct (IH Hnd' Hplain'
                   {| own := obj_set k0 (stored_value v0) (own acc);
                      proto := proto acc |})
        as (Hother & Hnone & Hp).
      { simpl. rewrite obj_lookup_set_other; [exact Hown | congruence]. }
      { simpl. intros Hin. apply Hproto. now right. }
      split; [|split].
      * intros k Hk. rewrite (Hother k Hk). simpl.
        destruct (String.eqb_spec k k0) as [->|Hne].
        -- apply obj_lookup_None in Hnotin. rewrite Hnotin.
           apply obj_lookup_set_same.
        -- destruct (obj_lookup k props); [reflexivity|].
           now apply obj_lookup_set_other.
      * exact Hnone.
      * rewrite Hp. cbn [obj_lookup own proto].
        destruct (String.eqb_spec "__proto__" k0); [congruence | reflexivity].
Qed.

(** X8: A record without nested objects.  With a property named
    "hasOwnProperty" flattening it throws.  Otherwise every key but
    [__proto__] is kept with the same value, an array value being
    replaced by its JSON text; a property [__proto__] is not kept: it
    goes to the setter, which removes the prototype when the value is
    null and ignores any other value. *)
Theorem flattenData_plain_record (props : list (string * JSValue)) :
  NoDup (map fst props) ->
  Forall (fun kv => nested_object (snd kv) = false) props ->
  (In "hasOwnProperty" (map fst props) ->
   flattenData (JObj props) EmptyString = None)
  /\ (~ In "hasOwnProperty" (map fst props) ->
      exists flattened,
        flattenData (JObj props) EmptyString = Some flattened
        /\ (forall k, k <> "__proto__" ->
              obj_lookup k (own flattened)
              = option_map stored_value (obj_lookup k props))
        /\ obj_lookup "__proto__" (own flattened) = None
        /\ proto flattened = match obj_lookup "__proto__" props with
                             | Some JNull => ProtoNull
                             | _ => ProtoObject
                             end).
Proof.
  intros Hnd Hplain. split.
  - intros Hin. apply flattenData_thrown. now apply hides_here.
  - intros Hnot. apply obj_has_false in Hnot.
    exists (fold_left (fun fl kv => obj_put (fst kv) (stored_value (snd kv)) fl)
                      props empty_object).
    split.
    + rewrite flattenData_object. apply for_each_total.
      intros fl kv Hin. rewrite flatten_turn_object, Hnot.
      apply flatten_step_plain.
      rewrite Forall_forall in Hplain. now apply Hplain.
    + destruct (fold_put_stored props Hnd Hplain empty_object eq_refl
                                (fun _ => eq_refl))
        as (Hother & Hnone & Hp).
      split; [|split].
      * intros k Hk. rewrite (Hother k Hk).
        now destruct (obj_lookup k props).
      * exact Hnone.
      * rewrite Hp. destruct (obj_lookup "__proto__" props) as [v|]; [|reflexivity].
        now destruct v.
Qed.
End FlattenFacts.
(** ** More on [suggestChartConfig] *)

Section SuggestMore.
Context {N : JSNumber} {H : JSHost}.

Lemma name_at_In (l : list FieldInfo) (i : nat) :
  (i < List.length l)%nat -> In (name_at l i) (map name l).
Proof.
  intros Hi. unfold name_at.
  destruct (nth_error l i) as [f|] eqn:Hnth.
  - apply in_map. now apply nth_error_In in Hnth.
  - apply nth_error_None in Hnth. lia.
Qed.

Lemma fields_of_names (t : FieldType) (fields : list FieldInfo) (n : string) :
  In n (map name (fields_of t fields)) -> In n (map name fields).
Proof.
  intros Hin. apply in_map_iff in Hin. destruct Hin as [f [<- Hf]].
  apply in_map. unfold fields_of in Hf. apply filter_In in Hf. apply Hf.
Qed.

Lemma positive_length {A : Type} (l : list A) :
  (0 <? List.length l)%nat = true -> (0 < List.length l)%nat.
Proof. apply Nat.ltb_lt. Qed.

Lemma suggestChartConfig_names (fields : list FieldInfo) (cfg : ChartConfig) :
  suggestChartConfig fields = Some cfg ->
  In (xAxis cfg) (map name fields)
  /\ In (yAxis cfg) (yAxis_options cfg fields)
  /\ (has_type FNumber fields = true ->
      In (yAxis cfg) (map name (getFieldsByType fields FNumber)))
  /\ (has_type FNumber fields = false ->
      yAxis cfg = EmptyString /\ chartType cfg = Table)
  /\ groupBy cfg = None.
Proof.
  unfold suggestChartConfig, yAxis_options.
  rewrite !filter_empty.
  pose proof (filter_nonempty FNumber fields) as Hn.
  pose proof (filter_nonempty FString fields) as Hs.
  pose proof (filter_nonempty FDate fields) as Hd.
  destruct (has_type FNumber fields) eqn:En, (has_type FString fields) eqn:Es;
    simpl; try discriminate; rewrite ?Hn, ?Hs, ?Hd;
    destruct (has_type FDate fields) eqn:Ed; simpl;
    try destruct (1 <? List.length (fields_of FNumber fields))%nat eqn:E1;
    intros [= <-]; simpl;
    repeat match goal with
           | |- _ /\ _ => split
           | |- _ -> _ => intro
           end;
    try discriminate; try reflexivity; try (now left);
    try (right; apply name_at_In; now apply Nat.ltb_lt);
    try (apply name_at_In; now apply Nat.ltb_lt);
    try (eapply fields_of_names; apply name_at_In; now apply Nat.ltb_lt).
  all: eapply fields_of_names; apply name_at_In; apply Nat.ltb_lt in E1; lia.
Qed.

Lemma suggested_axes_known (fields : list FieldInfo) (cfg : ChartConfig) :
  suggestChartConfig fields = Some cfg ->
  In (xAxis cfg) (map name fields)
  /\ (has_type FNumber fields = true ->
      In (yAxis cfg) (map name (getFieldsByType fields FNumber)))
  /\ (has_type FNumber fields = false ->
      yAxis cfg = EmptyString /\ chartType cfg = Table).
Proof.
  intros Hcfg.
  destruct (suggestChartConfig_names fields cfg Hcfg) as (Hx & _ & Hy & Hn & _).
  auto.
Qed.

(** X9: Whatever [suggestChartConfig] suggests can be selected in the form:
    the X axis is the name of a field, the Y axis the name of a number
    field (or empty, with type "table", when there is none), and no
    group-by is set. *)
Theorem suggestChartConfig_selectable (fields : list FieldInfo) (cfg : ChartConfig) :
  suggestChartConfig fields = Some cfg ->
  In (xAxis cfg) (map name fields)
  /\ In (yAxis cfg) (yAxis_options cfg fields)
  /\ (has_type FNumber fields = true ->
      In (yAxis cfg) (map name (getFieldsByType fields FNumber)))
  /\ (has_type FNumber fields = false ->
      yAxis cfg = EmptyString /\ chartType cfg = Table)
  /\ groupBy cfg = None.
Proof. apply suggestChartConfig_names. Qed.

(** X10: Without a date field the X axis falls back to the first string field;
    without a string field either, to the second number field when there
    are two, and else to the only number field, which is then both axes. *)
Theorem suggestChartConfig_fallback (fields : list FieldInfo) (cfg : ChartConfig) :
  suggestChartConfig fields = Some cfg ->
  has_type FDate fields = false ->
  (forall s, first_of FString fields = Some s -> xAxis cfg = name s)
  /\ (has_type FString fields = false ->
      (forall n1 n2 rest,
          fields_of FNumber fields = n1 :: n2 :: rest ->
          yAxis cfg = name n1 /\ xAxis cfg = name n2)
      /\ (forall n,
             fields_of FNumber fields = [n] ->
             yAxis cfg = name n /\ xAxis cfg = name n)).
Proof.
  unfold suggestChartConfig. rewrite !filter_empty, !filter_nonempty.
  intros Hcfg Hdate. rewrite Hdate in Hcfg. split.
  - intros s Hs. pose proof (first_of_has _ _ _ Hs) as Hstr.
    pose proof (name_at_first _ _ _ Hs) as Hname.
    rewrite Hstr in Hcfg.
    destruct (has_type FNumber fields); simpl in Hcfg;
      injection Hcfg as <-; exact Hname.
  - intros Hstr. rewrite Hstr in Hcfg.
    destruct (has_type FNumber fields); simpl in Hcfg; [|discriminate].
    split.
    + intros n1 n2 rest Hnum. rewrite Hnum in Hcfg. simpl in Hcfg.
      injection Hcfg as <-. now split.
    + intros n Hnum. rewrite Hnum in Hcfg. simpl in Hcfg.
      injection Hcfg as <-. now split.
Qed.
End SuggestMore.

(** ** The builder's state updates *)

Section BuilderFacts.
Context {N : JSNumber} {H : JSHost}.

Lemma findArrays_paths (v : JSValue) :
  forall prefix p arr,
    In (p, arr) (findArrays v prefix) -> truthy_string p = true.
Proof.
  intros prefix p arr Hin.
  destruct (findArrays_sound v prefix p arr Hin) as [keys [_ ->]].
  unfold path_or_root.
  destruct (truthy_string (path_after prefix keys)) eqn:Ht; [exact Ht | reflexivity].
Qed.

(** X11: On load the builder analyses the first array [findArrays] found, and
    the empty array when it found none. *)
Theorem initial_selection (data : JSValue) :
  selected_array (findArrays data EmptyString)
                 (initial_arrayPath (findArrays data EmptyString))
  = match findArrays data EmptyString with
    | first :: _ => snd first
    | [] => []
    end.
Proof.
  pose proof (findArrays_paths data EmptyString) as Hpaths.
  destruct (findArrays data EmptyString) as [|[p arr] rest]; [reflexivity|].
  specialize (Hpaths p arr (or_introl eq_refl)).
  unfold initial_arrayPath, selected_array, path_or_root. simpl.
  rewrite Hpaths, String.eqb_refl. reflexivity.
Qed.

(** X12: A response in which no array can be reached through object keys gives
    the builder nothing: no candidate, no field, the configuration it had,
    and no chart data. *)
Theorem no_array_no_chart (data : JSValue) (chartConfig : ChartConfig)
        (fields : list FieldInfo) (processedData : list Obj) :
  (forall keys arr, ~ reaches data keys (JArr arr)) ->
  findArrays data EmptyString = []
  /\ on_array_selected (findArrays data EmptyString)
                       (initial_arrayPath (findArrays data EmptyString)) chartConfig
     = Updated ([], chartConfig)
  /\ on_config_changed (findArrays data EmptyString)
                       (initial_arrayPath (findArrays data EmptyString))
                       chartConfig fields processedData
     = Skipped.
Proof.
  intros Hnone.
  assert (Hempty : findArrays data EmptyString = []).
  { destruct (findArrays data EmptyString) as [|[p arr] rest] eqn:Hfind;
      [reflexivity|].
    destruct (findArrays_sound data EmptyString p arr) as [keys [Hreach _]].
    - rewrite Hfind. now left.
    - elim (Hnone keys arr Hreach). }
  rewrite Hempty. split; [reflexivity|]. split.
  - reflexivity.
  - unfold on_config_changed, selected_array. simpl.
    now rewrite !andb_false_r.
Qed.

(** X13: A suggested configuration is charted exactly when a number field was
    found: without one the suggestion has no Y axis, [processDataForChart]
    is not called and the raw table remains; with one, the effect sets
    what [processDataForChart] returns, and throws when it throws. *)
Theorem suggested_config_charted (arrayOptions : list (string * list JSValue))
        (arrayPath : string) (fields : list FieldInfo) (cfg : ChartConfig)
        (processedData : list Obj) :
  suggestChartConfig fields = Some cfg ->
  (has_type FNumber fields = false ->
   on_config_changed arrayOptions arrayPath cfg fields processedData = Skipped)
  /\ (has_type FNumber fields = true ->
      Forall (fun f => truthy_string (name f) = true) fields ->
      selected_array arrayOptions arrayPath <> [] ->
      on_config_changed arrayOptions arrayPath cfg fields processedData
      = match processDataForChart (JArr (selected_array arrayOptions arrayPath))
                                  cfg with
        | Some processed =>
            Updated (processed, generateSuggestions processedData fields cfg)
        | None => Threw
        end).
Proof.
  intros Hcfg.
  destruct (suggested_axes_known fields cfg Hcfg)
    as (Hx & Hy & Hnone).
  split.
  - intros Hnum. destruct (Hnone Hnum) as [Hyempty _].
    unfold on_config_changed. rewrite Hyempty. simpl. now rewrite andb_false_r.
  - intros Hnum Hnames Harr. rewrite Forall_forall in Hnames.
    assert (Htx : truthy_string (xAxis cfg) = true).
    { apply in_map_iff in Hx. destruct Hx as [f [<- Hf]]. now apply Hnames. }
    assert (Hty : truthy_string (yAxis cfg) = true).
    { specialize (Hy Hnum). apply in_map_iff in Hy. destruct Hy as [f [<- Hf]].
      apply Hnames. unfold getFieldsByType in Hf. apply filter_In in Hf. apply Hf. }
    unfold on_config_changed. rewrite Htx, Hty. simpl.
    destruct (selected_array arrayOptions arrayPath); [now elim Harr | reflexivity].
Qed.

(** *** The hints *)

Lemma In_hint (b : bool) (s x : Suggestion) :
  In x (if b then [s] else []) <-> b = true /\ x = s.
Proof.
  destruct b; simpl; split.
  - intros [<-|[]]. now split.
  - intros [_ ->]. now left.
  - intros [].
  - intros [Hf _]. discriminate.
Qed.

(** What each hint of [generateSuggestions] means: a line chart is proposed
    for date fields unless the chart is one, grouping for a string field
    with at least two number fields unless a group-by is set, a line
    chart again for a bar chart over more than ten rows, and a pie chart
    for string fields unless the chart is one. *)
Theorem generateSuggestions_hints (processedData : list Obj)
        (fields : list FieldInfo) (config : ChartConfig) :
  let hints := generateSuggestions processedData fields config in
  (In TryLineChart hints <->
   has_type FDate fields = true /\ chartType config <> Line)
  /\ (In ConsiderGrouping hints <->
      has_type FString fields = true
      /\ (1 < List.length (getFieldsByType fields FNumber))%nat
      /\ truthy_opt (groupBy config) = false)
  /\ (In LineForLargeData hints <->
      chartType config = Bar /\ (10 < List.length processedData)%nat)
  /\ (In PieForCategories hints <->
      has_type FString fields = true /\ chartType config <> Pie).
Proof.
  unfold generateSuggestions. cbv zeta.
  rewrite !filter_nonempty.
  change (fields_of FNumber fields) with (getFieldsByType fields FNumber).
  rewrite !in_app_iff, !In_hint.
  destruct (Nat.ltb_spec 1 (List.length (getFieldsByType fields FNumber))),
           (Nat.ltb_spec 10 (List.length processedData)),
           (chartType config), (has_type FDate fields),
           (has_type FString fields), (truthy_opt (groupBy config));
    simpl; intuition (try discriminate; try lia; try congruence).
Qed.
End BuilderFacts.

Section BuilderMore.
Context {N : JSNumber} {H : JSHost}.

Lemma suggested_chartType (fields : list FieldInfo) (cfg : ChartConfig) :
  suggestChartConfig fields = Some cfg ->
  chartType cfg = (if has_type FNumber fields
                   then (if has_type FDate fields then Line else Bar)
                   else Table)
  /\ groupBy cfg = None.
Proof.
  unfold suggestChartConfig. rewrite !filter_empty, !filter_nonempty.
  destruct (has_type FNumber fields), (has_type FString fields),
           (has_type FDate fields); simpl; try discriminate;
    try destruct (1 <? List.length (fields_of FNumber fields))%nat;
    intros [= <-]; split; reflexivity.
Qed.

(** X14: The hints shown for a suggested configuration: the line chart is
    proposed exactly when there is a date field but no number field (the
    suggestion is then a table), grouping exactly for a string field with
    at least two number fields, and the pie chart for any string field. *)
Theorem suggested_config_hints (processedData : list Obj)
        (fields : list FieldInfo) (cfg : ChartConfig) :
  suggestChartConfig fields = Some cfg ->
  let hints := generateSuggestions processedData fields cfg in
  (In TryLineChart hints <->
   has_type FDate fields = true /\ has_type FNumber fields = false)
  /\ (In ConsiderGrouping hints <->
      has_type FString fields = true
      /\ (1 < List.length (getFieldsByType fields FNumber))%nat)
  /\ (In PieForCategories hints <-> has_type FString fields = true).
Proof.
  intros Hcfg. destruct (suggested_chartType fields cfg Hcfg) as [Hty Hgb].
  unfold generateSuggestions. cbv zeta.
  rewrite !filter_nonempty, Hty, Hgb.
  change (fields_of FNumber fields) with (getFieldsByType fields FNumber).
  rewrite !in_app_iff, !In_hint.
  destruct (Nat.ltb_spec 1 (List.length (getFieldsByType fields FNumber))),
           (Nat.ltb_spec 10 (List.length processedData)),
           (has_type FNumber fields), (has_type FDate fields),
           (has_type FString fields);
    simpl; intuition (try discriminate; try lia; try congruence).
Qed.

End BuilderMore.

(** ** The API tester's form *)

Section TrimFacts.
Import ApiTester.

Lemma trim_start_no_lead (cs : list ascii) : no_lead (trim_start cs).
Proof.
  induction cs as [|c cs IH]; simpl; [exact I|].
  destruct (is_whitespace c) eqn:Hc; [exact IH | exact Hc].
Qed.

Lemma trim_start_idle (cs : list ascii) : no_lead cs -> trim_start cs = cs.
Proof. destruct cs as [|c cs]; simpl; [reflexivity | now intros ->]. Qed.

Lemma trim_start_snoc (cs : list ascii) (x : ascii) :
  is_whitespace x = false -> trim_start (cs ++ [x]) = trim_start cs ++ [x].
Proof.
  intros Hx. induction cs as [|c cs IH]; simpl; [now rewrite Hx|].
  destruct (is_whitespace c); [exact IH | reflexivity].
Qed.

Lemma trim_end_no_lead (cs : list ascii) :
  no_lead cs -> no_lead (rev (trim_start (rev cs))).
Proof.
  destruct cs as [|x cs]; simpl; [intros _; exact I|]. intros Hx.
  rewrite (trim_start_snoc _ x Hx), rev_app_distr. exact Hx.
Qed.

(** Trimming twice is trimming once. *)
Lemma trim_idempotent (s : string) : trim (trim s) = trim s.
Proof.
  unfold trim. rewrite list_ascii_of_string_of_list_ascii.
  set (a := trim_start (list_ascii_of_string s)).
  pose proof (trim_start_no_lead (list_ascii_of_string s)) as Ha. fold a in Ha.
  rewrite (trim_start_idle _ (trim_end_no_lead a Ha)).
  rewrite rev_involutive.
  now rewrite (trim_start_idle _ (trim_start_no_lead (rev a))).
Qed.

Lemma blank_trim (s : string) : blank (trim s) = blank s.
Proof. unfold blank. now rewrite trim_idempotent. Qed.
End TrimFacts.

Section ApiTesterFacts.
Import ApiTester.
Variable URL_error : string -> option string.
Variable JSON_parses : string -> bool.
Variable saveApiRequest : ApiHistory.Args -> option Thrown.

Lemma validHeaders_entries (hs : list Header) :
  forall kv, In kv (validHeaders hs) ->
    exists h, In h hs /\ is_valid h = true /\ kv = (key h, value h).
Proof.
  unfold validHeaders.
  assert (Hgen : forall hs' acc kv,
             In kv (fold_left (fun acc h => obj_set (key h) (value h) acc) hs' acc) ->
             In kv acc \/ exists h, In h hs' /\ kv = (key h, value h)).
  { induction hs' as [|h hs' IH]; intros acc kv Hin; simpl in Hin; [now left|].
    destruct (IH _ _ Hin) as [Hacc|[h' [Hh' Hkv]]].
    - destruct (In_obj_set _ _ _ _ Hacc) as [->|Hacc']; [|now left].
      right. exists h. split; [now left | reflexivity].
    - right. exists h'. split; [now right | exact Hkv]. }
  intros kv Hin. destruct (Hgen _ _ _ Hin) as [[]|[h [Hh Hkv]]].
  apply filter_In in Hh. exists h. tauto.
Qed.

(** X22: Whenever [handleSaveRequest] calls the mutation, the name and the URL
    it sends are trimmed and not blank, the URL parses, a GET request has
    no body, the body of a POST request is valid JSON unless it is blank,
    and no header has a blank key or a blank value. *)
Theorem handleSaveRequest_sent (form : Form) (args : ApiHistory.Args) :
  sent (handleSaveRequest URL_error JSON_parses saveApiRequest form) = Some args ->
  args = save_args form
  /\ blank (ApiHistory.arg_name args) = false
  /\ trim (ApiHistory.arg_name args) = ApiHistory.arg_name args
  /\ blank (ApiHistory.arg_url args) = false
  /\ URL_error (ApiHistory.arg_url args) = None
  /\ (ApiHistory.arg_method args = ApiHistory.GET ->
      ApiHistory.arg_body args = None)
  /\ (ApiHistory.arg_method args = ApiHistory.POST ->
      ApiHistory.arg_body args = Some (body form)
      /\ (blank (body form) = false -> JSON_parses (body form) = true))
  /\ Forall (fun kv => blank (fst kv) = false /\ blank (snd kv) = false)
            (ApiHistory.arg_headers args).
Proof.
  unfold handleSaveRequest.
  destruct (truthy_string (trim (requestName form))) eqn:Hname; simpl;
    [|discriminate].
  destruct (truthy_string (trim (url form))) eqn:Hurl; simpl; [|discriminate].
  destruct (URL_error (trim (url form))) as [message|] eqn:Hparse; simpl;
    [discriminate|].
  destruct (is_POST (method form) && truthy_string (trim (body form))
            && negb (JSON_parses (body form))) eqn:Hjson; simpl; [discriminate|].
  intros Hsent.
  assert (Hargs : args = save_args form).
  { destruct (saveApiRequest (save_args form)); simpl in Hsent; congruence. }
  subst args. simpl. split; [reflexivity|].
  split; [now rewrite blank_trim; unfold blank; rewrite Hname|].
  split; [apply trim_idempotent|].
  split; [now rewrite blank_trim; unfold blank; rewrite Hurl|].
  split; [exact Hparse|].
  split; [now intros ->|].
  split.
  - intros Hpost. rewrite Hpost in *. simpl in Hjson. split; [reflexivity|].
    unfold blank. intros Hb. apply negb_false_iff in Hb. rewrite Hb in Hjson.
    simpl in Hjson. now apply negb_false_iff in Hjson.
  - apply Forall_forall. intros kv Hin.
    destruct (validHeaders_entries _ kv Hin) as [h [_ [Hvalid ->]]].
    unfold is_valid in Hvalid. apply andb_true_iff in Hvalid.
    unfold blank. simpl. destruct Hvalid as [-> ->]. now split.
Qed.

(** [handleSaveRequest] changes the form only when the mutation returned:
    it then clears the request name and closes the dialog; every other
    run leaves the form as it was and shows an error. *)
Theorem handleSaveRequest_form (form : Form) :
  let run := handleSaveRequest URL_error JSON_parses saveApiRequest form in
  match toast run with
  | toast_success message =>
      message = "Request saved successfully"
      /\ sent run = Some (save_args form)
      /\ saveApiRequest (save_args form) = None
      /\ requestName (form_after run) = EmptyString
      /\ showSaveDialog (form_after run) = false
      /\ url (form_after run) = url form
      /\ method (form_after run) = method form
      /\ headers (form_after run) = headers form
      /\ body (form_after run) = body form
      /\ activeTab (form_after run) = activeTab form
  | toast_error _ => form_after run = form
  end.
Proof.
  unfold handleSaveRequest.
  destruct (truthy_string (trim (requestName form))); simpl; [|reflexivity].
  destruct (truthy_string (trim (url form))); simpl; [|reflexivity].
  destruct (URL_error (trim (url form))) as [message|]; simpl.
  - destruct (includes message "URL"); reflexivity.
  - destruct (is_POST (method form) && truthy_string (trim (body form))
              && negb (JSON_parses (body form))); simpl; [reflexivity|].
    destruct (saveApiRequest (save_args form)) as [[isType message|]|] eqn:Hcall;
      simpl.
    + destruct (isType && includes message "URL"); reflexivity.
    + reflexivity.
    + repeat split.
Qed.
End ApiTesterFacts.

Section HeaderFacts.
Import ApiTester.

Lemma find_snoc {A : Type} (p : A -> bool) (l : list A) (a : A) :
  find p (l ++ [a]) =
  match find p l with
  | Some x => Some x
  | None => if p a then Some a else None
  end.
Proof.
  induction l as [|b l IH]; simpl; [reflexivity|].
  destruct (p b); [reflexivity | exact IH].
Qed.

Lemma fold_headers_lookup (hs : list Header) :
  forall (acc : list (string * string)) (k : string),
    obj_lookup k (fold_left (fun acc h => obj_set (key h) (value h) acc) hs acc)
    = match find (fun h => String.eqb k (key h)) (rev hs) with
      | Some h => Some (value h)
      | None => obj_lookup k acc
      end.
Proof.
  induction hs as [|h hs IH]; intros acc k; simpl; [reflexivity|].
  rewrite IH, find_snoc.
  destruct (find (fun h0 => String.eqb k (key h0)) (rev hs)); [reflexivity|].
  rewrite obj_lookup_set. now destruct (String.eqb k (key h)).
Qed.

(** X23: In the record [validHeaders] builds, a key holds the value of the last
    row with that key among the rows whose key and value are not blank;
    blank rows are ignored. *)
Theorem validHeaders_last_wins (hs : list Header) (k : string) :
  obj_lookup k (validHeaders hs)
  = option_map value
      (find (fun h => String.eqb k (key h)) (rev (filter is_valid hs))).
Proof.
  unfold validHeaders. rewrite fold_headers_lookup.
  now destruct (find (fun h => String.eqb k (key h)) (rev (filter is_valid hs))).
Qed.

Lemma fold_headers_fresh (hs : list Header) :
  NoDup (map key hs) ->
  Forall (fun h => array_index (key h) = None) hs ->
  forall acc : list (string * string),
    (forall h, In h hs -> ~ In (key h) (map fst acc)) ->
    fold_left (fun acc h => obj_set (key h) (value h) acc) hs acc
    = acc ++ map (fun h => (key h, value h)) hs.
Proof.
  induction hs as [|h hs IH]; intros Hnd Hidx acc Hfresh; simpl.
  - now rewrite app_nil_r.
  - inversion Hnd as [|? ? Hnotin Hnd']; subst.
    inversion Hidx as [|? ? Hh Hidx']; subst.
    assert (Hset : obj_set (key h) (value h) acc = acc ++ [(key h, value h)]).
    { unfold obj_set.
      rewrite (proj2 (obj_has_false (key h) acc) (Hfresh h (or_introl eq_refl))).
      now rewrite Hh. }
    rewrite Hset, (IH Hnd' Hidx').
    + now rewrite <- app_assoc.
    + intros h' Hh' Hin. rewrite map_app in Hin. apply in_app_or in Hin.
      destruct Hin as [Hin|[Heq|[]]].
      * apply (Hfresh h' (or_intror Hh')). exact Hin.
      * simpl in Heq. apply Hnotin. rewrite Heq. now apply in_map.
Qed.

Lemma headersArray_pairs (hs : list Header) :
  headersArray (map (fun h => (key h, value h)) hs) = hs.
Proof.
  unfold headersArray. rewrite map_map. simpl.
  induction hs as [|[k v] hs IH]; simpl; [reflexivity | now rewrite IH].
Qed.

(** X24: Loading a saved request never leaves the form without a header row;
    and rows that are all valid, with distinct keys none of which is an
    array index, come back from the saved record exactly as they were. *)
Theorem handleLoadHistory_headers (history : History) (form : Form) :
  headers (handleLoadHistory history form) <> []
  /\ (forall hs,
        hs <> [] ->
        Forall (fun h => is_valid h = true) hs ->
        NoDup (map key hs) ->
        Forall (fun h => array_index (key h) = None) hs ->
        history_headers history = validHeaders hs ->
        headers (handleLoadHistory history form) = hs).
Proof.
  split.
  - unfold handleLoadHistory. simpl.
    destruct (headersArray (history_headers history)); simpl; discriminate.
  - intros hs Hne Hvalid Hnd Hidx Hrec.
    unfold handleLoadHistory. simpl. rewrite Hrec. unfold validHeaders.
    rewrite (filter_idle is_valid hs)
      by (intros h Hh; rewrite Forall_forall in Hvalid; now apply Hvalid).
    rewrite (fold_headers_fresh hs Hnd Hidx []) by (intros ? ? []).
    simpl. rewrite headersArray_pairs.
    destruct hs; [now elim Hne | reflexivity].
Qed.

Lemma filter_index_spec (hs : list Header) :
  forall i index,
    filter_index i index hs
    = if (index <? i)%nat then hs
      else firstn (index - i) hs ++ skipn (S (index - i)) hs.
Proof.
  induction hs as [|h hs IH]; intros i index.
  - simpl. destruct (index <? i)%nat; [reflexivity|]. now rewrite firstn_nil.
  - simpl. rewrite IH.
    destruct (Nat.eqb_spec i index) as [->|Hne]; simpl.
    + rewrite Nat.ltb_irrefl, Nat.sub_diag.
      assert (Hlt : (index <? S index)%nat = true) by (apply Nat.ltb_lt; lia).
      now rewrite Hlt.
    + destruct (Nat.ltb_spec index i) as [Hlt|Hge].
      * assert (Hlt' : (index <? S i)%nat = true) by (apply Nat.ltb_lt; lia).
        now rewrite Hlt'.
      * assert (Hlt' : (index <? S i)%nat = false) by (apply Nat.ltb_ge; lia).
        rewrite Hlt'. replace (index - i)%nat with (S (index - S i)) by lia.
        reflexivity.
Qed.

Lemma filter_index_row (index : nat) (hs : list Header) :
  filter_index 0 index hs = firstn index hs ++ skipn (S index) hs.
Proof. rewrite filter_index_spec. now rewrite Nat.sub_0_r. Qed.

(** X25: [removeHeader] drops exactly the row at the index and nothing when the
    index is past the end; removing the row [addHeader] just added gives
    the rows back. *)
Theorem removeHeader_row (index : nat) (form : Form) :
  headers (removeHeader index form)
  = firstn index (headers form) ++ skipn (S index) (headers form)
  /\ ((List.length (headers form) <= index)%nat ->
      headers (removeHeader index form) = headers form)
  /\ ((index < List.length (headers form))%nat ->
      S (List.length (headers (removeHeader index form)))
      = List.length (headers form))
  /\ headers (removeHeader (List.length (headers form)) (addHeader form))
     = headers form.
Proof.
  change (headers (removeHeader index form))
    with (filter_index 0 index (headers form)).
  change (headers (removeHeader (List.length (headers form)) (addHeader form)))
    with (filter_index 0 (List.length (headers form))
                       (headers form ++ [empty_header])).
  rewrite !filter_index_row.
  generalize (headers form) as hs. intros hs.
  split; [reflexivity|]. split; [|split].
  - intros Hlen. rewrite firstn_all2 by exact Hlen.
    rewrite skipn_all2 by lia. apply app_nil_r.
  - intros Hlt. rewrite length_app, length_firstn, length_skipn. lia.
  - rewrite firstn_app, Nat.sub_diag, firstn_all, firstn_O.
    rewrite skipn_all2 by (rewrite length_app; simpl; lia).
    now rewrite !app_nil_r.
Qed.

Lemma set_nth_spec (f : Header -> Header) (hs : list Header) :
  forall index,
    match set_nth index f hs with
    | Some hs' =>
        (index < List.length hs)%nat
        /\ List.length hs' = List.length hs
        /\ nth_error hs' index = option_map f (nth_error hs index)
        /\ forall i, i <> index -> nth_error hs' i = nth_error hs i
    | None => (List.length hs <= index)%nat
    end.
Proof.
  induction hs as [|h hs IH]; intros index; simpl; [lia|].
  destruct index as [|index]; simpl.
  - repeat split; try lia. intros [|i] Hi; [now elim Hi | reflexivity].
  - specialize (IH index). destruct (set_nth index f hs) as [hs'|]; simpl.
    + destruct IH as (Hlt & Hlen & Hnth & Hother). repeat split; try lia.
      * exact Hnth.
      * intros [|i] Hi; [reflexivity|]. simpl. apply Hother. lia.
    + lia.
Qed.

(** X26: [updateHeader] fails exactly when the index is past the end; otherwise
    it sets the one field of the one row and keeps every other row and the
    other field. *)
Theorem updateHeader_row (index : nat) (field : HeaderField) (v : string)
        (form : Form) :
  match updateHeader index field v form with
  | Some form' =>
      (index < List.length (headers form))%nat
      /\ List.length (headers form') = List.length (headers form)
      /\ nth_error (headers form') index
         = option_map (set_field field v) (nth_error (headers form) index)
      /\ (forall i, i <> index ->
                    nth_error (headers form') i = nth_error (headers form) i)
      /\ url form' = url form /\ body form' = body form
      /\ requestName form' = requestName form
  | None => (List.length (headers form) <= index)%nat
  end.
Proof.
  unfold updateHeader.
  pose proof (set_nth_spec (set_field field v) (headers form) index) as Hspec.
  destruct (set_nth index (set_field field v) (headers form)) as [hs'|]; simpl.
  - destruct Hspec as (Hlt & Hlen & Hnth & Hother). repeat split; assumption.
  - exact Hspec.
Qed.
End HeaderFacts.

(** ** Further runs on concrete data *)

Section MoreRuns.
Import IntRuntime Examples MoreExamples.

Lemma analyzeFields_distinct_names_witness :
  NoDup ["day"; "id"; "tags"].
Proof.
  exact (analyzeFields_distinct_names (JArr records) _ analyzeFields_records).
Defined.

Lemma analyzeFields_sorted_witness :
  Sorted name_le
         [ field "day" FDate (JStr "2024-03");
           field "id" FNumber (int 1);
           field "tags" FString (JStr (JSON_stringify (JArr [JStr "a"]))) ].
Proof.
  refine (analyzeFields_sorted _ (JArr records) _ analyzeFields_records).
  intros a b Hab Hba. simpl in Hab, Hba.
  rewrite String.compare_antisym, Hba in Hab. discriminate.
Defined.

(** The fields of [late_constructor]: the first record has no
    "constructor", and the sample is the function it inherits. *)
Lemma analyzeFields_late_constructor :
  analyzeFields (JArr late_constructor)
  = Some [ {| name := "constructor"; type := FString;
              sampleValue := Builtin "constructor" |};
           field "y" FNumber (int 2) ].
Proof. reflexivity. Qed.

Lemma analyzeFields_sampled_values_witness :
  (exists item flattened,
      In item (firstn 5 late_constructor)
      /\ flattenData item EmptyString = Some flattened
      /\ obj_get "constructor" flattened = Builtin "constructor"
      /\ obj_lookup "constructor" (own flattened) = None)
  /\ ("constructor" = "constructor"
      /\ In "constructor" Object_prototype_methods /\ FString = FString).
Proof.
  destruct (analyzeFields_sampled_values
              late_constructor _
              {| name := "constructor"; type := FString;
                 sampleValue := Builtin "constructor" |}
              analyzeFields_late_constructor)
    as (Hread & Htype & _).
  - left. reflexivity.
  - split; [exact Hread | exact Htype].
Defined.

Lemma analyzeFields_no_objects_witness : analyzeFields (JArr scalars) = Some [].
Proof.
  apply analyzeFields_no_objects. repeat constructor.
Defined.

Lemma flattenData_plain_record_witness :
  flattenData (JObj [ ("hasOwnProperty", int 1); ("a", int 2) ]) EmptyString = None
  /\ exists flattened,
       flattenData (JObj tagged) EmptyString = Some flattened
       /\ obj_lookup "tags" (own flattened)
          = Some (Plain (JStr (JSON_stringify (JArr [JStr "a"])))).
Proof.
  split.
  - apply (proj1 (flattenData_plain_record
                    [ ("hasOwnProperty", int 1); ("a", int 2) ]
                    ltac:(repeat constructor; simpl; intuition discriminate)
                    ltac:(repeat constructor))).
    left. reflexivity.
  - destruct (proj2 (flattenData_plain_record
                       tagged
                       ltac:(repeat constructor; simpl; intuition discriminate)
                       ltac:(repeat constructor)))
      as (flattened & Hflat & Hkeys & _).
    + simpl. intuition discriminate.
    + exists flattened. split; [exact Hflat|].
      apply (Hkeys "tags"). discriminate.
Defined.

Lemma suggestChartConfig_selectable_witness :
  exists cfg,
    suggestChartConfig date_number_text = Some cfg
    /\ In (xAxis cfg) (map name date_number_text)
    /\ In (yAxis cfg) (yAxis_options cfg date_number_text).
Proof.
  eexists. split; [reflexivity|].
  destruct (suggestChartConfig_selectable date_number_text _ eq_refl)
    as (Hx & Hy & _).
  split; assumption.
Defined.

Lemma suggestChartConfig_fallback_witness :
  exists cfg,
    suggestChartConfig numbers_only = Some cfg
    /\ yAxis cfg = "price" /\ xAxis cfg = "sales".
Proof.
  eexists. split; [reflexivity|].
  destruct (suggestChartConfig_fallback numbers_only _ eq_refl eq_refl)
    as [_ Hnum].
  destruct (Hnum eq_refl) as [Htwo _].
  exact (Htwo _ _ _ eq_refl).
Defined.

Lemma no_array_no_chart_witness :
  findArrays no_array EmptyString = []
  /\ on_array_selected (findArrays no_array EmptyString)
                       (initial_arrayPath (findArrays no_array EmptyString))
                       (chart Bar None)
     = Updated ([], chart Bar None).
Proof.
  destruct (no_array_no_chart no_array (chart Bar None) [] [])
    as (Hnone & Hselected & _).
  - intros keys arr Hreach.
    inversion Hreach as [|props k e keys' w Hin Hreach']; subst.
    destruct Hin as [Heq|[]]. inversion Heq; subst. inversion Hreach'.
  - split; assumption.
Defined.

Lemma suggested_config_charted_witness :
  exists cfg,
    suggestChartConfig date_and_text = Some cfg
    /\ on_config_changed [("root", records)] "root" cfg date_and_text [] = Skipped.
Proof.
  eexists. split; [reflexivity|].
  apply (suggested_config_charted [("root", records)] "root" date_and_text _ []
           eq_refl).
  reflexivity.
Defined.

Lemma suggested_config_hints_witness :
  exists cfg,
    suggestChartConfig date_and_text = Some cfg
    /\ In TryLineChart (generateSuggestions [] date_and_text cfg).
Proof.
  eexists. split; [reflexivity|].
  apply (proj1 (suggested_config_hints [] date_and_text _ eq_refl)).
  split; reflexivity.
Defined.

Lemma handleSaveRequest_sent_witness :
  ApiHistory.arg_name (ApiTester.save_args form) = "ping"
  /\ ApiHistory.arg_url (ApiTester.save_args form) = "https://example.org/ping"
  /\ ApiHistory.arg_body (ApiTester.save_args form) = None
  /\ Forall (fun kv => ApiTester.blank (fst kv) = false
                       /\ ApiTester.blank (snd kv) = false)
            (ApiHistory.arg_headers (ApiTester.save_args form)).
Proof.
  destruct (handleSaveRequest_sent (fun _ => None) (fun _ => true) (fun _ => None)
              form (ApiTester.save_args form) eq_refl)
    as (_ & _ & _ & _ & _ & Hget & _ & Hheaders).
  split; [reflexivity|]. split; [reflexivity|].
  split; [exact (Hget eq_refl) | exact Hheaders].
Defined.

Lemma handleLoadHistory_headers_witness :
  ApiTester.headers (ApiTester.handleLoadHistory saved form) = [ accept; token ].
Proof.
  apply (proj2 (handleLoadHistory_headers saved form) [ accept; token ]).
  - discriminate.
  - repeat constructor.
  - repeat constructor; simpl; intuition discriminate.
  - repeat constructor.
  - reflexivity.
Defined.

Lemma removeHeader_row_witness :
  ApiTester.headers (ApiTester.removeHeader 7 form) = ApiTester.headers form
  /\ S (List.length (ApiTester.headers (ApiTester.removeHeader 1 form))) = 3%nat.
Proof.
  split.
  - apply (proj1 (proj2 (removeHeader_row 7 form))). simpl. lia.
  - apply (proj1 (proj2 (proj2 (removeHeader_row 1 form)))). simpl. lia.
Defined.
End MoreRuns.
